(** * A shallow embedding of the blog API worker ([src/index.ts])

    The worker is a CRUD HTTP API over the relational schema of
    [schema.sql] plus the ingestion endpoint [POST /api/simple].  The
    embedding follows the source function by function:

    - JavaScript strings are sequences of UTF-16 code units ([list N]);
    - the D1 database is a record of tables, each a list of rows in rowid
      order, with the constraints that [schema.sql] declares (primary
      keys, [UNIQUE], foreign keys with and without [ON DELETE CASCADE]);
    - a handler is a computation in a state-and-exception monad over the
      database and the number of clock readings made so far;
    - built-ins that the repository does not define (the clock, ISO
      rendering of dates, Unicode case conversion, the URL parser) are the
      fields of a [Runtime] record. *)

From Stdlib Require Import String Ascii List ZArith NArith Bool Lia DecimalString
  DecimalPos DecimalZ.
Import ListNotations.

Set Implicit Arguments.

(** ** JavaScript strings *)

Module JS.

Definition jsstring := list N.

(** A literal: every character of an ASCII literal is one code unit. *)
Definition js (s : string) : jsstring := map N_of_ascii (list_ascii_of_string s).

Fixpoint eqb (a b : jsstring) : bool :=
  match a, b with
  | [], [] => true
  | x :: a', y :: b' => N.eqb x y && eqb a' b'
  | _, _ => false
  end.

(** [!s] for a string: only the empty string is falsy. *)
Definition isEmpty (s : jsstring) : bool :=
  match s with [] => true | _ => false end.

(** WhiteSpace and LineTerminator code points: what [trim], [parseInt] and
    the regular-expression class [\s] all strip or match. *)
Definition isWhiteSpace (c : N) : bool :=
  ((9 <=? c) && (c <=? 13) || (c =? 32) || (c =? 160) || (c =? 5760)
   || (8192 <=? c) && (c <=? 8202) || (c =? 8232) || (c =? 8233)
   || (c =? 8239) || (c =? 8287) || (c =? 12288) || (c =? 65279))%N.

Fixpoint dropWhile (p : N -> bool) (s : jsstring) : jsstring :=
  match s with
  | [] => []
  | c :: r => if p c then dropWhile p r else s
  end.

Fixpoint takeWhile (p : N -> bool) (s : jsstring) : jsstring :=
  match s with
  | [] => []
  | c :: r => if p c then c :: takeWhile p r else []
  end.

Definition trimStart (s : jsstring) : jsstring := dropWhile isWhiteSpace s.
Definition trimEnd (s : jsstring) : jsstring := rev (dropWhile isWhiteSpace (rev s)).
Definition trim (s : jsstring) : jsstring := trimEnd (trimStart s).

(** [s.substring(a, b)]: both indices are clamped to the length and swapped
    when out of order. *)
Definition substring (s : jsstring) (a b : nat) : jsstring :=
  let a' := Nat.min a (length s) in
  let b' := Nat.min b (length s) in
  firstn (Nat.max a' b' - Nat.min a' b') (skipn (Nat.min a' b') s).

(** [s.slice(a)] for a non-negative [a]. *)
Definition slice (s : jsstring) (a : nat) : jsstring := skipn a s.

(** [s.charAt(0)]: the empty string when [s] is empty. *)
Definition charAt0 (s : jsstring) : jsstring := firstn 1 s.

(** [s.split(re)] for a regular expression [re] that is a character class:
    the pieces between the matching characters, in order. *)
Fixpoint split (sep : N -> bool) (s : jsstring) : list jsstring :=
  match s with
  | [] => [[]]
  | c :: r =>
      if sep c then [] :: split sep r
      else match split sep r with
           | h :: t => (c :: h) :: t
           | [] => [[c]]
           end
  end.

Definition startsWith (s p : jsstring) : bool := eqb (firstn (length p) s) p.

Definition endsWith (s p : jsstring) : bool :=
  (length p <=? length s)%nat && eqb (skipn (length s - length p) s) p.

(** [s.replace(pat, by)] with a string pattern: only the first occurrence,
    wherever it is, is replaced. *)
Fixpoint replaceFirst (pat by_ s : jsstring) : jsstring :=
  match s with
  | [] => if isEmpty pat then by_ else []
  | c :: r =>
      if startsWith s pat then by_ ++ skipn (length pat) s
      else c :: replaceFirst pat by_ r
  end.

(** Decimal rendering of an integer, as [String(n)] and template literals
    give it for the integers below 1e21. *)
Definition ofZ (z : Z) : jsstring := js (NilZero.string_of_int (Z.to_int z)).

Definition isDigit (c : N) : bool := ((48 <=? c) && (c <=? 57))%N.
Definition isLower (c : N) : bool := ((97 <=? c) && (c <=? 122))%N.
Definition isUpper (c : N) : bool := ((65 <=? c) && (c <=? 90))%N.

(** The class [\w]. *)
Definition isWord (c : N) : bool := isDigit c || isLower c || isUpper c || (c =? 95)%N.

(** *** parseInt *)

(** The value of a digit in radix 10 or 16. *)
Definition digitValue (radix : Z) (c : N) : option Z :=
  let v :=
    if isDigit c then Some (Z.of_N c - 48)%Z
    else if isLower c then Some (Z.of_N c - 87)%Z
    else if isUpper c then Some (Z.of_N c - 55)%Z
    else None in
  match v with
  | Some d => if (d <? radix)%Z then Some d else None
  | None => None
  end.

(** The longest prefix of digits, read left to right; [None] when there is
    no digit at all. *)
Fixpoint readDigits (radix : Z) (s : jsstring) (acc : option Z) : option Z :=
  match s with
  | [] => acc
  | c :: r =>
      match digitValue radix c with
      | Some d =>
          readDigits radix r
            (Some (match acc with Some a => a * radix + d | None => d end)%Z)
      | None => acc
      end
  end.

(** [parseInt(s)] with no radix argument.  [None] is NaN.  The result is
    the mathematical integer; the rounding of integers beyond 2^53 to a
    double is not represented (it never changes whether the result is
    zero). *)
Definition parseInt (s : jsstring) : option Z :=
  let s := trimStart s in
  let '(sign, s) :=
    match s with
    | 45%N :: r => ((-1)%Z, r)
    | 43%N :: r => (1%Z, r)
    | _ => (1%Z, s)
    end in
  let '(radix, s) :=
    match s with
    | 48%N :: 120%N :: r => (16%Z, r)
    | 48%N :: 88%N :: r => (16%Z, r)
    | _ => (10%Z, s)
    end in
  match readDigits radix s None with
  | Some v => Some (sign * v)%Z
  | None => None
  end.

End JS.

Import JS.

(** ** Built-ins that the repository does not define *)

Record Runtime := {
  (** the k-th reading of the system clock, in milliseconds since the epoch
      ([Date.now()], [new Date()]) *)
  Date_now : nat -> Z;
  (** [Date.prototype.toISOString] of the date with that time value *)
  toISOString : Z -> jsstring;
  (** [String.prototype.toLowerCase] and [toUpperCase] *)
  toLowerCase : jsstring -> jsstring;
  toUpperCase : jsstring -> jsstring;
  (** [new URL(s).hostname]; [None] when the constructor throws *)
  URL_hostname : jsstring -> option jsstring
}.

(** ** Derived fields of the ingestion workflow ([handleSimplePost]) *)

Module Synth.

(** The class [[.!?]] of [postText.split(/[.!?]/)]. *)
Definition isTerminator (c : N) : bool := ((c =? 46) || (c =? 33) || (c =? 63))%N.

(** Lines 1022-1028: the title of the post made from the [i]-th entry
    (0-based), whose trimmed text is [postText]. *)
Definition title (i : nat) (postText : jsstring) : jsstring :=
  let title := trim (substring (hd [] (split isTerminator postText)) 0 50) in
  let title :=
    if (length title =? 50)%nat && negb (endsWith title (js "..."))
    then title ++ js "..." else title in
  if isEmpty title then js "Post " ++ ofZ (Z.of_nat i + 1) else title.

(** Lines 1038-1040. *)
Definition excerpt (postText : jsstring) : jsstring :=
  if (150 <? length postText)%nat
  then trim (substring postText 0 150) ++ js "..."
  else postText.

(** [s.replace(/c+/g, by)] for a character class [c]: every maximal run of
    matching characters becomes one [by]. *)
Fixpoint replaceRuns (p : N -> bool) (by_ : jsstring) (s : jsstring) : jsstring :=
  match s with
  | [] => []
  | c :: r =>
      if p c then
        match r with
        | c' :: _ => if p c' then replaceRuns p by_ r else by_ ++ replaceRuns p by_ r
        | [] => by_
        end
      else c :: replaceRuns p by_ r
  end.

Definition isHyphen (c : N) : bool := (c =? 45)%N.

(** Lines 1031-1035: the slug of a post; [now] is the value of [Date.now()]. *)
Definition slug (rt : Runtime) (title : jsstring) (now : Z) (i : nat) : jsstring :=
  let s := toLowerCase rt title in
  let s := filter (fun c => isWord c || isWhiteSpace c || isHyphen c) s in
  let s := replaceRuns isWhiteSpace (js "-") s in
  let s := replaceRuns isHyphen (js "-") s in
  let s := rev (dropWhile isHyphen (rev (dropWhile isHyphen s))) in
  s ++ js "-" ++ ofZ now ++ js "-" ++ ofZ (Z.of_nat i).

(** Does [/\.[^/.]+$/] match the whole of [s]? *)
Definition isExtension (s : jsstring) : bool :=
  match s with
  | 46%N :: r => negb (isEmpty r) && forallb (fun c => negb ((c =? 47) || (c =? 46))%N) r
  | _ => false
  end.

(** [s.replace(/\.[^/.]+$/, '')]: the leftmost position where the pattern
    matches up to the end of the string is cut off. *)
Fixpoint stripExtension (s : jsstring) : jsstring :=
  if isExtension s then []
  else match s with
       | [] => []
       | c :: r => c :: stripExtension r
       end.

(** Line 948. *)
Definition blogName (hostname : jsstring) : jsstring :=
  stripExtension (replaceFirst (js "www.") (js "") hostname).

(** Line 949: [blogName.toLowerCase().replace(/[^a-z0-9]/g, '-')]. *)
Definition blogSlug (rt : Runtime) (blogName : jsstring) : jsstring :=
  map (fun c => if isLower c || isDigit c then c else 45%N) (toLowerCase rt blogName).

(** Line 955: the stored Name, first letter capitalized. *)
Definition blogTitle (rt : Runtime) (blogName : jsstring) : jsstring :=
  toUpperCase rt (charAt0 blogName) ++ slice blogName 1.

End Synth.

(** ** The rows of [schema.sql] *)

Module Blog.
Record t := {
  BlogId : Z; Name : jsstring; Slug : jsstring;
  Description : option jsstring; Url : option jsstring; CreatedAt : jsstring }.
End Blog.

Module Author.
Record t := {
  AuthorId : Z; BlogId : Z; Name : jsstring; Email : option jsstring;
  ProfileUrl : option jsstring; Bio : option jsstring; CreatedAt : jsstring }.
End Author.

Module Category.
Record t := { CategoryId : Z; BlogId : Z; Name : jsstring; Slug : option jsstring }.
End Category.

Module Post.
Record t := {
  PostId : Z; BlogId : Z; AuthorId : option Z; CategoryId : option Z;
  Title : jsstring; Slug : jsstring; Content : option jsstring;
  Excerpt : option jsstring; PublishedAt : option jsstring; IsPublished : Z;
  Views : Z; ExternalId : option jsstring; CreatedAt : jsstring;
  UpdatedAt : option jsstring }.
End Post.

Module Tag.
Record t := { TagId : Z; Name : jsstring }.
End Tag.

Module Comment.
Record t := {
  CommentId : Z; PostId : Z; AuthorName : option jsstring;
  AuthorEmail : option jsstring; Content : jsstring; CreatedAt : jsstring;
  IsApproved : Z; ExternalId : option jsstring }.
End Comment.

(** The database: one list per table, in rowid order.  [PostTags] holds the
    pairs (PostId, TagId). *)
Record Store := {
  Blogs : list Blog.t;
  Authors : list Author.t;
  Categories : list Category.t;
  Posts : list Post.t;
  Tags : list Tag.t;
  PostTags : list (Z * Z);
  Comments : list Comment.t }.

Definition emptyStore : Store :=
  {| Blogs := []; Authors := []; Categories := []; Posts := []; Tags := [];
     PostTags := []; Comments := [] |}.

(** What a request can change: the database and the number of clock
    readings made so far. *)
Record World := { db : Store; reads : nat }.

(** ** The monad of handlers: state, and exceptions that keep the state

    A statement that throws leaves the writes made before it in place: no
    transaction surrounds the statements of a handler. *)

Inductive outcome (A : Type) : Type :=
| Ok (a : A)
| Thrown.
Arguments Ok {A} a.
Arguments Thrown {A}.

Definition M (A : Type) : Type := World -> outcome A * World.

Definition ret {A} (a : A) : M A := fun w => (Ok a, w).

Definition bind {A B} (m : M A) (k : A -> M B) : M B :=
  fun w => match m w with
           | (Ok a, w') => k a w'
           | (Thrown, w') => (Thrown, w')
           end.

Definition throw {A} : M A := fun w => (Thrown, w).

(** [try { m } catch { return r }] *)
Definition catch {A} (m : M A) (r : A) : M A :=
  fun w => match m w with
           | (Ok a, w') => (Ok a, w')
           | (Thrown, w') => (Ok r, w')
           end.

Declare Scope handler_scope.
Delimit Scope handler_scope with handler.
Notation "x <- m ;; k" := (bind m (fun x => k))
  (at level 100, m at next level, right associativity) : handler_scope.
Notation "m ;;; k" := (bind m (fun _ => k))
  (at level 100, right associativity) : handler_scope.
Open Scope handler_scope.

(** A read-only query. *)
Definition query {A} (f : Store -> A) : M A := fun w => (Ok (f (db w)), w).

(** A statement that writes: [None] is a constraint violation, which D1
    raises as an exception and which leaves the database as it was. *)
Definition exec {A} (f : Store -> option (A * Store)) : M A :=
  fun w => match f (db w) with
           | Some (a, d) => (Ok a, {| db := d; reads := reads w |})
           | None => (Thrown, w)
           end.

(** Reading the clock. *)
Definition readClock (rt : Runtime) : M Z :=
  fun w => (Ok (Date_now rt (reads w)), {| db := db w; reads := S (reads w) |}).

(** Lines 62-64. *)
Definition getCurrentTimestamp (rt : Runtime) : M jsstring :=
  now <- readClock rt ;; ret (toISOString rt now).

(** ** The SQL statements of the handlers, over [Store]

    Each definition is one statement of the source.  A read returns rows; a
    write returns [None] when a constraint of [schema.sql] rejects it
    (foreign keys are enforced: the schema turns them on, and the handlers
    rely on their cascades). *)

Module Sql.

Local Open Scope Z_scope.

(** The rowid given to a new row of a table with an INTEGER PRIMARY KEY:
    one more than the largest in use, 1 in an empty table. *)
Definition nextId (ids : list Z) : Z :=
  match ids with
  | [] => 1
  | x :: r => fold_left Z.max r x + 1
  end.

Definition hasId (ids : list Z) (id : Z) : bool := existsb (Z.eqb id) ids.

(** [col = ?] on a nullable column: never true on NULL. *)
Definition textEq (col : option jsstring) (v : jsstring) : bool :=
  match col with Some s => JS.eqb s v | None => false end.

Definition intEq (col : option Z) (v : Z) : bool :=
  match col with Some a => a =? v | None => false end.

Definition blogIds (s : Store) : list Z := map Blog.BlogId (Blogs s).
Definition authorIds (s : Store) : list Z := map Author.AuthorId (Authors s).
Definition categoryIds (s : Store) : list Z := map Category.CategoryId (Categories s).
Definition postIds (s : Store) : list Z := map Post.PostId (Posts s).
Definition tagIds (s : Store) : list Z := map Tag.TagId (Tags s).
Definition commentIds (s : Store) : list Z := map Comment.CommentId (Comments s).

(** *** ORDER BY, LIMIT, LIKE *)

(** BINARY collation, on code units. *)
Fixpoint textLeb (a b : jsstring) : bool :=
  match a, b with
  | [], _ => true
  | _ :: _, [] => false
  | x :: a', y :: b' => (x <? y)%N || ((x =? y)%N && textLeb a' b')
  end.

Fixpoint insertBy {A} (le : A -> A -> bool) (x : A) (l : list A) : list A :=
  match l with
  | [] => [x]
  | y :: r => if le x y then x :: l else y :: insertBy le x r
  end.

Definition sortBy {A} (le : A -> A -> bool) (l : list A) : list A :=
  fold_right (insertBy le) [] l.

Definition orderByAsc {A} (key : A -> jsstring) (l : list A) : list A :=
  sortBy (fun x y => textLeb (key x) (key y)) l.

Definition orderByDesc {A} (key : A -> jsstring) (l : list A) : list A :=
  sortBy (fun x y => textLeb (key y) (key x)) l.

(** [LIMIT ? OFFSET ?]: a negative limit is no limit, a negative offset is
    zero. *)
Definition limitOffset {A} (limit offset : Z) (l : list A) : list A :=
  let l := skipn (Z.to_nat offset) l in
  if limit <? 0 then l else firstn (Z.to_nat limit) l.

Definition foldCase (c : N) : N := if isUpper c then (c + 32)%N else c.

(** [text LIKE pat]: [%] is any sequence, [_] any one character, ASCII
    letters compare without case.  (One code unit stands for one character.) *)
Fixpoint like (pat text : jsstring) : bool :=
  match pat with
  | [] => isEmpty text
  | 37%N :: p =>
      (fix anySuffix (t : jsstring) : bool :=
         like p t || match t with [] => false | _ :: t' => anySuffix t' end) text
  | 95%N :: p => match text with [] => false | _ :: t => like p t end
  | c :: p =>
      match text with
      | [] => false
      | d :: t => (foldCase c =? foldCase d)%N && like p t
      end
  end.

Definition likeCol (col : option jsstring) (pat : jsstring) : bool :=
  match col with Some s => like pat s | None => false end.

(** *** Blogs *)

(** [SELECT * FROM Blogs WHERE BlogId = ?] *)
Definition selectBlog (id : Z) (s : Store) : option Blog.t :=
  find (fun b => Blog.BlogId b =? id) (Blogs s).

(** [SELECT * FROM Blogs WHERE Url = ?] *)
Definition selectBlogByUrl (url : jsstring) (s : Store) : option Blog.t :=
  find (fun b => textEq (Blog.Url b) url) (Blogs s).

(** [SELECT * FROM Blogs ORDER BY CreatedAt DESC] *)
Definition selectBlogs (s : Store) : list Blog.t := orderByDesc Blog.CreatedAt (Blogs s).

Definition slugTaken (slug : jsstring) (except : option Z) (s : Store) : bool :=
  existsb (fun b => JS.eqb (Blog.Slug b) slug
                    && match except with
                       | Some id => negb (Blog.BlogId b =? id)
                       | None => true
                       end) (Blogs s).

(** [INSERT INTO Blogs (Name, Slug, Description, Url, CreatedAt)]; the
    result is [meta.last_row_id].  Slug is UNIQUE. *)
Definition insertBlog (name slug : jsstring) (description url : option jsstring)
    (createdAt : jsstring) (s : Store) : option (Z * Store) :=
  if slugTaken slug None s then None
  else
    let id := nextId (blogIds s) in
    Some (id,
          {| Blogs := Blogs s ++ [ {| Blog.BlogId := id; Blog.Name := name;
                                      Blog.Slug := slug; Blog.Description := description;
                                      Blog.Url := url; Blog.CreatedAt := createdAt |} ];
             Authors := Authors s; Categories := Categories s; Posts := Posts s;
             Tags := Tags s; PostTags := PostTags s; Comments := Comments s |}).

(** [UPDATE Blogs SET Name, Slug, Description, Url WHERE BlogId = ?] *)
Definition updateBlog (id : Z) (name slug : jsstring) (description url : option jsstring)
    (s : Store) : option (unit * Store) :=
  if hasId (blogIds s) id && slugTaken slug (Some id) s then None
  else
    Some (tt,
          {| Blogs := map (fun b => if Blog.BlogId b =? id
                                    then {| Blog.BlogId := id; Blog.Name := name;
                                            Blog.Slug := slug;
                                            Blog.Description := description;
                                            Blog.Url := url;
                                            Blog.CreatedAt := Blog.CreatedAt b |}
                                    else b) (Blogs s);
             Authors := Authors s; Categories := Categories s; Posts := Posts s;
             Tags := Tags s; PostTags := PostTags s; Comments := Comments s |}).

(** [DELETE FROM Blogs WHERE BlogId = ?]: the blog's authors, categories and
    posts go with it (ON DELETE CASCADE), and with the posts their tag
    links and comments.  A post of another blog that still refers to a
    deleted author or category (no ON DELETE action) makes the statement
    fail. *)
Definition deleteBlog (id : Z) (s : Store) : option (unit * Store) :=
  if negb (hasId (blogIds s) id) then Some (tt, s)
  else
    let goneAuthors := map Author.AuthorId (filter (fun a => Author.BlogId a =? id) (Authors s)) in
    let goneCategories :=
      map Category.CategoryId (filter (fun c => Category.BlogId c =? id) (Categories s)) in
    let gonePosts := map Post.PostId (filter (fun p => Post.BlogId p =? id) (Posts s)) in
    let posts := filter (fun p => negb (Post.BlogId p =? id)) (Posts s) in
    if existsb (fun p => match Post.AuthorId p with
                         | Some a => hasId goneAuthors a | None => false end
                         || match Post.CategoryId p with
                            | Some c => hasId goneCategories c | None => false end) posts
    then None
    else
      Some (tt,
            {| Blogs := filter (fun b => negb (Blog.BlogId b =? id)) (Blogs s);
               Authors := filter (fun a => negb (Author.BlogId a =? id)) (Authors s);
               Categories := filter (fun c => negb (Category.BlogId c =? id)) (Categories s);
               Posts := posts;
               Tags := Tags s;
               PostTags := filter (fun pt => negb (hasId gonePosts (fst pt))) (PostTags s);
               Comments := filter (fun c => negb (hasId gonePosts (Comment.PostId c)))
                                  (Comments s) |}).

Definition withAuthors (s : Store) (l : list Author.t) : Store :=
  {| Blogs := Blogs s; Authors := l; Categories := Categories s; Posts := Posts s;
     Tags := Tags s; PostTags := PostTags s; Comments := Comments s |}.

Definition withCategories (s : Store) (l : list Category.t) : Store :=
  {| Blogs := Blogs s; Authors := Authors s; Categories := l; Posts := Posts s;
     Tags := Tags s; PostTags := PostTags s; Comments := Comments s |}.

Definition withPosts (s : Store) (l : list Post.t) : Store :=
  {| Blogs := Blogs s; Authors := Authors s; Categories := Categories s; Posts := l;
     Tags := Tags s; PostTags := PostTags s; Comments := Comments s |}.

Definition withTags (s : Store) (l : list Tag.t) : Store :=
  {| Blogs := Blogs s; Authors := Authors s; Categories := Categories s; Posts := Posts s;
     Tags := l; PostTags := PostTags s; Comments := Comments s |}.

Definition withPostTags (s : Store) (l : list (Z * Z)) : Store :=
  {| Blogs := Blogs s; Authors := Authors s; Categories := Categories s; Posts := Posts s;
     Tags := Tags s; PostTags := l; Comments := Comments s |}.

Definition withComments (s : Store) (l : list Comment.t) : Store :=
  {| Blogs := Blogs s; Authors := Authors s; Categories := Categories s; Posts := Posts s;
     Tags := Tags s; PostTags := PostTags s; Comments := l |}.

(** [b.Name as BlogName ... LEFT JOIN Blogs b ON x.BlogId = b.BlogId] *)
Definition blogNameOf (id : Z) (s : Store) : option jsstring :=
  option_map Blog.Name (selectBlog id s).

(** *** Authors *)

(** A row of [SELECT a.*, b.Name as BlogName FROM Authors a LEFT JOIN Blogs b]. *)
Definition AuthorView : Type := Author.t * option jsstring.

Definition authorView (s : Store) (a : Author.t) : AuthorView :=
  (a, blogNameOf (Author.BlogId a) s).

Definition selectAuthorRow (id : Z) (s : Store) : option Author.t :=
  find (fun a => Author.AuthorId a =? id) (Authors s).

(** [... WHERE a.AuthorId = ?] *)
Definition selectAuthor (id : Z) (s : Store) : option AuthorView :=
  option_map (authorView s) (selectAuthorRow id s).

(** [... ORDER BY a.CreatedAt DESC] *)
Definition selectAuthors (s : Store) : list AuthorView :=
  map (authorView s) (orderByDesc Author.CreatedAt (Authors s)).

(** [SELECT * FROM Authors WHERE BlogId = ? LIMIT 1] *)
Definition selectAuthorOfBlog (blogId : Z) (s : Store) : option Author.t :=
  find (fun a => Author.BlogId a =? blogId) (Authors s).

(** [INSERT INTO Authors (BlogId, Name, Email, ProfileUrl, Bio, CreatedAt)] *)
Definition insertAuthor (blogId : Z) (name : jsstring) (email profileUrl bio : option jsstring)
    (createdAt : jsstring) (s : Store) : option (Z * Store) :=
  if negb (hasId (blogIds s) blogId) then None
  else
    let id := nextId (authorIds s) in
    Some (id, withAuthors s
                (Authors s ++ [ {| Author.AuthorId := id; Author.BlogId := blogId;
                                   Author.Name := name; Author.Email := email;
                                   Author.ProfileUrl := profileUrl; Author.Bio := bio;
                                   Author.CreatedAt := createdAt |} ])).

(** [UPDATE Authors SET BlogId, Name, Email, ProfileUrl, Bio WHERE AuthorId = ?] *)
Definition updateAuthor (id blogId : Z) (name : jsstring) (email profileUrl bio : option jsstring)
    (s : Store) : option (unit * Store) :=
  if hasId (authorIds s) id && negb (hasId (blogIds s) blogId) then None
  else
    Some (tt, withAuthors s
                (map (fun a => if Author.AuthorId a =? id
                               then {| Author.AuthorId := id; Author.BlogId := blogId;
                                       Author.Name := name; Author.Email := email;
                                       Author.ProfileUrl := profileUrl; Author.Bio := bio;
                                       Author.CreatedAt := Author.CreatedAt a |}
                               else a) (Authors s))).

(** [DELETE FROM Authors WHERE AuthorId = ?]: rejected while a post refers
    to the author ([Posts.AuthorId] has no ON DELETE action). *)
Definition deleteAuthor (id : Z) (s : Store) : option (unit * Store) :=
  if hasId (authorIds s) id && existsb (fun p => intEq (Post.AuthorId p) id) (Posts s)
  then None
  else Some (tt, withAuthors s (filter (fun a => negb (Author.AuthorId a =? id)) (Authors s))).

(** *** Categories *)

Definition CategoryView : Type := Category.t * option jsstring.

Definition categoryView (s : Store) (c : Category.t) : CategoryView :=
  (c, blogNameOf (Category.BlogId c) s).

Definition selectCategoryRow (id : Z) (s : Store) : option Category.t :=
  find (fun c => Category.CategoryId c =? id) (Categories s).

Definition selectCategory (id : Z) (s : Store) : option CategoryView :=
  option_map (categoryView s) (selectCategoryRow id s).

(** [... ORDER BY c.Name] *)
Definition selectCategories (s : Store) : list CategoryView :=
  map (categoryView s) (orderByAsc Category.Name (Categories s)).

(** [SELECT * FROM Categories WHERE BlogId = ? LIMIT 1] *)
Definition selectCategoryOfBlog (blogId : Z) (s : Store) : option Category.t :=
  find (fun c => Category.BlogId c =? blogId) (Categories s).

(** [INSERT INTO Categories (BlogId, Name, Slug)] *)
Definition insertCategory (blogId : Z) (name : jsstring) (slug : option jsstring)
    (s : Store) : option (Z * Store) :=
  if negb (hasId (blogIds s) blogId) then None
  else
    let id := nextId (categoryIds s) in
    Some (id, withCategories s
                (Categories s ++ [ {| Category.CategoryId := id; Category.BlogId := blogId;
                                      Category.Name := name; Category.Slug := slug |} ])).

(** [UPDATE Categories SET BlogId, Name, Slug WHERE CategoryId = ?] *)
Definition updateCategory (id blogId : Z) (name : jsstring) (slug : option jsstring)
    (s : Store) : option (unit * Store) :=
  if hasId (categoryIds s) id && negb (hasId (blogIds s) blogId) then None
  else
    Some (tt, withCategories s
                (map (fun c => if Category.CategoryId c =? id
                               then {| Category.CategoryId := id; Category.BlogId := blogId;
                                       Category.Name := name; Category.Slug := slug |}
                               else c) (Categories s))).

(** [DELETE FROM Categories WHERE CategoryId = ?]: rejected while a post
    refers to the category. *)
Definition deleteCategory (id : Z) (s : Store) : option (unit * Store) :=
  if hasId (categoryIds s) id && existsb (fun p => intEq (Post.CategoryId p) id) (Posts s)
  then None
  else Some (tt, withCategories s
                   (filter (fun c => negb (Category.CategoryId c =? id)) (Categories s))).

(** *** Posts *)

(** A row of the three-way LEFT JOIN of the post reads: the post with
    BlogName, AuthorName and CategoryName. *)
Definition PostView : Type := Post.t * (option jsstring * option jsstring * option jsstring).

Definition postView (s : Store) (p : Post.t) : PostView :=
  (p, (blogNameOf (Post.BlogId p) s,
       match Post.AuthorId p with
       | Some a => option_map Author.Name (selectAuthorRow a s)
       | None => None
       end,
       match Post.CategoryId p with
       | Some c => option_map Category.Name (selectCategoryRow c s)
       | None => None
       end)).

Definition selectPostRow (id : Z) (s : Store) : option Post.t :=
  find (fun p => Post.PostId p =? id) (Posts s).

(** [... WHERE p.PostId = ?] *)
Definition selectPost (id : Z) (s : Store) : option PostView :=
  option_map (postView s) (selectPostRow id s).

(** The conjuncts that [handlePosts] appends to [WHERE 1=1], each with the
    value bound to it.  A bound NaN is NULL. *)
Inductive PostClause : Type :=
| ByBlog (v : option Z)        (* AND p.BlogId = ? *)
| ByAuthor (v : option Z)      (* AND p.AuthorId = ? *)
| ByCategory (v : option Z)    (* AND p.CategoryId = ? *)
| ByPublished (v : Z)          (* AND p.IsPublished = ? *)
| BySearch (pat : jsstring).   (* AND (p.Title LIKE ? OR p.Content LIKE ? OR p.Excerpt LIKE ?) *)

Definition postClause (c : PostClause) (p : Post.t) : bool :=
  match c with
  | ByBlog v => match v with Some b => Post.BlogId p =? b | None => false end
  | ByAuthor v => match v with Some a => intEq (Post.AuthorId p) a | None => false end
  | ByCategory v => match v with Some a => intEq (Post.CategoryId p) a | None => false end
  | ByPublished v => Post.IsPublished p =? v
  | BySearch pat =>
      like pat (Post.Title p) || likeCol (Post.Content p) pat || likeCol (Post.Excerpt p) pat
  end.

(** The rows that satisfy every conjunct, newest first. *)
Definition matchingPosts (clauses : list PostClause) (s : Store) : list Post.t :=
  orderByDesc Post.CreatedAt
    (filter (fun p => forallb (fun c => postClause c p) clauses) (Posts s)).

(** [... WHERE 1=1 <clauses> ORDER BY p.CreatedAt DESC LIMIT ? OFFSET ?];
    a NaN bound to LIMIT or OFFSET is an error. *)
Definition selectPosts (clauses : list PostClause) (limit offset : option Z)
    (s : Store) : option (list PostView) :=
  match limit, offset with
  | Some l, Some o => Some (map (postView s) (limitOffset l o (matchingPosts clauses s)))
  | _, _ => None
  end.

Definition postRefsOk (blogId : Z) (authorId categoryId : option Z) (s : Store) : bool :=
  hasId (blogIds s) blogId
  && match authorId with Some a => hasId (authorIds s) a | None => true end
  && match categoryId with Some c => hasId (categoryIds s) c | None => true end.

(** [INSERT INTO Posts (...)]: [row] carries every column but PostId. *)
Definition insertPost (row : Post.t) (s : Store) : option (Z * Store) :=
  if negb (postRefsOk (Post.BlogId row) (Post.AuthorId row) (Post.CategoryId row) s) then None
  else
    let id := nextId (postIds s) in
    Some (id, withPosts s
                (Posts s ++ [ {| Post.PostId := id; Post.BlogId := Post.BlogId row;
                                 Post.AuthorId := Post.AuthorId row;
                                 Post.CategoryId := Post.CategoryId row;
                                 Post.Title := Post.Title row; Post.Slug := Post.Slug row;
                                 Post.Content := Post.Content row;
                                 Post.Excerpt := Post.Excerpt row;
                                 Post.PublishedAt := Post.PublishedAt row;
                                 Post.IsPublished := Post.IsPublished row;
                                 Post.Views := Post.Views row;
                                 Post.ExternalId := Post.ExternalId row;
                                 Post.CreatedAt := Post.CreatedAt row;
                                 Post.UpdatedAt := Post.UpdatedAt row |} ])).

(** [UPDATE Posts SET <every column but PostId and CreatedAt> WHERE PostId = ?] *)
Definition updatePost (id : Z) (row : Post.t) (s : Store) : option (unit * Store) :=
  if hasId (postIds s) id
     && negb (postRefsOk (Post.BlogId row) (Post.AuthorId row) (Post.CategoryId row) s)
  then None
  else
    Some (tt, withPosts s
                (map (fun p => if Post.PostId p =? id
                               then {| Post.PostId := id; Post.BlogId := Post.BlogId row;
                                       Post.AuthorId := Post.AuthorId row;
                                       Post.CategoryId := Post.CategoryId row;
                                       Post.Title := Post.Title row; Post.Slug := Post.Slug row;
                                       Post.Content := Post.Content row;
                                       Post.Excerpt := Post.Excerpt row;
                                       Post.PublishedAt := Post.PublishedAt row;
                                       Post.IsPublished := Post.IsPublished row;
                                       Post.Views := Post.Views row;
                                       Post.ExternalId := Post.ExternalId row;
                                       Post.CreatedAt := Post.CreatedAt p;
                                       Post.UpdatedAt := Post.UpdatedAt row |}
                               else p) (Posts s))).

(** [DELETE FROM Posts WHERE PostId = ?]: tag links and comments cascade. *)
Definition deletePost (id : Z) (s : Store) : option (unit * Store) :=
  if negb (hasId (postIds s) id) then Some (tt, s)
  else
    Some (tt,
          {| Blogs := Blogs s; Authors := Authors s; Categories := Categories s;
             Posts := filter (fun p => negb (Post.PostId p =? id)) (Posts s);
             Tags := Tags s;
             PostTags := filter (fun pt => negb (fst pt =? id)) (PostTags s);
             Comments := filter (fun c => negb (Comment.PostId c =? id)) (Comments s) |}).

(** *** Tags and tag links *)

(** A tag with its PostCount. *)
Definition TagView : Type := Tag.t * Z.

Definition postCount (s : Store) (t : Tag.t) : Z :=
  Z.of_nat (length (filter (fun pt => snd pt =? Tag.TagId t) (PostTags s))).

Definition selectTagRow (id : Z) (s : Store) : option Tag.t :=
  find (fun t => Tag.TagId t =? id) (Tags s).

(** [SELECT t.*, COUNT(pt.PostId) as PostCount ... WHERE t.TagId = ? GROUP BY t.TagId] *)
Definition selectTag (id : Z) (s : Store) : option TagView :=
  option_map (fun t => (t, postCount s t)) (selectTagRow id s).

(** [SELECT t.*, 0 as PostCount FROM Tags t WHERE t.TagId = ?] *)
Definition selectNewTag (id : Z) (s : Store) : option TagView :=
  option_map (fun t => (t, 0)) (selectTagRow id s).

(** [... GROUP BY t.TagId ORDER BY t.Name] *)
Definition selectTags (s : Store) : list TagView :=
  map (fun t => (t, postCount s t)) (orderByAsc Tag.Name (Tags s)).

(** [SELECT TagId FROM Tags WHERE Name = ?] and the same with
    [AND TagId != ?]. *)
Definition selectTagByName (name : jsstring) (except : option Z) (s : Store) : option Tag.t :=
  find (fun t => JS.eqb (Tag.Name t) name
                 && match except with
                    | Some id => negb (Tag.TagId t =? id)
                    | None => true
                    end) (Tags s).

(** [INSERT INTO Tags (Name)]; Name is UNIQUE. *)
Definition insertTag (name : jsstring) (s : Store) : option (Z * Store) :=
  match selectTagByName name None s with
  | Some _ => None
  | None =>
      let id := nextId (tagIds s) in
      Some (id, withTags s (Tags s ++ [ {| Tag.TagId := id; Tag.Name := name |} ]))
  end.

(** [UPDATE Tags SET Name = ? WHERE TagId = ?] *)
Definition updateTag (id : Z) (name : jsstring) (s : Store) : option (unit * Store) :=
  match hasId (tagIds s) id, selectTagByName name (Some id) s with
  | true, Some _ => None
  | _, _ =>
      Some (tt, withTags s
                  (map (fun t => if Tag.TagId t =? id
                                 then {| Tag.TagId := id; Tag.Name := name |} else t)
                       (Tags s)))
  end.

(** [DELETE FROM Tags WHERE TagId = ?]: tag links cascade. *)
Definition deleteTag (id : Z) (s : Store) : option (unit * Store) :=
  if negb (hasId (tagIds s) id) then Some (tt, s)
  else
    Some (tt,
          {| Blogs := Blogs s; Authors := Authors s; Categories := Categories s;
             Posts := Posts s;
             Tags := filter (fun t => negb (Tag.TagId t =? id)) (Tags s);
             PostTags := filter (fun pt => negb (snd pt =? id)) (PostTags s);
             Comments := Comments s |}).

(** [SELECT t.TagId, t.Name FROM Tags t JOIN PostTags pt ... WHERE pt.PostId = ?] *)
Definition selectTagsOfPost (postId : Z) (s : Store) : list Tag.t :=
  filter (fun t => existsb (fun pt => (fst pt =? postId) && (snd pt =? Tag.TagId t))
                           (PostTags s)) (Tags s).

(** [INSERT INTO PostTags (PostId, TagId)]: the pair is the primary key and
    both columns are foreign keys. *)
Definition insertPostTag (postId tagId : Z) (s : Store) : option (unit * Store) :=
  if existsb (fun pt => (fst pt =? postId) && (snd pt =? tagId)) (PostTags s)
     || negb (hasId (postIds s) postId) || negb (hasId (tagIds s) tagId)
  then None
  else Some (tt, withPostTags s (PostTags s ++ [(postId, tagId)])).

(** [DELETE FROM PostTags WHERE PostId = ?] *)
Definition deletePostTags (postId : Z) (s : Store) : option (unit * Store) :=
  Some (tt, withPostTags s (filter (fun pt => negb (fst pt =? postId)) (PostTags s))).

(** *** Comments *)

(** A comment with PostTitle and PostSlug. *)
Definition CommentView : Type := Comment.t * (option jsstring * option jsstring).

Definition commentView (s : Store) (c : Comment.t) : CommentView :=
  (c, (option_map Post.Title (selectPostRow (Comment.PostId c) s),
       option_map Post.Slug (selectPostRow (Comment.PostId c) s))).

Definition selectCommentRow (id : Z) (s : Store) : option Comment.t :=
  find (fun c => Comment.CommentId c =? id) (Comments s).

Definition selectComment (id : Z) (s : Store) : option CommentView :=
  option_map (commentView s) (selectCommentRow id s).

Inductive CommentClause : Type :=
| ByPost (v : option Z)     (* AND c.PostId = ? *)
| ByApproved (v : Z).       (* AND c.IsApproved = ? *)

Definition commentClause (c : CommentClause) (r : Comment.t) : bool :=
  match c with
  | ByPost v => match v with Some p => Comment.PostId r =? p | None => false end
  | ByApproved v => Comment.IsApproved r =? v
  end.

(** [... WHERE 1=1 <clauses> ORDER BY c.CreatedAt DESC LIMIT ? OFFSET ?] *)
Definition selectComments (clauses : list CommentClause) (limit offset : option Z)
    (s : Store) : option (list CommentView) :=
  match limit, offset with
  | Some l, Some o =>
      Some (map (commentView s)
              (limitOffset l o
                 (orderByDesc Comment.CreatedAt
                    (filter (fun r => forallb (fun c => commentClause c r) clauses)
                            (Comments s)))))
  | _, _ => None
  end.

(** [INSERT INTO Comments (PostId, AuthorName, AuthorEmail, Content,
    CreatedAt, IsApproved, ExternalId)] *)
Definition insertComment (row : Comment.t) (s : Store) : option (Z * Store) :=
  if negb (hasId (postIds s) (Comment.PostId row)) then None
  else
    let id := nextId (commentIds s) in
    Some (id, withComments s
                (Comments s ++ [ {| Comment.CommentId := id;
                                    Comment.PostId := Comment.PostId row;
                                    Comment.AuthorName := Comment.AuthorName row;
                                    Comment.AuthorEmail := Comment.AuthorEmail row;
                                    Comment.Content := Comment.Content row;
                                    Comment.CreatedAt := Comment.CreatedAt row;
                                    Comment.IsApproved := Comment.IsApproved row;
                                    Comment.ExternalId := Comment.ExternalId row |} ])).

(** [UPDATE Comments SET PostId, AuthorName, AuthorEmail, Content,
    IsApproved, ExternalId WHERE CommentId = ?] *)
Definition updateComment (id : Z) (row : Comment.t) (s : Store) : option (unit * Store) :=
  if hasId (commentIds s) id && negb (hasId (postIds s) (Comment.PostId row)) then None
  else
    Some (tt, withComments s
                (map (fun c => if Comment.CommentId c =? id
                               then {| Comment.CommentId := id;
                                       Comment.PostId := Comment.PostId row;
                                       Comment.AuthorName := Comment.AuthorName row;
                                       Comment.AuthorEmail := Comment.AuthorEmail row;
                                       Comment.Content := Comment.Content row;
                                       Comment.CreatedAt := Comment.CreatedAt c;
                                       Comment.IsApproved := Comment.IsApproved row;
                                       Comment.ExternalId := Comment.ExternalId row |}
                               else c) (Comments s))).

(** [DELETE FROM Comments WHERE CommentId = ?] *)
Definition deleteComment (id : Z) (s : Store) : option (unit * Store) :=
  Some (tt, withComments s
              (filter (fun c => negb (Comment.CommentId c =? id)) (Comments s))).

End Sql.

(** ** Requests and responses *)

(** The value of the [postTexts] property of a request body. *)
Inductive PostTexts : Type :=
| Absent                          (* undefined, null or another falsy value *)
| NotAnArray                      (* a truthy value that is not an array *)
| TextArray (l : list jsstring).

(** The value of the [tags] property of a post body.  The handlers tell
    [undefined] from [null]: POST tests the truthiness of the property
    (line 563), PUT tests [tags !== undefined] (line 644). *)
Inductive TagIds : Type :=
| TagsUndefined                   (* the property is absent *)
| TagsNull                        (* null *)
| TagsArray (l : list Z).

(** A parsed JSON body: the properties the handlers read, typed as the
    interfaces of lines 1-59 and the cast of line 929 declare them.  For
    the properties of an [option] type [None] is an absent or null
    property: the handlers look at these through their truthiness only,
    which is the same for both. *)
Module Json.
Record t := {
  Name : option jsstring; Slug : option jsstring; Description : option jsstring;
  Url : option jsstring; BlogId : option Z; Email : option jsstring;
  ProfileUrl : option jsstring; Bio : option jsstring; AuthorId : option Z;
  CategoryId : option Z; Title : option jsstring; Content : option jsstring;
  Excerpt : option jsstring; PublishedAt : option jsstring; IsPublished : option Z;
  Views : option Z; ExternalId : option jsstring; UpdatedAt : option jsstring;
  tags : TagIds; PostId : option Z; AuthorName : option jsstring;
  AuthorEmail : option jsstring; IsApproved : option Z;
  blogUrl : option jsstring; postTexts : PostTexts }.

(** The body [{}]. *)
Definition empty : t :=
  {| Name := None; Slug := None; Description := None; Url := None; BlogId := None;
     Email := None; ProfileUrl := None; Bio := None; AuthorId := None;
     CategoryId := None; Title := None; Content := None; Excerpt := None;
     PublishedAt := None; IsPublished := None; Views := None; ExternalId := None;
     UpdatedAt := None; tags := TagsUndefined; PostId := None; AuthorName := None;
     AuthorEmail := None; IsApproved := None; blogUrl := None; postTexts := Absent |}.
End Json.

Record Request := {
  method : jsstring;
  (** [new URL(request.url).pathname] and [.searchParams] *)
  pathname : jsstring;
  searchParams : list (jsstring * jsstring);
  (** what [request.json()] resolves to; [None] when it rejects *)
  body : option Json.t }.

(** What a response carries as its body. *)
Inductive Payload : Type :=
| Text (s : string)
| Error (message : string)                  (* { error: message } *)
| Message (message : string)                (* { message: message } *)
| Null
| ABlog (b : Blog.t)
| BlogList (l : list Blog.t)
| AnAuthor (a : Sql.AuthorView)
| AuthorList (l : list Sql.AuthorView)
| ACategory (c : Sql.CategoryView)
| CategoryList (l : list Sql.CategoryView)
| APost (p : Sql.PostView)
| PostWithTags (p : Sql.PostView) (tags : list Tag.t)
| PostList (l : list Sql.PostView)
| ATag (t : Sql.TagView)
| TagList (l : list Sql.TagView)
| AComment (c : Sql.CommentView)
| CommentList (l : list Sql.CommentView)
| SimpleResult (blog : Blog.t) (author : Author.t) (category : Category.t)
    (postsCreated : nat) (posts : list (option Sql.PostView)).

Record Response := { status : Z; payload : Payload }.

(** Lines 66-77. *)
Definition createErrorResponse (message : string) (status : Z) : Response :=
  {| status := status; payload := Error message |}.

Definition createSuccessResponse (data : Payload) : Response :=
  {| status := 200; payload := data |}.

(** The JSON of the result of [first()], which is null when no row matches. *)
Definition orNull {A} (f : A -> Payload) (row : option A) : Payload :=
  match row with Some r => f r | None => Null end.

(** ** Truthiness *)

(** [s || null], and the test [s] of a string property: absent and empty
    are both falsy. *)
Definition truthyS (s : option jsstring) : option jsstring :=
  match s with
  | Some [] => None
  | other => other
  end.

(** [n || null], and the test [n] of a number property. *)
Definition truthyZ (n : option Z) : option Z :=
  match n with
  | Some 0%Z => None
  | other => other
  end.

(** [n || 0] *)
Definition orZero (n : option Z) : Z :=
  match n with Some z => z | None => 0%Z end.

(** The [id] of the router: null, NaN or a number. *)
Inductive PathId : Type :=
| IdNull
| IdNaN
| IdNum (z : Z).

(** [if (id)]: the number when it is truthy. *)
Definition truthyId (id : PathId) : option Z :=
  match id with
  | IdNum z => if (z =? 0)%Z then None else Some z
  | _ => None
  end.

Definition isMethod (method : jsstring) (name : string) : bool := JS.eqb method (js name).

(** [await request.json()] *)
Definition json (request : Request) : M Json.t :=
  match body request with
  | Some b => ret b
  | None => throw
  end.

(** [url.searchParams.get(name)]: the first value of that name. *)
Definition searchParam (request : Request) (name : string) : option jsstring :=
  option_map snd (find (fun kv => JS.eqb (fst kv) (js name)) (searchParams request)).

(** ** The handlers *)

Section Handlers.

Variable rt : Runtime.

(** Lines 121-197. *)
Definition handleBlogs (method : jsstring) (id : PathId) (request : Request) : M Response :=
  if isMethod method "GET" then
    match truthyId id with
    | Some id =>
        blog <- query (Sql.selectBlog id) ;;
        match blog with
        | None => ret (createErrorResponse "Blog not found" 404)
        | Some b => ret (createSuccessResponse (ABlog b))
        end
    | None =>
        results <- query Sql.selectBlogs ;;
        ret (createSuccessResponse (BlogList results))
    end
  else if isMethod method "POST" then
    blogData <- json request ;;
    match truthyS (Json.Name blogData), truthyS (Json.Slug blogData) with
    | Some name, Some slug =>
        createdAt <- getCurrentTimestamp rt ;;
        last_row_id <- exec (Sql.insertBlog name slug (truthyS (Json.Description blogData))
                               (truthyS (Json.Url blogData)) createdAt) ;;
        newBlog <- query (Sql.selectBlog last_row_id) ;;
        ret (createSuccessResponse (orNull ABlog newBlog))
    | _, _ => ret (createErrorResponse "Name and Slug are required" 400)
    end
  else if isMethod method "PUT" then
    match truthyId id with
    | None => ret (createErrorResponse "Blog ID is required for update" 400)
    | Some id =>
        updateBlogData <- json request ;;
        match truthyS (Json.Name updateBlogData), truthyS (Json.Slug updateBlogData) with
        | Some name, Some slug =>
            exec (Sql.updateBlog id name slug (truthyS (Json.Description updateBlogData))
                    (truthyS (Json.Url updateBlogData))) ;;;
            updatedBlog <- query (Sql.selectBlog id) ;;
            ret (createSuccessResponse (orNull ABlog updatedBlog))
        | _, _ => ret (createErrorResponse "Name and Slug are required" 400)
        end
    end
  else if isMethod method "DELETE" then
    match truthyId id with
    | None => ret (createErrorResponse "Blog ID is required for deletion" 400)
    | Some id =>
        exec (Sql.deleteBlog id) ;;;
        ret (createSuccessResponse (Message "Blog deleted successfully"))
    end
  else ret (createErrorResponse "Method not allowed" 405).

(** Lines 200-311. *)
Definition handleAuthors (method : jsstring) (id : PathId) (request : Request) : M Response :=
  if isMethod method "GET" then
    match truthyId id with
    | Some id =>
        author <- query (Sql.selectAuthor id) ;;
        match author with
        | None => ret (createErrorResponse "Author not found" 404)
        | Some a => ret (createSuccessResponse (AnAuthor a))
        end
    | None =>
        results <- query Sql.selectAuthors ;;
        ret (createSuccessResponse (AuthorList results))
    end
  else if isMethod method "POST" then
    authorData <- json request ;;
    match truthyS (Json.Name authorData), truthyZ (Json.BlogId authorData) with
    | Some name, Some blogId =>
        blog <- query (Sql.selectBlog blogId) ;;
        match blog with
        | None => ret (createErrorResponse "Blog not found" 404)
        | Some _ =>
            createdAt <- getCurrentTimestamp rt ;;
            last_row_id <- exec (Sql.insertAuthor blogId name
                                   (truthyS (Json.Email authorData))
                                   (truthyS (Json.ProfileUrl authorData))
                                   (truthyS (Json.Bio authorData)) createdAt) ;;
            newAuthor <- query (Sql.selectAuthor last_row_id) ;;
            ret (createSuccessResponse (orNull AnAuthor newAuthor))
        end
    | _, _ => ret (createErrorResponse "Name and BlogId are required" 400)
    end
  else if isMethod method "PUT" then
    match truthyId id with
    | None => ret (createErrorResponse "Author ID is required for update" 400)
    | Some id =>
        updateAuthorData <- json request ;;
        match truthyS (Json.Name updateAuthorData), truthyZ (Json.BlogId updateAuthorData) with
        | Some name, Some blogId =>
            blogExists <- query (Sql.selectBlog blogId) ;;
            match blogExists with
            | None => ret (createErrorResponse "Blog not found" 404)
            | Some _ =>
                exec (Sql.updateAuthor id blogId name
                        (truthyS (Json.Email updateAuthorData))
                        (truthyS (Json.ProfileUrl updateAuthorData))
                        (truthyS (Json.Bio updateAuthorData))) ;;;
                updatedAuthor <- query (Sql.selectAuthor id) ;;
                ret (createSuccessResponse (orNull AnAuthor updatedAuthor))
            end
        | _, _ => ret (createErrorResponse "Name and BlogId are required" 400)
        end
    end
  else if isMethod method "DELETE" then
    match truthyId id with
    | None => ret (createErrorResponse "Author ID is required for deletion" 400)
    | Some id =>
        exec (Sql.deleteAuthor id) ;;;
        ret (createSuccessResponse (Message "Author deleted successfully"))
    end
  else ret (createErrorResponse "Method not allowed" 405).

(** Lines 314-418. *)
Definition handleCategories (method : jsstring) (id : PathId) (request : Request) : M Response :=
  if isMethod method "GET" then
    match truthyId id with
    | Some id =>
        category <- query (Sql.selectCategory id) ;;
        match category with
        | None => ret (createErrorResponse "Category not found" 404)
        | Some c => ret (createSuccessResponse (ACategory c))
        end
    | None =>
        results <- query Sql.selectCategories ;;
        ret (createSuccessResponse (CategoryList results))
    end
  else if isMethod method "POST" then
    categoryData <- json request ;;
    match truthyS (Json.Name categoryData), truthyZ (Json.BlogId categoryData) with
    | Some name, Some blogId =>
        blog <- query (Sql.selectBlog blogId) ;;
        match blog with
        | None => ret (createErrorResponse "Blog not found" 404)
        | Some _ =>
            last_row_id <- exec (Sql.insertCategory blogId name
                                   (truthyS (Json.Slug categoryData))) ;;
            newCategory <- query (Sql.selectCategory last_row_id) ;;
            ret (createSuccessResponse (orNull ACategory newCategory))
        end
    | _, _ => ret (createErrorResponse "Name and BlogId are required" 400)
    end
  else if isMethod method "PUT" then
    match truthyId id with
    | None => ret (createErrorResponse "Category ID is required for update" 400)
    | Some id =>
        updateCategoryData <- json request ;;
        match truthyS (Json.Name updateCategoryData),
              truthyZ (Json.BlogId updateCategoryData) with
        | Some name, Some blogId =>
            blogExists <- query (Sql.selectBlog blogId) ;;
            match blogExists with
            | None => ret (createErrorResponse "Blog not found" 404)
            | Some _ =>
                exec (Sql.updateCategory id blogId name
                        (truthyS (Json.Slug updateCategoryData))) ;;;
                updatedCategory <- query (Sql.selectCategory id) ;;
                ret (createSuccessResponse (orNull ACategory updatedCategory))
            end
        | _, _ => ret (createErrorResponse "Name and BlogId are required" 400)
        end
    end
  else if isMethod method "DELETE" then
    match truthyId id with
    | None => ret (createErrorResponse "Category ID is required for deletion" 400)
    | Some id =>
        exec (Sql.deleteCategory id) ;;;
        ret (createSuccessResponse (Message "Category deleted successfully"))
    end
  else ret (createErrorResponse "Method not allowed" 405).

(** A read that the database can reject. *)
Definition tryQuery {A} (f : Store -> option A) : M A :=
  fun w => match f (db w) with
           | Some a => (Ok a, w)
           | None => (Thrown, w)
           end.

(** [for (const x of l) { await f(x) }] *)
Fixpoint forEach {A} (f : A -> M unit) (l : list A) : M unit :=
  match l with
  | [] => ret tt
  | x :: r => f x ;;; forEach f r
  end.

Definition isSome {A} (o : option A) : bool :=
  match o with Some _ => true | None => false end.

(** Lines 453-499: the conjuncts that the query parameters add. *)
Definition postClauses (request : Request) : list Sql.PostClause :=
  match truthyS (searchParam request "blog") with
  | Some blogId => [Sql.ByBlog (parseInt blogId)] | None => [] end
  ++ match truthyS (searchParam request "author") with
     | Some authorId => [Sql.ByAuthor (parseInt authorId)] | None => [] end
  ++ match truthyS (searchParam request "category") with
     | Some categoryId => [Sql.ByCategory (parseInt categoryId)] | None => [] end
  ++ match truthyS (searchParam request "published") with
     | Some published =>
         [Sql.ByPublished (if JS.eqb published (js "true") then 1 else 0)%Z]
     | None => [] end
  ++ match truthyS (searchParam request "search") with
     | Some search => [Sql.BySearch (js "%" ++ search ++ js "%")] | None => [] end.

(** [parseInt(url.searchParams.get(name) || dflt)] *)
Definition intParam (request : Request) (name dflt : string) : option Z :=
  parseInt (match truthyS (searchParam request name) with
            | Some v => v
            | None => js dflt
            end).

(** The columns that POST and PUT bind from a post body (lines 545-559 and
    627-641); PostId is not among them. *)
Definition postColumns (data : Json.t) (title slug : jsstring) (blogId : Z)
    (publishedAt : option jsstring) (createdAt : jsstring) (updatedAt : option jsstring)
    : Post.t :=
  {| Post.PostId := 0; Post.BlogId := blogId;
     Post.AuthorId := truthyZ (Json.AuthorId data);
     Post.CategoryId := truthyZ (Json.CategoryId data);
     Post.Title := title; Post.Slug := slug;
     Post.Content := truthyS (Json.Content data);
     Post.Excerpt := truthyS (Json.Excerpt data);
     Post.PublishedAt := truthyS publishedAt;
     Post.IsPublished := orZero (Json.IsPublished data);
     Post.Views := orZero (Json.Views data);
     Post.ExternalId := truthyS (Json.ExternalId data);
     Post.CreatedAt := createdAt; Post.UpdatedAt := updatedAt |}.

(** Lines 537-539 and 617-619: a published post without a PublishedAt gets
    the current time. *)
Definition publishedAtOf (data : Json.t) : M (option jsstring) :=
  if isSome (truthyZ (Json.IsPublished data)) && negb (isSome (truthyS (Json.PublishedAt data)))
  then now <- getCurrentTimestamp rt ;; ret (Some now)
  else ret (Json.PublishedAt data).

(** The existence checks on the optional references of a post body; the
    result is the 404 response of the first reference that is missing. *)
Definition checkPostRefs (data : Json.t) (blogId : Z) : M (option Response) :=
  blog <- query (Sql.selectBlog blogId) ;;
  match blog with
  | None => ret (Some (createErrorResponse "Blog not found" 404))
  | Some _ =>
      author <- match truthyZ (Json.AuthorId data) with
                | Some a => query (fun s => isSome (Sql.selectAuthorRow a s))
                | None => ret true
                end ;;
      if negb author then ret (Some (createErrorResponse "Author not found" 404))
      else
        category <- match truthyZ (Json.CategoryId data) with
                    | Some c => query (fun s => isSome (Sql.selectCategoryRow c s))
                    | None => ret true
                    end ;;
        if negb category then ret (Some (createErrorResponse "Category not found" 404))
        else ret None
  end.

(** Lines 421-683. *)
Definition handlePosts (method : jsstring) (id : PathId) (request : Request) : M Response :=
  if isMethod method "GET" then
    match truthyId id with
    | Some id =>
        post <- query (Sql.selectPost id) ;;
        match post with
        | None => ret (createErrorResponse "Post not found" 404)
        | Some p =>
            postTags <- query (Sql.selectTagsOfPost id) ;;
            ret (createSuccessResponse (PostWithTags p postTags))
        end
    | None =>
        results <- tryQuery (Sql.selectPosts (postClauses request)
                               (intParam request "limit" "50")
                               (intParam request "offset" "0")) ;;
        ret (createSuccessResponse (PostList results))
    end
  else if isMethod method "POST" then
    postData <- json request ;;
    match truthyS (Json.Title postData), truthyS (Json.Slug postData),
          truthyZ (Json.BlogId postData) with
    | Some title, Some slug, Some blogId =>
        missing <- checkPostRefs postData blogId ;;
        match missing with
        | Some notFound => ret notFound
        | None =>
            createdAt <- getCurrentTimestamp rt ;;
            publishedAt <- publishedAtOf postData ;;
            newPostId <- exec (Sql.insertPost
                                 (postColumns postData title slug blogId publishedAt
                                    createdAt (truthyS (Json.UpdatedAt postData)))) ;;
            match Json.tags postData with
            | TagsArray tags =>
                forEach (fun tagId => exec (Sql.insertPostTag newPostId tagId)) tags
            | TagsUndefined | TagsNull => ret tt
            end ;;;
            newPost <- query (Sql.selectPost newPostId) ;;
            ret (createSuccessResponse (orNull APost newPost))
        end
    | _, _, _ => ret (createErrorResponse "Title, Slug, and BlogId are required" 400)
    end
  else if isMethod method "PUT" then
    match truthyId id with
    | None => ret (createErrorResponse "Post ID is required for update" 400)
    | Some id =>
        updatePostData <- json request ;;
        match truthyS (Json.Title updatePostData), truthyS (Json.Slug updatePostData),
              truthyZ (Json.BlogId updatePostData) with
        | Some title, Some slug, Some blogId =>
            missing <- checkPostRefs updatePostData blogId ;;
            match missing with
            | Some notFound => ret notFound
            | None =>
                updatedAt <- getCurrentTimestamp rt ;;
                publishedAt <- publishedAtOf updatePostData ;;
                exec (Sql.updatePost id
                        (postColumns updatePostData title slug blogId publishedAt
                           [] (Some updatedAt))) ;;;
                match Json.tags updatePostData with
                | TagsUndefined => ret tt
                | TagsNull =>
                    (* [null !== undefined]: the links go, then [null.length] throws *)
                    exec (Sql.deletePostTags id) ;;; throw
                | TagsArray tags =>
                    exec (Sql.deletePostTags id) ;;;
                    forEach (fun tagId => exec (Sql.insertPostTag id tagId)) tags
                end ;;;
                updatedPost <- query (Sql.selectPost id) ;;
                ret (createSuccessResponse (orNull APost updatedPost))
            end
        | _, _, _ => ret (createErrorResponse "Title, Slug, and BlogId are required" 400)
        end
    end
  else if isMethod method "DELETE" then
    match truthyId id with
    | None => ret (createErrorResponse "Post ID is required for deletion" 400)
    | Some id =>
        exec (Sql.deletePost id) ;;;
        ret (createSuccessResponse (Message "Post deleted successfully"))
    end
  else ret (createErrorResponse "Method not allowed" 405).

(** Lines 686-781. *)
Definition handleTags (method : jsstring) (id : PathId) (request : Request) : M Response :=
  if isMethod method "GET" then
    match truthyId id with
    | Some id =>
        tag <- query (Sql.selectTag id) ;;
        match tag with
        | None => ret (createErrorResponse "Tag not found" 404)
        | Some t => ret (createSuccessResponse (ATag t))
        end
    | None =>
        results <- query Sql.selectTags ;;
        ret (createSuccessResponse (TagList results))
    end
  else if isMethod method "POST" then
    tagData <- json request ;;
    match truthyS (Json.Name tagData) with
    | Some name =>
        existingTag <- query (Sql.selectTagByName name None) ;;
        match existingTag with
        | Some _ => ret (createErrorResponse "Tag with this name already exists" 409)
        | None =>
            last_row_id <- exec (Sql.insertTag name) ;;
            newTag <- query (Sql.selectNewTag last_row_id) ;;
            ret (createSuccessResponse (orNull ATag newTag))
        end
    | None => ret (createErrorResponse "Name is required" 400)
    end
  else if isMethod method "PUT" then
    match truthyId id with
    | None => ret (createErrorResponse "Tag ID is required for update" 400)
    | Some id =>
        updateTagData <- json request ;;
        match truthyS (Json.Name updateTagData) with
        | Some name =>
            existingTagUpdate <- query (Sql.selectTagByName name (Some id)) ;;
            match existingTagUpdate with
            | Some _ => ret (createErrorResponse "Tag with this name already exists" 409)
            | None =>
                exec (Sql.updateTag id name) ;;;
                updatedTag <- query (Sql.selectTag id) ;;
                ret (createSuccessResponse (orNull ATag updatedTag))
            end
        | None => ret (createErrorResponse "Name is required" 400)
        end
    end
  else if isMethod method "DELETE" then
    match truthyId id with
    | None => ret (createErrorResponse "Tag ID is required for deletion" 400)
    | Some id =>
        exec (Sql.deleteTag id) ;;;
        ret (createSuccessResponse (Message "Tag deleted successfully"))
    end
  else ret (createErrorResponse "Method not allowed" 405).

(** Lines 803-825: the conjuncts that the query parameters add. *)
Definition commentClauses (request : Request) : list Sql.CommentClause :=
  match truthyS (searchParam request "post") with
  | Some postId => [Sql.ByPost (parseInt postId)] | None => [] end
  ++ match truthyS (searchParam request "approved") with
     | Some approved =>
         [Sql.ByApproved (if JS.eqb approved (js "true") then 1 else 0)%Z]
     | None => [] end.

(** The columns that POST and PUT bind from a comment body. *)
Definition commentColumns (data : Json.t) (content : jsstring) (postId : Z)
    (createdAt : jsstring) : Comment.t :=
  {| Comment.CommentId := 0; Comment.PostId := postId;
     Comment.AuthorName := truthyS (Json.AuthorName data);
     Comment.AuthorEmail := truthyS (Json.AuthorEmail data);
     Comment.Content := content; Comment.CreatedAt := createdAt;
     Comment.IsApproved := orZero (Json.IsApproved data);
     Comment.ExternalId := truthyS (Json.ExternalId data) |}.

(** Lines 784-920. *)
Definition handleComments (method : jsstring) (id : PathId) (request : Request) : M Response :=
  if isMethod method "GET" then
    match truthyId id with
    | Some id =>
        comment <- query (Sql.selectComment id) ;;
        match comment with
        | None => ret (createErrorResponse "Comment not found" 404)
        | Some c => ret (createSuccessResponse (AComment c))
        end
    | None =>
        results <- tryQuery (Sql.selectComments (commentClauses request)
                               (intParam request "limit" "50")
                               (intParam request "offset" "0")) ;;
        ret (createSuccessResponse (CommentList results))
    end
  else if isMethod method "POST" then
    commentData <- json request ;;
    match truthyS (Json.Content commentData), truthyZ (Json.PostId commentData) with
    | Some content, Some postId =>
        post <- query (Sql.selectPostRow postId) ;;
        match post with
        | None => ret (createErrorResponse "Post not found" 404)
        | Some _ =>
            createdAt <- getCurrentTimestamp rt ;;
            last_row_id <- exec (Sql.insertComment
                                   (commentColumns commentData content postId createdAt)) ;;
            newComment <- query (Sql.selectComment last_row_id) ;;
            ret (createSuccessResponse (orNull AComment newComment))
        end
    | _, _ => ret (createErrorResponse "Content and PostId are required" 400)
    end
  else if isMethod method "PUT" then
    match truthyId id with
    | None => ret (createErrorResponse "Comment ID is required for update" 400)
    | Some id =>
        updateCommentData <- json request ;;
        match truthyS (Json.Content updateCommentData),
              truthyZ (Json.PostId updateCommentData) with
        | Some content, Some postId =>
            postExists <- query (Sql.selectPostRow postId) ;;
            match postExists with
            | None => ret (createErrorResponse "Post not found" 404)
            | Some _ =>
                exec (Sql.updateComment id
                        (commentColumns updateCommentData content postId [])) ;;;
                updatedComment <- query (Sql.selectComment id) ;;
                ret (createSuccessResponse (orNull AComment updatedComment))
            end
        | _, _ => ret (createErrorResponse "Content and PostId are required" 400)
        end
    end
  else if isMethod method "DELETE" then
    match truthyId id with
    | None => ret (createErrorResponse "Comment ID is required for deletion" 400)
    | Some id =>
        exec (Sql.deleteComment id) ;;;
        ret (createSuccessResponse (Message "Comment deleted successfully"))
    end
  else ret (createErrorResponse "Method not allowed" 405).

(** [new URL(s).hostname] *)
Definition hostnameOf (s : jsstring) : M jsstring :=
  match URL_hostname rt s with
  | Some h => ret h
  | None => throw
  end.

(** Lines 1044-1061: the row that the workflow inserts for the [i]-th entry
    (0-based), whose trimmed text is [postText]. *)
Definition simplePostRow (blog : Blog.t) (author : Author.t) (category : Category.t)
    (i : nat) (postText : jsstring) (now : Z) (currentTime : jsstring) : Post.t :=
  let title := Synth.title i postText in
  {| Post.PostId := 0; Post.BlogId := Blog.BlogId blog;
     Post.AuthorId := Some (Author.AuthorId author);
     Post.CategoryId := Some (Category.CategoryId category);
     Post.Title := title; Post.Slug := Synth.slug rt title now i;
     Post.Content := Some postText; Post.Excerpt := Some (Synth.excerpt postText);
     Post.PublishedAt := Some currentTime; Post.IsPublished := 1; Post.Views := 0;
     Post.ExternalId := None; Post.CreatedAt := currentTime;
     Post.UpdatedAt := Some currentTime |}.

(** Lines 1017-1076: the loop over [postTexts], from index [i] on, with the
    posts created so far. *)
Fixpoint createPosts (blog : Blog.t) (author : Author.t) (category : Category.t)
    (postTexts : list jsstring) (i : nat) (createdPosts : list (option Sql.PostView))
    : M (list (option Sql.PostView)) :=
  match postTexts with
  | [] => ret createdPosts
  | entry :: rest =>
      let postText := trim entry in
      if isEmpty postText then createPosts blog author category rest (S i) createdPosts
      else
        now <- readClock rt ;;
        currentTime <- getCurrentTimestamp rt ;;
        last_row_id <- exec (Sql.insertPost
                               (simplePostRow blog author category i postText now
                                  currentTime)) ;;
        newPost <- query (Sql.selectPost last_row_id) ;;
        createPosts blog author category rest (S i) (createdPosts ++ [newPost])
  end.

(** Lines 943-964: find the blog by its Url, or create it. *)
Definition findOrCreateBlog (blogUrl : jsstring) : M (option Blog.t) :=
  blog <- query (Sql.selectBlogByUrl blogUrl) ;;
  match blog with
  | Some b => ret (Some b)
  | None =>
      hostname <- hostnameOf blogUrl ;;
      let blogName := Synth.blogName hostname in
      let blogSlug := Synth.blogSlug rt blogName in
      createdAt <- getCurrentTimestamp rt ;;
      last_row_id <- exec (Sql.insertBlog (Synth.blogTitle rt blogName) blogSlug
                             (Some (js "Auto-created blog for " ++ hostname))
                             (Some blogUrl) createdAt) ;;
      query (Sql.selectBlog last_row_id)
  end.

(** Lines 971-987: find an author of the blog, or create the default one. *)
Definition findOrCreateAuthor (blog : Blog.t) (blogUrl : jsstring) : M (option Author.t) :=
  author <- query (Sql.selectAuthorOfBlog (Blog.BlogId blog)) ;;
  match author with
  | Some a => ret (Some a)
  | None =>
      hostname <- hostnameOf blogUrl ;;
      createdAt <- getCurrentTimestamp rt ;;
      last_row_id <- exec (Sql.insertAuthor (Blog.BlogId blog) (js "Default Author")
                             (Some (js "author@" ++ hostname)) None
                             (Some (js "Auto-created default author")) createdAt) ;;
      query (Sql.selectAuthorRow last_row_id)
  end.

(** Lines 994-1008: find a category of the blog, or create the default one. *)
Definition findOrCreateCategory (blog : Blog.t) : M (option Category.t) :=
  category <- query (Sql.selectCategoryOfBlog (Blog.BlogId blog)) ;;
  match category with
  | Some c => ret (Some c)
  | None =>
      last_row_id <- exec (Sql.insertCategory (Blog.BlogId blog) (js "General")
                             (Some (js "general"))) ;;
      query (Sql.selectCategoryRow last_row_id)
  end.

(** Lines 929-1084: the body of the [try] block. *)
Definition simplePost (request : Request) : M Response :=
  requestData <- json request ;;
  match truthyS (Json.blogUrl requestData), Json.postTexts requestData with
  | Some blogUrl, TextArray postTexts =>
      if (length postTexts =? 0)%nat
      then ret (createErrorResponse "At least one post text is required" 400)
      else
        blog <- findOrCreateBlog blogUrl ;;
        match blog with
        | None => ret (createErrorResponse "Failed to create or find blog" 500)
        | Some blog =>
            author <- findOrCreateAuthor blog blogUrl ;;
            match author with
            | None => ret (createErrorResponse "Failed to create or find author" 500)
            | Some author =>
                category <- findOrCreateCategory blog ;;
                match category with
                | None => ret (createErrorResponse "Failed to create or find category" 500)
                | Some category =>
                    createdPosts <- createPosts blog author category postTexts 0 [] ;;
                    ret (createSuccessResponse
                           (SimpleResult blog author category (length createdPosts)
                              createdPosts))
                end
            end
        end
  | _, _ => ret (createErrorResponse "blogUrl (string) and postTexts (array) are required" 400)
  end.

(** Lines 923-1090. *)
Definition handleSimplePost (method : jsstring) (request : Request) : M Response :=
  if negb (isMethod method "POST")
  then ret (createErrorResponse "Only POST method allowed for simple posts" 405)
  else catch (simplePost request) (createErrorResponse "Failed to create posts" 500).

Definition isSlash (c : N) : bool := (c =? 47)%N.

(** Line 86: [pathname.split('/').filter(Boolean)] *)
Definition pathSegments (request : Request) : list jsstring :=
  filter (fun seg => negb (isEmpty seg)) (split isSlash (pathname request)).

(** Line 93: [pathSegments[2] ? parseInt(pathSegments[2]) : null] *)
Definition pathId (segments : list jsstring) : PathId :=
  match nth_error segments 2 with
  | Some seg =>
      if isEmpty seg then IdNull
      else match parseInt seg with
           | Some z => IdNum z
           | None => IdNaN
           end
  | None => IdNull
  end.

Definition isResource (resource : option jsstring) (name : string) : bool :=
  match resource with
  | Some r => JS.eqb r (js name)
  | None => false
  end.

(** Lines 80-118: the router. *)
Definition handleRequest (request : Request) : M Response :=
  let method := method request in
  let segments := pathSegments request in
  if negb (isResource (nth_error segments 0) "api")
  then ret {| status := 200; payload := Text "Blog API Server - Use /api/* endpoints" |}
  else
    let resource := nth_error segments 1 in
    let id := pathId segments in
    catch
      (if isResource resource "blogs" then handleBlogs method id request
       else if isResource resource "authors" then handleAuthors method id request
       else if isResource resource "categories" then handleCategories method id request
       else if isResource resource "posts" then handlePosts method id request
       else if isResource resource "tags" then handleTags method id request
       else if isResource resource "comments" then handleComments method id request
       else if isResource resource "simple" then handleSimplePost method request
       else ret (createErrorResponse "Resource not found" 404))
      (createErrorResponse "Internal server error" 500).

End Handlers.

(** ** A runtime to evaluate the handlers with

    ASCII case conversion, the ISO rendering of a time value, a clock that
    advances by one millisecond per reading, and a URL reader for URLs of
    the plain form [scheme://host[:port][/...]]. *)

Module Sample.

Local Open Scope Z_scope.

Definition pad (width : nat) (z : Z) : jsstring :=
  let d := ofZ z in repeat 48%N (width - length d) ++ d.

(** The proleptic Gregorian date of a day number (days since the epoch). *)
Definition civil (days : Z) : Z * Z * Z :=
  let z := days + 719468 in
  let era := z / 146097 in
  let doe := z - era * 146097 in
  let yoe := (doe - doe / 1460 + doe / 36524 - doe / 146096) / 365 in
  let doy := doe - (365 * yoe + yoe / 4 - yoe / 100) in
  let mp := (5 * doy + 2) / 153 in
  let d := doy - (153 * mp + 2) / 5 + 1 in
  let m := if mp <? 10 then mp + 3 else mp - 9 in
  let y := yoe + era * 400 + (if m <=? 2 then 1 else 0) in
  (y, m, d).

Definition isoString (t : Z) : jsstring :=
  let '(y, m, d) := civil (t / 86400000) in
  let ms := t mod 86400000 in
  (if (0 <=? y) && (y <=? 9999) then pad 4 y
   else (if y <? 0 then js "-" else js "+") ++ pad 6 (Z.abs y))
  ++ js "-" ++ pad 2 m ++ js "-" ++ pad 2 d ++ js "T"
  ++ pad 2 (ms / 3600000) ++ js ":" ++ pad 2 (ms / 60000 mod 60) ++ js ":"
  ++ pad 2 (ms / 1000 mod 60) ++ js "." ++ pad 3 (ms mod 1000) ++ js "Z".

Definition lower (s : jsstring) : jsstring :=
  map (fun c => if isUpper c then (c + 32)%N else c) s.

Definition upper (s : jsstring) : jsstring :=
  map (fun c => if isLower c then (c - 32)%N else c) s.

Definition hostname (url : jsstring) : option jsstring :=
  match dropWhile (fun c => negb (c =? 58)%N) url with
  | 58%N :: 47%N :: 47%N :: rest =>
      let host :=
        takeWhile (fun c => negb ((c =? 47) || (c =? 63) || (c =? 35) || (c =? 58))%N) rest in
      if isEmpty host then None else Some (lower host)
  | _ => None
  end.

Definition runtime : Runtime :=
  {| Date_now := fun k => 1700000000000 + Z.of_nat k;
     toISOString := isoString;
     toLowerCase := lower;
     toUpperCase := upper;
     URL_hostname := hostname |}.

Definition world (s : Store) : World := {| db := s; reads := 0 |}.

End Sample.

(** ** Requests of the shapes the claims speak of *)

Definition withPath (request : Request) (path : jsstring) : Request :=
  {| method := method request; pathname := path;
     searchParams := searchParams request; body := body request |}.

(** The request without the query parameter [name]. *)
Definition withoutParam (request : Request) (name : string) : Request :=
  {| method := method request; pathname := pathname request;
     searchParams := filter (fun kv => negb (JS.eqb (fst kv) (js name))) (searchParams request);
     body := body request |}.

Definition withBlogUrl (b : Json.t) (url : option jsstring) (texts : PostTexts) : Json.t :=
  {| Json.Name := Json.Name b; Json.Slug := Json.Slug b;
     Json.Description := Json.Description b; Json.Url := Json.Url b;
     Json.BlogId := Json.BlogId b; Json.Email := Json.Email b;
     Json.ProfileUrl := Json.ProfileUrl b; Json.Bio := Json.Bio b;
     Json.AuthorId := Json.AuthorId b; Json.CategoryId := Json.CategoryId b;
     Json.Title := Json.Title b; Json.Content := Json.Content b;
     Json.Excerpt := Json.Excerpt b; Json.PublishedAt := Json.PublishedAt b;
     Json.IsPublished := Json.IsPublished b; Json.Views := Json.Views b;
     Json.ExternalId := Json.ExternalId b; Json.UpdatedAt := Json.UpdatedAt b;
     Json.tags := Json.tags b; Json.PostId := Json.PostId b;
     Json.AuthorName := Json.AuthorName b; Json.AuthorEmail := Json.AuthorEmail b;
     Json.IsApproved := Json.IsApproved b; Json.blogUrl := url; Json.postTexts := texts |}.

(** [POST /api/simple] with the body [{ blogUrl, postTexts }]. *)
Definition simpleRequest (blogUrl : jsstring) (postTexts : list jsstring) : Request :=
  {| method := js "POST"; pathname := js "/api/simple"; searchParams := [];
     body := Some (withBlogUrl Json.empty (Some blogUrl) (TextArray postTexts)) |}.

(** ** The claims of the specification, in its own words

    Second definitions, written from the sentences of the specification, to
    be compared with the ones above that are written from the code. *)

Module Claimed.

(** "the text of the trimmed entry before its first '.', '!' or '?'" *)
Definition beforeTerminator (text : jsstring) : jsstring :=
  takeWhile (fun c => negb (Synth.isTerminator c)) text.

(** "truncated to 50 characters, with "..." appended exactly when the
    truncated result is exactly 50 characters long and does not already end
    in "..."; and when the computed title is empty, "Post {1-based index}"" *)
Definition title (i : nat) (entry : jsstring) : jsstring :=
  let cut := firstn 50 (beforeTerminator (trim entry)) in
  let computed :=
    if (length cut =? 50)%nat && negb (endsWith cut (js "..."))
    then cut ++ js "..." else cut in
  if isEmpty computed then js "Post " ++ ofZ (Z.of_nat i + 1) else computed.

(** "exactly the first 150 characters of the trimmed text followed by "..."
    [when it exceeds 150 characters, else] the full trimmed text" *)
Definition excerpt (entry : jsstring) : jsstring :=
  let text := trim entry in
  if (150 <? length text)%nat then firstn 150 text ++ js "..." else text.

(** "hostname with leading "www." stripped" *)
Definition stripLeadingWww (hostname : jsstring) : jsstring :=
  if startsWith hostname (js "www.") then skipn 4 hostname else hostname.

(** "the name candidate (hostname with leading "www." and final
    dot-extension segment stripped)" *)
Definition nameCandidate (hostname : jsstring) : jsstring :=
  Synth.stripExtension (stripLeadingWww hostname).

Definition isAlnum (c : N) : bool := isLower c || isDigit c.

(** "lower-cased with every maximal run of consecutive non-alphanumeric
    characters replaced by a single hyphen" *)
Definition slug (rt : Runtime) (hostname : jsstring) : jsstring :=
  Synth.replaceRuns (fun c => negb (isAlnum c)) (js "-")
    (toLowerCase rt (nameCandidate hostname)).

End Claimed.

(** The first "www." of the hostname, if there is one, is at its start. *)
Fixpoint contains (pat s : jsstring) : bool :=
  startsWith s pat || match s with [] => false | _ :: r => contains pat r end.

Definition wwwOnlyLeading (hostname : jsstring) : bool :=
  startsWith hostname (js "www.") || negb (contains (js "www.") hostname).

(** ** The six resources, for statements that range over them *)

Inductive Resource : Type :=
| RBlogs | RAuthors | RCategories | RPosts | RTags | RComments.

Definition resourceName (r : Resource) : string :=
  match r with
  | RBlogs => "blogs" | RAuthors => "authors" | RCategories => "categories"
  | RPosts => "posts" | RTags => "tags" | RComments => "comments"
  end.

(** The path [/api/{resource}/{seg}]. *)
Definition resourcePath (resource seg : jsstring) : jsstring :=
  js "/api/" ++ resource ++ js "/" ++ seg.

(** A string that can be one path segment. *)
Definition isSegment (seg : jsstring) : bool :=
  negb (isEmpty seg) && forallb (fun c => negb (isSlash c)) seg.

(** Is there a row with this primary key? *)
Definition rowExists (r : Resource) (id : Z) (s : Store) : bool :=
  Sql.hasId
    match r with
    | RBlogs => Sql.blogIds s | RAuthors => Sql.authorIds s
    | RCategories => Sql.categoryIds s | RPosts => Sql.postIds s
    | RTags => Sql.tagIds s | RComments => Sql.commentIds s
    end id.

(** The DELETE statement of the resource's handler. *)
Definition deleteStatement (r : Resource) (id : Z) : Store -> option (unit * Store) :=
  match r with
  | RBlogs => Sql.deleteBlog id | RAuthors => Sql.deleteAuthor id
  | RCategories => Sql.deleteCategory id | RPosts => Sql.deletePost id
  | RTags => Sql.deleteTag id | RComments => Sql.deleteComment id
  end.

Definition deletedMessage (r : Resource) : string :=
  match r with
  | RBlogs => "Blog deleted successfully" | RAuthors => "Author deleted successfully"
  | RCategories => "Category deleted successfully" | RPosts => "Post deleted successfully"
  | RTags => "Tag deleted successfully" | RComments => "Comment deleted successfully"
  end.

(** The body passes the checks that the PUT handler of the resource makes
    before it writes: required properties are truthy and the rows they
    refer to exist; for a tag, no other tag has the name; for a post, no
    [tags] property is given. *)
Definition putAccepted (r : Resource) (id : Z) (data : Json.t) (s : Store) : bool :=
  match r with
  | RBlogs => isSome (truthyS (Json.Name data)) && isSome (truthyS (Json.Slug data))
  | RAuthors | RCategories =>
      isSome (truthyS (Json.Name data))
      && match truthyZ (Json.BlogId data) with
         | Some b => Sql.hasId (Sql.blogIds s) b
         | None => false
         end
  | RPosts =>
      isSome (truthyS (Json.Title data)) && isSome (truthyS (Json.Slug data))
      && match truthyZ (Json.BlogId data) with
         | Some b =>
             Sql.postRefsOk b (truthyZ (Json.AuthorId data)) (truthyZ (Json.CategoryId data)) s
         | None => false
         end
      && match Json.tags data with TagsUndefined => true | _ => false end
  | RTags =>
      match truthyS (Json.Name data) with
      | Some name => negb (isSome (Sql.selectTagByName name (Some id) s))
      | None => false
      end
  | RComments =>
      isSome (truthyS (Json.Content data))
      && match truthyZ (Json.PostId data) with
         | Some p => Sql.hasId (Sql.postIds s) p
         | None => false
         end
  end.

(** The handler that the router calls for the resource. *)
Definition handlerOf (rt : Runtime) (r : Resource) : jsstring -> PathId -> Request -> M Response :=
  match r with
  | RBlogs => handleBlogs rt | RAuthors => handleAuthors rt
  | RCategories => handleCategories | RPosts => handlePosts rt
  | RTags => handleTags | RComments => handleComments rt
  end.

(** What a GET of the whole collection answers with: the listing of the
    resource, or nothing when the listing query is rejected. *)
Definition collectionOf (r : Resource) (request : Request) (s : Store) : option Payload :=
  match r with
  | RBlogs => Some (BlogList (Sql.selectBlogs s))
  | RAuthors => Some (AuthorList (Sql.selectAuthors s))
  | RCategories => Some (CategoryList (Sql.selectCategories s))
  | RPosts =>
      option_map PostList
        (Sql.selectPosts (postClauses request) (intParam request "limit" "50")
           (intParam request "offset" "0") s)
  | RTags => Some (TagList (Sql.selectTags s))
  | RComments =>
      option_map CommentList
        (Sql.selectComments (commentClauses request) (intParam request "limit" "50")
           (intParam request "offset" "0") s)
  end.

(** Does the WHERE clause that [GET /api/posts] builds select the row? *)
Definition selects (request : Request) (p : Post.t) : bool :=
  forallb (fun c => Sql.postClause c p) (postClauses request).

(** The entries of [postTexts] that are not blank. *)
Definition nonBlank (postTexts : list jsstring) : list jsstring :=
  filter (fun entry => negb (isEmpty (trim entry))) postTexts.



(** A POST /api/simple whose body has this blogUrl and this postTexts array
    (and any other properties). *)
Definition isSimpleRequest (request : Request) (blogUrl : jsstring)
    (postTexts : list jsstring) : Prop :=
  method request = js "POST" /\ pathname request = js "/api/simple"
  /\ exists data, body request = Some data /\ Json.blogUrl data = Some blogUrl
                  /\ Json.postTexts data = TextArray postTexts.

(** The lookups of the workflow all succeed: the blog of that Url, an
    author of the blog and a category of the blog are there. *)
Definition resolved (blogUrl : jsstring) (blog : Blog.t) (author : Author.t)
    (category : Category.t) (s : Store) : Prop :=
  Sql.selectBlogByUrl blogUrl s = Some blog
  /\ Sql.selectAuthorOfBlog (Blog.BlogId blog) s = Some author
  /\ Sql.selectCategoryOfBlog (Blog.BlogId blog) s = Some category.

(** No white space at the start. *)
Definition noLeadingSpace (s : jsstring) : Prop :=
  match s with
  | [] => True
  | c :: _ => isWhiteSpace c = false
  end.

(** *** Invariants

    [keeps I m Q]: from a database that satisfies [I], the computation [m]
    ends (normally or by an exception) in a database that satisfies [I],
    and a normal result satisfies [Q]. *)

Definition keeps (I : Store -> Prop) {A} (m : M A) (Q : A -> Prop) : Prop :=
  forall w, I (db w) ->
    I (db (snd (m w))) /\ match fst (m w) with Ok a => Q a | Thrown => True end.

Definition anything {A} : A -> Prop := fun _ => True.

Definition publishedHasDate (s : Store) : Prop :=
  forall p, In p (Posts s) -> Post.IsPublished p = 1%Z -> Post.PublishedAt p <> None.

(** A statement that leaves the Posts table alone or only removes rows. *)
Definition postsOnlyShrink {A} (f : Store -> option (A * Store)) : Prop :=
  forall s a s', f s = Some (a, s') -> incl (Posts s') (Posts s).

(** The worlds that requests lead to from the empty database. *)
Inductive reachable (rt : Runtime) : World -> Prop :=
| reach_start (n : nat) : reachable rt {| db := emptyStore; reads := n |}
| reach_step (w : World) (request : Request) :
    reachable rt w -> reachable rt (snd (handleRequest rt request w)).

(** The database after one ingestion into the empty one: a blog, its
    default author and category, and one post by that author. *)
Definition afterIngestion : World :=
  snd (handleRequest Sample.runtime
         (simpleRequest (js "https://myblog.com") [js "Hello world. More text here."])
         (Sample.world emptyStore)).

(** The body of a blog: [{ Name, Slug }]. *)
Definition blogBody (name slug : jsstring) : Json.t :=
  {| Json.Name := Some name; Json.Slug := Some slug; Json.Description := None;
     Json.Url := None; Json.BlogId := None; Json.Email := None; Json.ProfileUrl := None;
     Json.Bio := None; Json.AuthorId := None; Json.CategoryId := None; Json.Title := None;
     Json.Content := None; Json.Excerpt := None; Json.PublishedAt := None;
     Json.IsPublished := None; Json.Views := None; Json.ExternalId := None;
     Json.UpdatedAt := None; Json.tags := TagsUndefined; Json.PostId := None;
     Json.AuthorName := None; Json.AuthorEmail := None; Json.IsApproved := None;
     Json.blogUrl := None; Json.postTexts := Absent |}.

(** A request with no query string. *)
Definition plainRequest (method path : string) (body : option Json.t) : Request :=
  {| method := js method; pathname := js path; searchParams := []; body := body |}.

(** The response of the ingestion that [afterIngestion] is the result of. *)
Definition ingestionResponse : Response :=
  match fst (handleRequest Sample.runtime
               (simpleRequest (js "https://myblog.com") [js "Hello world. More text here."])
               (Sample.world emptyStore)) with
  | Ok response => response
  | Thrown => createErrorResponse "" 0
  end.

(** ** Character classes of the synthesized slugs *)

Definition isDigitOrMinus (c : N) : bool := isDigit c || (c =? 45)%N.

(** The characters of a post slug: letters, digits, underscore, hyphen. *)
Definition isSlugChar (c : N) : bool := isWord c || Synth.isHyphen c.

(** ** What a computation changes and what it answers *)

(** A client error: a status from 400 to 499. *)
Definition is4xx (status : Z) : bool := ((400 <=? status) && (status <? 500))%Z.

(** The statuses the API answers with. *)
Definition knownStatus (status : Z) : bool :=
  existsb (Z.eqb status) [200; 400; 404; 405; 409; 500]%Z.

(** The path of a resource: /api/{resource} or /api/{resource}/{seg}. *)
Definition pathOf (r : Resource) (seg : option jsstring) : jsstring :=
  match seg with
  | Some s => resourcePath (js (resourceName r)) s
  | None => js "/api/" ++ js (resourceName r)
  end.

(** The [id] that the router passes for that path. *)
Definition idOf (seg : option jsstring) : PathId :=
  match seg with
  | Some s => match parseInt s with Some z => IdNum z | None => IdNaN end
  | None => IdNull
  end.

Definition segmentOk (seg : option jsstring) : bool :=
  match seg with Some s => isSegment s | None => true end.

(** A computation that never changes the world. *)
Definition quiet {A} (m : M A) : Prop := forall w, snd (m w) = w.

(** A normal result of the computation satisfies [P]. *)
Definition results {A} (P : A -> Prop) (m : M A) : Prop :=
  forall w, match fst (m w) with Ok a => P a | Thrown => True end.

(** The computation has changed nothing when it answers with a client
    error. *)
Definition honest (m : M Response) : Prop :=
  forall w, snd (m w) = w
            \/ match fst (m w) with
               | Ok r => is4xx (status r) = false
               | Thrown => True
               end.

Definition statusKnown (r : Response) : Prop := knownStatus (status r) = true.

(** ** Methods and messages *)

(** One of the four methods that the resource handlers serve. *)
Definition isVerb (method : jsstring) : bool :=
  isMethod method "GET" || isMethod method "POST" || isMethod method "PUT"
  || isMethod method "DELETE".

(** The name of a resource in the messages of its handler. *)
Definition singular (r : Resource) : string :=
  match r with
  | RBlogs => "Blog" | RAuthors => "Author" | RCategories => "Category"
  | RPosts => "Post" | RTags => "Tag" | RComments => "Comment"
  end.

(** ** What a request does to the tables *)

(** The computation takes the database from [s] to some [s'] with
    [R s s'], however it ends. *)
Definition moves (R : Store -> Store -> Prop) {A} (m : M A) : Prop :=
  forall w, R (db w) (db (snd (m w))).

(** [l'] is [l] with rows added at its end. *)
Definition extends {A} (l l' : list A) : Prop := exists added, l' = l ++ added.

(** Every table has its old rows, unchanged and in place, and possibly new
    rows after them. *)
Definition appended (s s' : Store) : Prop :=
  extends (Blogs s) (Blogs s') /\ extends (Authors s) (Authors s')
  /\ extends (Categories s) (Categories s') /\ extends (Posts s) (Posts s')
  /\ extends (Tags s) (Tags s') /\ extends (PostTags s) (PostTags s')
  /\ extends (Comments s) (Comments s').

(** [l'] is [l] with some rows taken out. *)
Definition thinned {A} (l l' : list A) : Prop := exists keep, l' = filter keep l.

(** Every table has only rows that it had, unchanged and in their order. *)
Definition removed (s s' : Store) : Prop :=
  thinned (Blogs s) (Blogs s') /\ thinned (Authors s) (Authors s')
  /\ thinned (Categories s) (Categories s') /\ thinned (Posts s) (Posts s')
  /\ thinned (Tags s) (Tags s') /\ thinned (PostTags s) (PostTags s')
  /\ thinned (Comments s) (Comments s').

(** The six tables of rows have the same primary keys in the same order,
    and each row its CreatedAt. *)
Definition sameRows (s s' : Store) : Prop :=
  map (fun b => (Blog.BlogId b, Blog.CreatedAt b)) (Blogs s')
  = map (fun b => (Blog.BlogId b, Blog.CreatedAt b)) (Blogs s)
  /\ map (fun a => (Author.AuthorId a, Author.CreatedAt a)) (Authors s')
     = map (fun a => (Author.AuthorId a, Author.CreatedAt a)) (Authors s)
  /\ map Category.CategoryId (Categories s') = map Category.CategoryId (Categories s)
  /\ map (fun p => (Post.PostId p, Post.CreatedAt p)) (Posts s')
     = map (fun p => (Post.PostId p, Post.CreatedAt p)) (Posts s)
  /\ map Tag.TagId (Tags s') = map Tag.TagId (Tags s)
  /\ map (fun c => (Comment.CommentId c, Comment.CreatedAt c)) (Comments s')
     = map (fun c => (Comment.CommentId c, Comment.CreatedAt c)) (Comments s).

(** ** The integrity of the database *)

(** The computation leaves a database that satisfies [I] when it starts
    from one. *)
Definition preserves (I : Store -> Prop) (s s' : Store) : Prop := I s -> I s'.

(** Every foreign key of [schema.sql] refers to a row: the BlogId of an
    author, a category and a post, the AuthorId and CategoryId of a post
    when they are not NULL, both columns of a tag link, and the PostId of
    a comment. *)
Definition referencesOk (s : Store) : bool :=
  forallb (fun a => Sql.hasId (Sql.blogIds s) (Author.BlogId a)) (Authors s)
  && forallb (fun c => Sql.hasId (Sql.blogIds s) (Category.BlogId c)) (Categories s)
  && forallb (fun p => Sql.postRefsOk (Post.BlogId p) (Post.AuthorId p) (Post.CategoryId p) s)
             (Posts s)
  && forallb (fun pt => Sql.hasId (Sql.postIds s) (fst pt) && Sql.hasId (Sql.tagIds s) (snd pt))
             (PostTags s)
  && forallb (fun c => Sql.hasId (Sql.postIds s) (Comment.PostId c)) (Comments s).

(** The same, row by row. *)
Record RefsValid (s : Store) : Prop := {
  author_blog : forall a, In a (Authors s) -> In (Author.BlogId a) (Sql.blogIds s);
  category_blog : forall c, In c (Categories s) -> In (Category.BlogId c) (Sql.blogIds s);
  post_blog : forall p, In p (Posts s) -> In (Post.BlogId p) (Sql.blogIds s);
  post_author : forall p a, In p (Posts s) -> Post.AuthorId p = Some a
                            -> In a (Sql.authorIds s);
  post_category : forall p c, In p (Posts s) -> Post.CategoryId p = Some c
                              -> In c (Sql.categoryIds s);
  link_post : forall pt, In pt (PostTags s) -> In (fst pt) (Sql.postIds s);
  link_tag : forall pt, In pt (PostTags s) -> In (snd pt) (Sql.tagIds s);
  comment_post : forall c, In c (Comments s) -> In (Comment.PostId c) (Sql.postIds s) }.
(** No value occurs twice in the list. *)
Fixpoint distinct {A} (eqb : A -> A -> bool) (l : list A) : bool :=
  match l with
  | [] => true
  | x :: r => negb (existsb (eqb x) r) && distinct eqb r
  end.

Definition linkEqb (a b : Z * Z) : bool := (fst a =? fst b)%Z && (snd a =? snd b)%Z.

(** The keys of [schema.sql] are keys: no two rows of a table share the
    primary key, no two blogs a Slug, no two tags a Name, and no tag link
    is there twice. *)
Definition keysOk (s : Store) : bool :=
  distinct Z.eqb (Sql.blogIds s) && distinct Z.eqb (Sql.authorIds s)
  && distinct Z.eqb (Sql.categoryIds s) && distinct Z.eqb (Sql.postIds s)
  && distinct Z.eqb (Sql.tagIds s) && distinct Z.eqb (Sql.commentIds s)
  && distinct JS.eqb (map Blog.Slug (Blogs s)) && distinct JS.eqb (map Tag.Name (Tags s))
  && distinct linkEqb (PostTags s).

(** The same, with [NoDup]. *)
Record KeysUnique (s : Store) : Prop := {
  blog_key : NoDup (Sql.blogIds s);
  author_key : NoDup (Sql.authorIds s);
  category_key : NoDup (Sql.categoryIds s);
  post_key : NoDup (Sql.postIds s);
  tag_key : NoDup (Sql.tagIds s);
  comment_key : NoDup (Sql.commentIds s);
  blog_slug : NoDup (map Blog.Slug (Blogs s));
  tag_name : NoDup (map Tag.Name (Tags s));
  link_key : NoDup (PostTags s) }.

(** ** Tags *)

(** Is there a tag of that name, other than the tag [except]? *)
Definition nameTaken (name : jsstring) (except : option Z) (s : Store) : bool :=
  existsb (fun t => JS.eqb (Tag.Name t) name
                    && match except with
                       | Some id => negb (Tag.TagId t =? id)%Z
                       | None => true
                       end) (Tags s).

(** The tag [id] under a new name. *)
Definition renamed (id : Z) (name : jsstring) : Tag.t := {| Tag.TagId := id; Tag.Name := name |}.
(** The body of a post: [{ Title, Slug, BlogId, tags }]. *)
Definition postBody (title slug : jsstring) (blogId : Z) (tags : TagIds) : Json.t :=
  {| Json.Name := None; Json.Slug := Some slug; Json.Description := None;
     Json.Url := None; Json.BlogId := Some blogId; Json.Email := None;
     Json.ProfileUrl := None; Json.Bio := None; Json.AuthorId := None;
     Json.CategoryId := None; Json.Title := Some title; Json.Content := None;
     Json.Excerpt := None; Json.PublishedAt := None; Json.IsPublished := None;
     Json.Views := None; Json.ExternalId := None; Json.UpdatedAt := None;
     Json.tags := tags; Json.PostId := None; Json.AuthorName := None;
     Json.AuthorEmail := None; Json.IsApproved := None; Json.blogUrl := None;
     Json.postTexts := Absent |}.

(** The database after one ingestion and the creation of the tag "rocq". *)
Definition afterTag : World :=
  snd (handleRequest Sample.runtime
         (plainRequest "POST" "/api/tags" (Some (blogBody (js "rocq") []))) afterIngestion).

(** ** The rows of an ingestion *)

(** What the ingestion stores for a post besides its texts: the post is in
    the blog, by the author and in the category of the run, published at
    its creation time, and not yet viewed. *)
Definition ingestedRow (blog : Blog.t) (author : Author.t) (category : Category.t)
    (p : Post.t) : Prop :=
  Post.BlogId p = Blog.BlogId blog
  /\ Post.AuthorId p = Some (Author.AuthorId author)
  /\ Post.CategoryId p = Some (Category.CategoryId category)
  /\ Post.IsPublished p = 1%Z /\ Post.Views p = 0%Z
  /\ Post.PublishedAt p = Some (Post.CreatedAt p)
  /\ Post.UpdatedAt p = Some (Post.CreatedAt p).

(** The blog that the ingestion creates for a URL with this hostname. *)
Definition autoBlog (rt : Runtime) (blogUrl hostname : jsstring) (id : Z) (createdAt : jsstring)
    : Blog.t :=
  {| Blog.BlogId := id; Blog.Name := Synth.blogTitle rt (Synth.blogName hostname);
     Blog.Slug := Synth.blogSlug rt (Synth.blogName hostname);
     Blog.Description := Some (js "Auto-created blog for " ++ hostname);
     Blog.Url := Some blogUrl; Blog.CreatedAt := createdAt |}.

(** The default author and category that it creates for a blog. *)
Definition defaultAuthor (hostname : jsstring) (id blogId : Z) (createdAt : jsstring)
    : Author.t :=
  {| Author.AuthorId := id; Author.BlogId := blogId; Author.Name := js "Default Author";
     Author.Email := Some (js "author@" ++ hostname); Author.ProfileUrl := None;
     Author.Bio := Some (js "Auto-created default author"); Author.CreatedAt := createdAt |}.

Definition defaultCategory (id blogId : Z) : Category.t :=
  {| Category.CategoryId := id; Category.BlogId := blogId; Category.Name := js "General";
     Category.Slug := Some (js "general") |}.
(** The posts are as they were. *)
Definition samePosts (s s' : Store) : Prop := Posts s' = Posts s.

(** ** The posts of an ingestion, by position *)






(** ** Creating a blog *)

(** The blog that POST /api/blogs stores for a body. *)
Definition blogOf (data : Json.t) (name slug : jsstring) (id : Z) (createdAt : jsstring)
    : Blog.t :=
  {| Blog.BlogId := id; Blog.Name := name; Blog.Slug := slug;
     Blog.Description := truthyS (Json.Description data);
     Blog.Url := truthyS (Json.Url data); Blog.CreatedAt := createdAt |}.

(** The number of rows in a listing. *)
Definition listed (p : Payload) : nat :=
  match p with
  | BlogList l => length l | AuthorList l => length l | CategoryList l => length l
  | PostList l => length l | TagList l => length l | CommentList l => length l
  | _ => 0
  end.

(** ** Validation of a body *)

(** The resources of the router, /api/simple among them. *)
Definition isKnown (resource : jsstring) : bool :=
  existsb (fun name => JS.eqb resource (js name))
    ["blogs"; "authors"; "categories"; "posts"; "tags"; "comments"; "simple"]%string.

(** The properties that POST and PUT require of a body. *)
Definition hasRequired (r : Resource) (data : Json.t) : bool :=
  match r with
  | RBlogs => isSome (truthyS (Json.Name data)) && isSome (truthyS (Json.Slug data))
  | RAuthors | RCategories =>
      isSome (truthyS (Json.Name data)) && isSome (truthyZ (Json.BlogId data))
  | RPosts =>
      isSome (truthyS (Json.Title data)) && isSome (truthyS (Json.Slug data))
      && isSome (truthyZ (Json.BlogId data))
  | RTags => isSome (truthyS (Json.Name data))
  | RComments => isSome (truthyS (Json.Content data)) && isSome (truthyZ (Json.PostId data))
  end.

Definition requiredMessage (r : Resource) : string :=
  match r with
  | RBlogs => "Name and Slug are required"
  | RAuthors | RCategories => "Name and BlogId are required"
  | RPosts => "Title, Slug, and BlogId are required"
  | RTags => "Name is required"
  | RComments => "Content and PostId are required"
  end.

(** The first row that the body refers to and that does not exist, as the
    message of the 404 that reports it. *)
Definition missingParent (r : Resource) (data : Json.t) (s : Store) : option string :=
  let missing (ids : list Z) (ref : option Z) (message : string) :=
    match truthyZ ref with
    | Some id => if Sql.hasId ids id then None else Some message
    | None => None
    end in
  match r with
  | RBlogs | RTags => None
  | RAuthors | RCategories => missing (Sql.blogIds s) (Json.BlogId data) "Blog not found"%string
  | RComments => missing (Sql.postIds s) (Json.PostId data) "Post not found"%string
  | RPosts =>
      match missing (Sql.blogIds s) (Json.BlogId data) "Blog not found"%string with
      | Some m => Some m
      | None =>
          match missing (Sql.authorIds s) (Json.AuthorId data) "Author not found"%string with
          | Some m => Some m
          | None => missing (Sql.categoryIds s) (Json.CategoryId data) "Category not found"%string
          end
      end
  end.

(** The database after the post 1 has then been given the tag 1. *)
Definition afterLink : World :=
  snd (handleRequest Sample.runtime
         (plainRequest "PUT" "/api/posts/1"
            (Some (postBody (js "Hello") (js "hello") 1 (TagsArray [1%Z])))) afterTag).

(** * Properties *)

(** ** The model on concrete inputs *)

Example parseInt_examples :
  parseInt (js "42") = Some 42%Z /\ parseInt (js "abc") = None
  /\ parseInt (js "0") = Some 0%Z /\ parseInt (js "12abc") = Some 12%Z
  /\ parseInt (js "-7") = Some (-7)%Z /\ parseInt (js "0x1f") = Some 31%Z
  /\ parseInt (js "  9") = Some 9%Z /\ parseInt (js "-") = None.
Proof. repeat split; reflexivity. Qed.

Example string_examples :
  split isSlash (js "/api/blogs/7") = [js ""; js "api"; js "blogs"; js "7"]
  /\ split isSlash (js "") = [js ""]
  /\ replaceFirst (js "www.") (js "") (js "mywww.example.com") = js "myexample.com"
  /\ Synth.stripExtension (js "blog.example.com") = js "blog.example"
  /\ Synth.stripExtension (js "localhost") = js "localhost"
  /\ ofZ 1700000000000 = js "1700000000000"
  /\ substring (js "abcdef") 0 3 = js "abc"
  /\ trim (js "  a b  ") = js "a b"
  /\ Sql.like (js "%data%") (js "Designing Resilient Databases") = true.
Proof. repeat split; reflexivity. Qed.

Example isoString_examples :
  Sample.isoString 0 = js "1970-01-01T00:00:00.000Z"
  /\ Sample.isoString 1700000000000 = js "2023-11-14T22:13:20.000Z"
  /\ Sample.isoString 951782400123 = js "2000-02-29T00:00:00.123Z".
Proof. repeat split; vm_compute; reflexivity. Qed.

(** The scenario of the specification: https://myblog.com with one text on
    the empty database. *)
Example scenario_first_post :
  status ingestionResponse = 200%Z
  /\ map Blog.Name (Blogs (db afterIngestion)) = [js "Myblog"]
  /\ map Blog.Slug (Blogs (db afterIngestion)) = [js "myblog"]
  /\ map Author.Name (Authors (db afterIngestion)) = [js "Default Author"]
  /\ map Category.Name (Categories (db afterIngestion)) = [js "General"]
  /\ map Post.Title (Posts (db afterIngestion)) = [js "Hello world"]
  /\ map Post.Slug (Posts (db afterIngestion)) = [js "hello-world-1700000000002-0"]
  /\ map Post.Content (Posts (db afterIngestion)) = [Some (js "Hello world. More text here.")]
  /\ map Post.IsPublished (Posts (db afterIngestion)) = [1%Z].
Proof. repeat split; vm_compute; reflexivity. Qed.

(** A blank entry is skipped and does not count. *)
Example scenario_blank_entry :
  match fst (handleRequest Sample.runtime
               (simpleRequest (js "https://myblog.com") [js "   "; js "Valid post text."])
               (Sample.world emptyStore)) with
  | Ok {| payload := SimpleResult _ _ _ postsCreated _ |} => postsCreated = 1
  | _ => False
  end.
Proof. vm_compute. reflexivity. Qed.

(** A malformed URL is an internal failure, with nothing written. *)
Example scenario_malformed_url :
  handleRequest Sample.runtime (simpleRequest (js "not a url") [js "Text."])
    (Sample.world emptyStore)
  = (Ok (createErrorResponse "Failed to create posts" 500), Sample.world emptyStore).
Proof. vm_compute. reflexivity. Qed.

(** ** Strings *)

Unset Implicit Arguments.

Arguments isWhiteSpace : simpl never.
Arguments Synth.isTerminator : simpl never.

Lemma eqb_eq (a b : jsstring) : JS.eqb a b = true <-> a = b.
Proof.
  revert b; induction a as [|x a IH]; intros [|y b]; simpl; split; intros H;
    try discriminate; try reflexivity.
  - apply andb_true_iff in H as [Hx Hr]. apply N.eqb_eq in Hx. apply IH in Hr.
    now subst.
  - injection H as -> ->. rewrite N.eqb_refl. now apply IH.
Qed.

Lemma eqb_refl (a : jsstring) : JS.eqb a a = true.
Proof. now apply eqb_eq. Qed.


Lemma substring_from_0 (s : jsstring) (n : nat) : substring s 0 n = firstn n s.
Proof.
  unfold substring. simpl. rewrite Nat.sub_0_r.
  destruct (Nat.le_ge_cases n (length s)) as [H|H].
  - now rewrite Nat.min_l.
  - rewrite Nat.min_r by assumption. rewrite !firstn_all2; auto.
Qed.

Lemma trimStart_id (s : jsstring) : noLeadingSpace s -> trimStart s = s.
Proof. unfold trimStart. destruct s as [|c r]; simpl; [reflexivity|]. now intros ->. Qed.

Lemma dropWhile_snoc (p : N -> bool) (l : jsstring) (x : N) :
  p x = false -> dropWhile p (l ++ [x]) = dropWhile p l ++ [x].
Proof.
  intros Hx. induction l as [|c r IH]; simpl.
  - now rewrite Hx.
  - destruct (p c); [exact IH | reflexivity].
Qed.

Lemma noLeadingSpace_dropWhile (s : jsstring) : noLeadingSpace (dropWhile isWhiteSpace s).
Proof.
  induction s as [|c r IH]; simpl; [exact I|].
  destruct (isWhiteSpace c) eqn:E; [exact IH | exact E].
Qed.

Lemma noLeadingSpace_trimEnd (s : jsstring) : noLeadingSpace s -> noLeadingSpace (trimEnd s).
Proof.
  destruct s as [|c r]; [intros _; exact I|]. simpl. intros Hc.
  unfold trimEnd. simpl. rewrite dropWhile_snoc by assumption.
  rewrite rev_app_distr. simpl. exact Hc.
Qed.

Lemma noLeadingSpace_trim (s : jsstring) : noLeadingSpace (trim s).
Proof. apply noLeadingSpace_trimEnd, noLeadingSpace_dropWhile. Qed.


Lemma noLeadingSpace_firstn (n : nat) (s : jsstring) :
  noLeadingSpace s -> noLeadingSpace (firstn n s).
Proof. destruct n, s; simpl; auto. Qed.

Lemma trim_trimEnd (s : jsstring) : noLeadingSpace s -> trim s = trimEnd s.
Proof. intros H. unfold trim. now rewrite trimStart_id. Qed.


Lemma Forall_dropWhile (P : N -> Prop) (p : N -> bool) (s : jsstring) :
  Forall P s -> Forall P (dropWhile p s).
Proof.
  induction 1 as [|c r Hc Hr IH]; simpl; [constructor|].
  destruct (p c); [exact IH | now constructor].
Qed.




(** ** Title and excerpt of an ingested post *)





(** C2, as the code has it.  The Excerpt of the row inserted for an entry
    whose trimmed text exceeds 150 characters is the first 150 characters of
    the trimmed text, stripped of trailing white space, followed by "...";
    for a trimmed text of 150 characters or fewer it is the full trimmed
    text with no ellipsis. *)
Theorem excerpt_of_trimmed_entry (rt : Runtime) (blog : Blog.t) (author : Author.t)
    (category : Category.t) (i : nat) (entry : jsstring) (now : Z) (currentTime : jsstring) :
  Post.Excerpt (simplePostRow rt blog author category i (trim entry) now currentTime)
  = Some (if (150 <? length (trim entry))%nat
          then trimEnd (firstn 150 (trim entry)) ++ js "..."
          else trim entry).
Proof.
  unfold simplePostRow, Synth.excerpt. cbn [Post.Excerpt].
  rewrite substring_from_0, (trim_trimEnd (firstn 150 (trim entry))); [reflexivity|].
  apply noLeadingSpace_firstn, noLeadingSpace_trim.
Qed.

(** C2 as stated fails: the 150th character of this entry is a space, which
    the code strips before it appends the ellipsis. *)
Lemma excerpt_claim_counterexample :
  let entry :=
    js "Every autumn the old orchard behind the house fills with the smell of ripe apples and wet leaves, and the children come running with their baskets to help gather the fruit before the first frost arrives" in
  Synth.excerpt (trim entry)
  = js "Every autumn the old orchard behind the house fills with the smell of ripe apples and wet leaves, and the children come running with their baskets to..."
  /\ Claimed.excerpt entry
     = js "Every autumn the old orchard behind the house fills with the smell of ripe apples and wet leaves, and the children come running with their baskets to ..."
  /\ Synth.excerpt (trim entry) <> Claimed.excerpt entry.
Proof. cbv zeta. split; [|split]; vm_compute; [reflexivity | reflexivity | discriminate]. Qed.

(** ** The slug of an auto-created blog *)

Lemma replaceFirst_absent (pat by_ s : jsstring) :
  pat <> [] -> contains pat s = false -> replaceFirst pat by_ s = s.
Proof.
  intros Hpat. induction s as [|c r IH]; simpl; intros H.
  - destruct pat; [contradiction | reflexivity].
  - apply orb_false_iff in H as [H1 H2]. rewrite H1. now rewrite IH.
Qed.

Lemma blogName_candidate (hostname : jsstring) :
  wwwOnlyLeading hostname = true -> Synth.blogName hostname = Claimed.nameCandidate hostname.
Proof.
  unfold wwwOnlyLeading, Synth.blogName, Claimed.nameCandidate, Claimed.stripLeadingWww.
  intros H. f_equal. destruct (startsWith hostname (js "www.")) eqn:E.
  - destruct hostname as [|c r]; [discriminate E|]. cbn [replaceFirst]. now rewrite E.
  - simpl in H. apply negb_true_iff in H. apply replaceFirst_absent; [discriminate | exact H].
Qed.

(** C3 as stated fails: the hostname of an internationalized domain starts
    with "xn--" (here xn--bcher-kva.example), and the code keeps the two
    hyphens (it replaces character by character), where the claim makes
    them one. *)
Lemma blog_slug_claim_counterexample :
  let hostname := js "xn--bcher-kva.example" in
  Synth.blogSlug Sample.runtime (Synth.blogName hostname) = js "xn--bcher-kva"
  /\ Claimed.slug Sample.runtime hostname = js "xn-bcher-kva"
  /\ Synth.blogSlug Sample.runtime (Synth.blogName hostname)
     <> Claimed.slug Sample.runtime hostname.
Proof. cbv zeta. split; [|split]; vm_compute; [reflexivity | reflexivity | discriminate]. Qed.

(** ** Rowids *)

Lemma fold_max_ge (l : list Z) (x : Z) : (x <= fold_left Z.max l x)%Z.
Proof.
  revert x; induction l as [|y l IH]; intros x; simpl; [lia|].
  specialize (IH (Z.max x y)). lia.
Qed.

Lemma fold_max_bound (l : list Z) (x y : Z) : In y l -> (y <= fold_left Z.max l x)%Z.
Proof.
  revert x; induction l as [|z l IH]; intros x; simpl; [contradiction|].
  intros [->|H]; [|now apply IH].
  pose proof (fold_max_ge l (Z.max x y)). lia.
Qed.

(** The rowid of a new row is above every rowid in use. *)
Lemma nextId_above (ids : list Z) (y : Z) : In y ids -> (y < Sql.nextId ids)%Z.
Proof.
  destruct ids as [|x l]; simpl; [contradiction|].
  intros [->|H].
  - pose proof (fold_max_ge l y). lia.
  - pose proof (fold_max_bound l x y H). lia.
Qed.

Lemma hasId_In (ids : list Z) (id : Z) : Sql.hasId ids id = true <-> In id ids.
Proof.
  unfold Sql.hasId. rewrite existsb_exists. split.
  - intros (x & Hx & E). apply Z.eqb_eq in E. now subst.
  - intros H. exists id. split; [assumption | apply Z.eqb_refl].
Qed.

Lemma nextId_fresh (ids : list Z) : Sql.hasId ids (Sql.nextId ids) = false.
Proof.
  destruct (Sql.hasId ids (Sql.nextId ids)) eqn:E; [|reflexivity].
  apply hasId_In, nextId_above in E. lia.
Qed.

(** Looking a row up by a key that no row has. *)
Lemma find_absent {A} (key : A -> Z) (l : list A) (id : Z) :
  Sql.hasId (map key l) id = false -> find (fun r => (key r =? id)%Z) l = None.
Proof.
  induction l as [|r l IH]; simpl; [reflexivity|].
  rewrite Z.eqb_sym. intros H. apply orb_false_iff in H as [H1 H2].
  rewrite H1. now apply IH.
Qed.

Lemma find_present {A} (key : A -> Z) (l : list A) (id : Z) :
  Sql.hasId (map key l) id = true -> exists r, find (fun r => (key r =? id)%Z) l = Some r.
Proof.
  induction l as [|r l IH]; simpl; [discriminate|].
  rewrite Z.eqb_sym. destruct (key r =? id)%Z; simpl; [eauto | exact IH].
Qed.

Lemma find_hasId {A} (key : A -> Z) (l : list A) (id : Z) (r : A) :
  find (fun r => (key r =? id)%Z) l = Some r -> Sql.hasId (map key l) id = true.
Proof.
  intros H. destruct (Sql.hasId (map key l) id) eqn:E; [reflexivity|].
  rewrite (find_absent _ _ _ E) in H. discriminate.
Qed.

Lemma find_app_none {A} (p : A -> bool) (l l' : list A) :
  find p l = None -> find p (l ++ l') = find p l'.
Proof.
  induction l as [|x l IH]; simpl; [reflexivity|].
  destruct (p x); [discriminate | exact IH].
Qed.

Lemma find_app_some {A} (p : A -> bool) (l l' : list A) (r : A) :
  find p l = Some r -> find p (l ++ l') = Some r.
Proof.
  induction l as [|x l IH]; simpl; [discriminate|].
  destruct (p x); [auto | exact IH].
Qed.

(** Reading back the row that was just appended under a fresh rowid. *)
Lemma find_appended {A} (key : A -> Z) (l : list A) (r : A) :
  key r = Sql.nextId (map key l) ->
  find (fun x => (key x =? Sql.nextId (map key l))%Z) (l ++ [r]) = Some r.
Proof.
  intros Hr. rewrite find_app_none by apply (find_absent key l _ (nextId_fresh _)).
  simpl. now rewrite Hr, Z.eqb_refl.
Qed.

(** Updating or deleting by a rowid that no row has changes nothing. *)
Lemma map_absent {A} (key : A -> Z) (f : A -> A) (l : list A) (id : Z) :
  Sql.hasId (map key l) id = false ->
  map (fun r => if (key r =? id)%Z then f r else r) l = l.
Proof.
  induction l as [|r l IH]; simpl; [reflexivity|].
  rewrite Z.eqb_sym. intros H. apply orb_false_iff in H as [H1 H2].
  rewrite H1. now rewrite IH.
Qed.

Lemma filter_absent {A} (key : A -> Z) (l : list A) (id : Z) :
  Sql.hasId (map key l) id = false ->
  filter (fun r => negb (key r =? id)%Z) l = l.
Proof.
  induction l as [|r l IH]; simpl; [reflexivity|].
  rewrite Z.eqb_sym. intros H. apply orb_false_iff in H as [H1 H2].
  rewrite H1. simpl. now rewrite IH.
Qed.

(** ** Running a handler *)

Lemma bind_ok {A B} (m : M A) (k : A -> M B) (w w1 : World) (a : A) :
  m w = (Ok a, w1) -> bind m k w = k a w1.
Proof. unfold bind. now intros ->. Qed.

Lemma bind_thrown {A B} (m : M A) (k : A -> M B) (w w1 : World) :
  m w = (Thrown, w1) -> bind m k w = (Thrown, w1).
Proof. unfold bind. now intros ->. Qed.

Lemma bind_ret {A B} (a : A) (k : A -> M B) : bind (ret a) k = k a.
Proof. reflexivity. Qed.

(** A computation that ends normally went through each of its steps. *)
Lemma bind_inv {A B} (m : M A) (k : A -> M B) (w w2 : World) (b : B) :
  bind m k w = (Ok b, w2) -> exists a w1, m w = (Ok a, w1) /\ k a w1 = (Ok b, w2).
Proof.
  unfold bind. destruct (m w) as [[a|] w1]; [eauto | discriminate].
Qed.

Section Keeps.

Variable I : Store -> Prop.

Lemma keeps_ret {A} (a : A) (Q : A -> Prop) : Q a -> keeps I (ret a) Q.
Proof. intros H w Hw. simpl. auto. Qed.

Lemma keeps_throw {A} (Q : A -> Prop) : keeps I (@throw A) Q.
Proof. intros w Hw. simpl. auto. Qed.

Lemma keeps_bind {A B} (m : M A) (k : A -> M B) (Q : A -> Prop) (R : B -> Prop) :
  keeps I m Q -> (forall a, Q a -> keeps I (k a) R) -> keeps I (bind m k) R.
Proof.
  intros Hm Hk w Hw. unfold bind. destruct (Hm w Hw) as [H1 H2].
  destruct (m w) as [[a|] w1]; simpl in *; [|auto].
  exact (Hk a H2 w1 H1).
Qed.

Lemma keeps_weaken {A} (m : M A) (Q R : A -> Prop) :
  keeps I m Q -> (forall a, Q a -> R a) -> keeps I m R.
Proof.
  intros Hm HQ w Hw. destruct (Hm w Hw) as [H1 H2]. split; [assumption|].
  destruct (fst (m w)); auto.
Qed.

Lemma keeps_catch {A} (m : M A) (r : A) (Q : A -> Prop) :
  keeps I m Q -> Q r -> keeps I (catch m r) Q.
Proof.
  intros Hm Hr w Hw. unfold catch. destruct (Hm w Hw) as [H1 H2].
  destruct (m w) as [[a|] w1]; simpl in *; auto.
Qed.

Lemma keeps_query {A} (f : Store -> A) : keeps I (query f) anything.
Proof. intros w Hw. simpl. unfold anything. auto. Qed.

Lemma keeps_tryQuery {A} (f : Store -> option A) : keeps I (tryQuery f) anything.
Proof.
  intros w Hw. unfold tryQuery, anything. destruct (f (db w)); simpl; auto.
Qed.

Lemma keeps_exec {A} (f : Store -> option (A * Store)) (Q : A -> Prop) :
  (forall s a s', I s -> f s = Some (a, s') -> I s' /\ Q a) -> keeps I (exec f) Q.
Proof.
  intros Hf w Hw. unfold exec. destruct (f (db w)) as [[a s']|] eqn:E; simpl; [|auto].
  exact (Hf _ _ _ Hw E).
Qed.

Lemma keeps_readClock (rt : Runtime) : keeps I (readClock rt) anything.
Proof. intros w Hw. simpl. unfold anything. auto. Qed.

Lemma keeps_getCurrentTimestamp (rt : Runtime) (Q : jsstring -> Prop) :
  (forall t, Q (toISOString rt t)) -> keeps I (getCurrentTimestamp rt) Q.
Proof. intros H w Hw. simpl. auto. Qed.

Lemma keeps_json (request : Request) : keeps I (json request) anything.
Proof.
  unfold json. destruct (body request); [now apply keeps_ret | apply keeps_throw].
Qed.

Lemma keeps_forEach {A} (f : A -> M unit) (l : list A) :
  (forall x, keeps I (f x) anything) -> keeps I (forEach f l) anything.
Proof.
  intros Hf. induction l as [|x l IH]; simpl.
  - now apply keeps_ret.
  - eapply keeps_bind; [apply Hf | intros _ _; exact IH].
Qed.

End Keeps.

(** ** Published posts carry a publication date *)

Ltac case_analysis H :=
  repeat match type of H with
         | context [if ?b then _ else _] => destruct b
         | context [match ?x with _ => _ end] => destruct x
         end.

Ltac shrink op :=
  intros s a s' H; unfold op in H; case_analysis H;
  try discriminate H; injection H as <- <-; simpl;
  first [apply incl_refl | apply incl_filter].

Lemma shrink_insertBlog n sl d u c : postsOnlyShrink (Sql.insertBlog n sl d u c).
Proof. shrink Sql.insertBlog. Qed.
Lemma shrink_updateBlog i n sl d u : postsOnlyShrink (Sql.updateBlog i n sl d u).
Proof. shrink Sql.updateBlog. Qed.
Lemma shrink_deleteBlog i : postsOnlyShrink (Sql.deleteBlog i).
Proof. shrink Sql.deleteBlog. Qed.
Lemma shrink_insertAuthor b n e p bi c : postsOnlyShrink (Sql.insertAuthor b n e p bi c).
Proof. shrink Sql.insertAuthor. Qed.
Lemma shrink_updateAuthor i b n e p bi : postsOnlyShrink (Sql.updateAuthor i b n e p bi).
Proof. shrink Sql.updateAuthor. Qed.
Lemma shrink_deleteAuthor i : postsOnlyShrink (Sql.deleteAuthor i).
Proof. shrink Sql.deleteAuthor. Qed.
Lemma shrink_insertCategory b n sl : postsOnlyShrink (Sql.insertCategory b n sl).
Proof. shrink Sql.insertCategory. Qed.
Lemma shrink_updateCategory i b n sl : postsOnlyShrink (Sql.updateCategory i b n sl).
Proof. shrink Sql.updateCategory. Qed.
Lemma shrink_deleteCategory i : postsOnlyShrink (Sql.deleteCategory i).
Proof. shrink Sql.deleteCategory. Qed.
Lemma shrink_deletePost i : postsOnlyShrink (Sql.deletePost i).
Proof. shrink Sql.deletePost. Qed.
Lemma shrink_insertTag n : postsOnlyShrink (Sql.insertTag n).
Proof. shrink Sql.insertTag. Qed.
Lemma shrink_updateTag i n : postsOnlyShrink (Sql.updateTag i n).
Proof. shrink Sql.updateTag. Qed.
Lemma shrink_deleteTag i : postsOnlyShrink (Sql.deleteTag i).
Proof. shrink Sql.deleteTag. Qed.
Lemma shrink_insertPostTag p t : postsOnlyShrink (Sql.insertPostTag p t).
Proof. shrink Sql.insertPostTag. Qed.
Lemma shrink_deletePostTags p : postsOnlyShrink (Sql.deletePostTags p).
Proof. shrink Sql.deletePostTags. Qed.
Lemma shrink_insertComment r : postsOnlyShrink (Sql.insertComment r).
Proof. shrink Sql.insertComment. Qed.
Lemma shrink_updateComment i r : postsOnlyShrink (Sql.updateComment i r).
Proof. shrink Sql.updateComment. Qed.
Lemma shrink_deleteComment i : postsOnlyShrink (Sql.deleteComment i).
Proof. shrink Sql.deleteComment. Qed.

Create HintDb shrink.
#[export] Hint Resolve shrink_insertBlog shrink_updateBlog shrink_deleteBlog
  shrink_insertAuthor shrink_updateAuthor shrink_deleteAuthor shrink_insertCategory
  shrink_updateCategory shrink_deleteCategory shrink_deletePost shrink_insertTag
  shrink_updateTag shrink_deleteTag shrink_insertPostTag shrink_deletePostTags
  shrink_insertComment shrink_updateComment shrink_deleteComment : shrink.

Lemma keeps_exec_shrink {A} (f : Store -> option (A * Store)) :
  postsOnlyShrink f -> keeps publishedHasDate (exec f) anything.
Proof.
  intros Hf. apply keeps_exec. intros s a s' Hs E. split; [|exact I].
  intros p Hp. apply Hs. exact (Hf _ _ _ E p Hp).
Qed.

(** A row that has its date may be inserted, or written over another. *)
Lemma keeps_insertPost (row : Post.t) :
  (Post.IsPublished row = 1%Z -> Post.PublishedAt row <> None) ->
  keeps publishedHasDate (exec (Sql.insertPost row)) anything.
Proof.
  intros Hrow. apply keeps_exec. intros s a s' Hs E. split; [|exact I].
  unfold Sql.insertPost in E. destruct (negb _); [discriminate|].
  injection E as <- <-. intros p Hp. simpl in Hp.
  apply in_app_or in Hp as [Hp|[<-|[]]]; [now apply Hs | exact Hrow].
Qed.

Lemma keeps_updatePost (id : Z) (row : Post.t) :
  (Post.IsPublished row = 1%Z -> Post.PublishedAt row <> None) ->
  keeps publishedHasDate (exec (Sql.updatePost id row)) anything.
Proof.
  intros Hrow. apply keeps_exec. intros s a s' Hs E. split; [|exact I].
  unfold Sql.updatePost in E. destruct (_ && _); [discriminate|].
  injection E as <- <-. intros p Hp. simpl in Hp.
  apply in_map_iff in Hp as (q & <- & Hq).
  destruct (Post.PostId q =? id)%Z; [exact Hrow | now apply Hs].
Qed.

Section PublishedAt.

Variable rt : Runtime.

(** The ISO rendering of a date is never the empty string. *)
Hypothesis iso_nonempty : forall t, toISOString rt t <> [].

(** Lines 537-539: after them a truthy IsPublished has a truthy PublishedAt. *)
Lemma keeps_publishedAtOf (I : Store -> Prop) (data : Json.t) :
  keeps I (publishedAtOf rt data)
    (fun publishedAt => orZero (Json.IsPublished data) = 1%Z -> truthyS publishedAt <> None).
Proof.
  unfold publishedAtOf.
  destruct (Json.IsPublished data) as [[|n|n]|] eqn:Ez; simpl;
    try (apply keeps_ret; discriminate).
  all: destruct (Json.PublishedAt data) as [[|c r]|] eqn:Ep; simpl;
    try (apply keeps_ret; discriminate).
  all: eapply keeps_bind;
    [ apply keeps_getCurrentTimestamp with (Q := fun t => t <> []); exact iso_nonempty
    | intros t Ht; apply keeps_ret; intros _; destruct t; [contradiction | discriminate] ].
Qed.

Lemma postColumns_dated (data : Json.t) title slug blogId publishedAt createdAt updatedAt :
  (orZero (Json.IsPublished data) = 1%Z -> truthyS publishedAt <> None) ->
  let row := postColumns data title slug blogId publishedAt createdAt updatedAt in
  Post.IsPublished row = 1%Z -> Post.PublishedAt row <> None.
Proof. intros H. exact H. Qed.

Ltac keeps_step :=
  first
    [ apply keeps_ret; exact I
    | apply keeps_throw
    | apply keeps_query | apply keeps_tryQuery | apply keeps_json | apply keeps_readClock
    | apply keeps_getCurrentTimestamp; intros; exact I
    | apply keeps_exec_shrink; solve [auto with shrink]
    | apply keeps_forEach; intros
    | apply keeps_insertPost; solve [apply postColumns_dated; assumption | discriminate]
    | apply keeps_updatePost; solve [apply postColumns_dated; assumption | discriminate]
    | match goal with
      | |- keeps _ (bind (publishedAtOf _ _) _) _ =>
          eapply keeps_bind; [ apply keeps_publishedAtOf | intros ? ? ]
      end
    | apply keeps_bind with (Q := anything); [ | intros ? _ ]
    | match goal with
      | |- keeps _ (if ?b then _ else _) _ => destruct b
      | |- keeps _ (match ?x with _ => _ end) _ => destruct x
      end ].

Ltac keeps_auto := repeat keeps_step.

Lemma keeps_handleBlogs method id request :
  keeps publishedHasDate (handleBlogs rt method id request) anything.
Proof. unfold handleBlogs. keeps_auto. Qed.

Lemma keeps_handleAuthors method id request :
  keeps publishedHasDate (handleAuthors rt method id request) anything.
Proof. unfold handleAuthors. keeps_auto. Qed.

Lemma keeps_handleCategories method id request :
  keeps publishedHasDate (handleCategories method id request) anything.
Proof. unfold handleCategories. keeps_auto. Qed.

Lemma keeps_handleTags method id request :
  keeps publishedHasDate (handleTags method id request) anything.
Proof. unfold handleTags. keeps_auto. Qed.

Lemma keeps_handleComments method id request :
  keeps publishedHasDate (handleComments rt method id request) anything.
Proof. unfold handleComments. keeps_auto. Qed.

Lemma keeps_handlePosts method id request :
  keeps publishedHasDate (handlePosts rt method id request) anything.
Proof. unfold handlePosts, checkPostRefs. keeps_auto. Qed.

Lemma keeps_createPosts blog author category postTexts :
  forall i createdPosts,
    keeps publishedHasDate (createPosts rt blog author category postTexts i createdPosts)
      anything.
Proof.
  induction postTexts as [|entry rest IH]; intros i createdPosts; simpl.
  - now apply keeps_ret.
  - destruct (isEmpty (trim entry)); [apply IH|]. keeps_auto. apply IH.
Qed.

Lemma keeps_handleSimplePost method request :
  keeps publishedHasDate (handleSimplePost rt method request) anything.
Proof.
  unfold handleSimplePost, simplePost, findOrCreateBlog, findOrCreateAuthor,
    findOrCreateCategory, hostnameOf.
  destruct (negb _); [now apply keeps_ret|].
  apply keeps_catch; [|exact I].
  keeps_auto. apply keeps_createPosts.
Qed.

Lemma keeps_handleRequest request :
  keeps publishedHasDate (handleRequest rt request) anything.
Proof.
  unfold handleRequest. destruct (negb _); [now apply keeps_ret|].
  apply keeps_catch; [|exact I].
  repeat match goal with |- keeps _ (if ?b then _ else _) _ => destruct b end;
    auto using keeps_handleBlogs, keeps_handleAuthors, keeps_handleCategories,
      keeps_handlePosts, keeps_handleTags, keeps_handleComments, keeps_handleSimplePost.
  now apply keeps_ret.
Qed.

End PublishedAt.

(** C7.  In every database that requests lead to from the empty one (the
    Post create and update operations and the ingestion workflow among
    them, whether they end normally or fail half-way), every Post row with
    IsPublished = 1 has a non-null PublishedAt.  The mechanism: where POST
    and PUT of a post meet a truthy IsPublished without a supplied
    PublishedAt they read the clock and take the current timestamp, and the
    row of the ingestion workflow is published with the timestamp of its
    synthesis. *)
Theorem published_posts_have_a_date (rt : Runtime)
    (iso_nonempty : forall t, toISOString rt t <> []) :
  (forall w, reachable rt w -> publishedHasDate (db w))
  /\ (forall data w,
        isSome (truthyZ (Json.IsPublished data)) = true ->
        truthyS (Json.PublishedAt data) = None ->
        publishedAtOf rt data w
        = (Ok (Some (toISOString rt (Date_now rt (reads w)))),
           {| db := db w; reads := S (reads w) |}))
  /\ (forall blog author category i postText now currentTime,
        let row := simplePostRow rt blog author category i postText now currentTime in
        Post.IsPublished row = 1%Z /\ Post.PublishedAt row = Some currentTime).
Proof.
  split; [|split].
  - induction 1 as [n|w request Hw IH].
    + intros p [].
    + exact (proj1 (keeps_handleRequest rt iso_nonempty request w IH)).
  - intros data w Hpub Hat. unfold publishedAtOf. rewrite Hpub.
    destruct (truthyS (Json.PublishedAt data)); [discriminate | reflexivity].
  - intros. split; reflexivity.
Qed.

(** ** Routing *)

Lemma split_segment (a : jsstring) :
  forallb (fun c => negb (isSlash c)) a = true -> split isSlash a = [a].
Proof.
  induction a as [|c a IH]; simpl; [reflexivity|]. intros H.
  apply andb_true_iff in H as [Hc Ha]. apply negb_true_iff in Hc.
  rewrite Hc, (IH Ha). reflexivity.
Qed.

Lemma split_app_slash (a b : jsstring) :
  forallb (fun c => negb (isSlash c)) a = true ->
  split isSlash (a ++ 47%N :: b) = a :: split isSlash b.
Proof.
  induction a as [|c a IH]; simpl; [reflexivity|]. intros H.
  apply andb_true_iff in H as [Hc Ha]. apply negb_true_iff in Hc.
  rewrite Hc, (IH Ha). reflexivity.
Qed.

Lemma isSegment_inv (seg : jsstring) :
  isSegment seg = true ->
  isEmpty seg = false /\ forallb (fun c => negb (isSlash c)) seg = true.
Proof.
  unfold isSegment. intros H. apply andb_true_iff in H as [H1 H2].
  apply negb_true_iff in H1. auto.
Qed.

Lemma pathSegments_resource (request : Request) (resource seg : jsstring) :
  pathname request = resourcePath resource seg ->
  isSegment resource = true -> isSegment seg = true ->
  pathSegments request = [js "api"; resource; seg].
Proof.
  intros Hp Hr Hs. apply isSegment_inv in Hr as [Hr1 Hr2]. apply isSegment_inv in Hs as [Hs1 Hs2].
  unfold pathSegments. rewrite Hp. unfold resourcePath.
  change (js "/api/" ++ resource ++ js "/" ++ seg)
    with ([] ++ 47%N :: (js "api" ++ 47%N :: (resource ++ 47%N :: seg))).
  rewrite !split_app_slash by (reflexivity || assumption).
  rewrite split_segment by assumption.
  cbn [filter]. rewrite Hr1, Hs1. reflexivity.
Qed.

Lemma pathSegments_collection (request : Request) (resource : jsstring) :
  pathname request = js "/api/" ++ resource ->
  isSegment resource = true ->
  pathSegments request = [js "api"; resource].
Proof.
  intros Hp Hr. apply isSegment_inv in Hr as [Hr1 Hr2].
  unfold pathSegments. rewrite Hp.
  change (js "/api/" ++ resource) with ([] ++ 47%N :: (js "api" ++ 47%N :: resource)).
  rewrite !split_app_slash by (reflexivity || assumption).
  rewrite split_segment by assumption.
  cbn [filter]. rewrite Hr1. reflexivity.
Qed.

(** Tests between string literals evaluate. *)
Ltac literal_tests :=
  repeat match goal with
         | |- context [JS.eqb (js ?a) (js ?b)] =>
             let v := eval vm_compute in (JS.eqb (js a) (js b)) in
             change (JS.eqb (js a) (js b)) with v
         end;
  cbn [negb].

(** ** Validation of the ingestion request *)

Lemma simplePost_invalid (rt : Runtime) (request : Request) (data : Json.t) (w : World) :
  body request = Some data ->
  Json.blogUrl data = None \/ Json.postTexts data = Absent
  \/ Json.postTexts data = NotAnArray \/ Json.postTexts data = TextArray [] ->
  exists message, simplePost rt request w = (Ok (createErrorResponse message 400), w).
Proof.
  intros Hb Hbad. unfold simplePost, json. rewrite Hb.
  rewrite (bind_ok _ _ w w data) by reflexivity.
  destruct Hbad as [H|[H|[H|H]]]; rewrite H; simpl;
    destruct (truthyS (Json.blogUrl data)); simpl; eexists; reflexivity.
Qed.

(** C5.  A POST /api/simple whose body has no blogUrl, has no postTexts,
    has a postTexts that is not an array, or has an empty postTexts array,
    is answered with a validation error of status 400, and nothing is
    written: the database (and the clock count) is as before. *)
Theorem simple_rejects_invalid_body (rt : Runtime) (request : Request) (data : Json.t)
    (w : World) :
  method request = js "POST" ->
  pathname request = js "/api/simple" ->
  body request = Some data ->
  Json.blogUrl data = None \/ Json.postTexts data = Absent
  \/ Json.postTexts data = NotAnArray \/ Json.postTexts data = TextArray [] ->
  exists message,
    handleRequest rt request w = (Ok (createErrorResponse message 400), w).
Proof.
  intros Hm Hp Hb Hbad.
  assert (Hseg : pathSegments request = [js "api"; js "simple"])
    by (apply pathSegments_collection; [exact Hp | reflexivity]).
  destruct (simplePost_invalid rt request data w Hb Hbad) as [message Hsimple].
  exists message.
  unfold handleRequest. rewrite Hseg, Hm.
  cbn [nth_error isResource]. literal_tests. cbv iota.
  unfold handleSimplePost, isMethod. literal_tests. cbv iota.
  unfold catch. now rewrite Hsimple.
Qed.

(** ** The published filter of GET /api/posts *)

Lemma searchParam_without_other (request : Request) (name dropped : string) :
  JS.eqb (js dropped) (js name) = false ->
  searchParam (withoutParam request dropped) name = searchParam request name.
Proof.
  intros Hne. unfold searchParam, withoutParam. cbn [searchParams]. f_equal.
  induction (searchParams request) as [|kv l IH]; simpl; [reflexivity|].
  destruct (JS.eqb (fst kv) (js dropped)) eqn:Ed; simpl.
  - apply eqb_eq in Ed. rewrite Ed, Hne. exact IH.
  - destruct (JS.eqb (fst kv) (js name)); [reflexivity | exact IH].
Qed.

Lemma searchParam_without_same (request : Request) (name : string) :
  searchParam (withoutParam request name) name = None.
Proof.
  unfold searchParam, withoutParam. cbn [searchParams].
  induction (searchParams request) as [|kv l IH]; simpl; [reflexivity|].
  destruct (JS.eqb (fst kv) (js name)) eqn:E; simpl; [exact IH|].
  rewrite E. exact IH.
Qed.

(** C10.  The rows that GET /api/posts returns are the rows that its WHERE
    clause selects, newest first, cut by LIMIT and OFFSET.  Compared with
    the same request without the published parameter, the clause selects:
    only the rows with IsPublished = 1 when the value is exactly "true";
    only the rows with IsPublished = 0 for every other non-empty value
    ("false", "0", "yes", ...); and the same rows when the parameter is
    absent or empty. *)
Theorem published_filter (rt : Runtime) (request : Request) :
  (forall w,
     handlePosts rt (js "GET") IdNull request w
     = match intParam request "limit" "50", intParam request "offset" "0" with
       | Some limit, Some offset =>
           (Ok (createSuccessResponse
                  (PostList
                     (map (Sql.postView (db w))
                        (Sql.limitOffset limit offset
                           (Sql.orderByDesc Post.CreatedAt
                              (filter (selects request) (Posts (db w)))))))), w)
       | _, _ => (Thrown, w)
       end)
  /\ (forall p,
        selects request p
        = match searchParam request "published" with
          | None | Some [] => selects (withoutParam request "published") p
          | Some value =>
              selects (withoutParam request "published") p
              && (Post.IsPublished p =? (if JS.eqb value (js "true") then 1 else 0))%Z
          end).
Proof.
  split.
  - intros w. unfold handlePosts, isMethod. literal_tests. cbv iota. cbn [truthyId].
    unfold bind, tryQuery, Sql.selectPosts.
    destruct (intParam request "limit" "50"), (intParam request "offset" "0"); reflexivity.
  - intros p. unfold selects, postClauses.
    rewrite searchParam_without_same.
    rewrite !searchParam_without_other by reflexivity.
    rewrite !forallb_app.
    destruct (searchParam request "published") as [[|c v]|]; cbn [truthyS forallb];
      rewrite ?andb_true_r, ?andb_true_l; try reflexivity.
    cbn [Sql.postClause].
    repeat match goal with |- context [forallb ?f ?l] => generalize (forallb f l); intro end.
    repeat match goal with b : bool |- _ => destruct b end; simpl; try reflexivity;
      destruct (_ =? _)%Z; reflexivity.
Qed.

(** ** A path segment that is not a nonzero integer *)

(** The handlers look at [id] only through its truthiness, and at the
    request only through its body and query parameters. *)
Lemma handleBlogs_id rt method id id' request path :
  truthyId id = truthyId id' ->
  handleBlogs rt method id request = handleBlogs rt method id' (withPath request path).
Proof. intros H. unfold handleBlogs. rewrite H. reflexivity. Qed.

Lemma handleAuthors_id rt method id id' request path :
  truthyId id = truthyId id' ->
  handleAuthors rt method id request = handleAuthors rt method id' (withPath request path).
Proof. intros H. unfold handleAuthors. rewrite H. reflexivity. Qed.

Lemma handleCategories_id method id id' request path :
  truthyId id = truthyId id' ->
  handleCategories method id request = handleCategories method id' (withPath request path).
Proof. intros H. unfold handleCategories. rewrite H. reflexivity. Qed.

Lemma handlePosts_id rt method id id' request path :
  truthyId id = truthyId id' ->
  handlePosts rt method id request = handlePosts rt method id' (withPath request path).
Proof. intros H. unfold handlePosts. rewrite H. reflexivity. Qed.

Lemma handleTags_id method id id' request path :
  truthyId id = truthyId id' ->
  handleTags method id request = handleTags method id' (withPath request path).
Proof. intros H. unfold handleTags. rewrite H. reflexivity. Qed.

Lemma handleComments_id rt method id id' request path :
  truthyId id = truthyId id' ->
  handleComments rt method id request = handleComments rt method id' (withPath request path).
Proof. intros H. unfold handleComments. rewrite H. reflexivity. Qed.

Lemma pathId_falsy (a b seg : jsstring) :
  parseInt seg = None \/ parseInt seg = Some 0%Z ->
  truthyId (pathId [a; b; seg]) = None.
Proof.
  unfold pathId. cbn [nth_error]. destruct (isEmpty seg); [reflexivity|].
  intros [-> | ->]; reflexivity.
Qed.

(** A GET without an id answers with the collection. *)
Lemma get_collection rt (r : Resource) (request : Request) (id : PathId) (w : World) :
  truthyId id = None ->
  handlerOf rt r (js "GET") id request w
  = match collectionOf r request (db w) with
    | Some listing => (Ok (createSuccessResponse listing), w)
    | None => (Thrown, w)
    end.
Proof.
  intros Hid.
  destruct r; cbn [handlerOf collectionOf];
    unfold handleBlogs, handleAuthors, handleCategories, handlePosts, handleTags,
      handleComments, isMethod; literal_tests; cbv iota; rewrite Hid;
    unfold bind, query, tryQuery; try reflexivity.
  - destruct (Sql.selectPosts _ _ _ _); reflexivity.
  - destruct (Sql.selectComments _ _ _ _); reflexivity.
Qed.

(** C8.  When the third segment of /api/{resource}/{seg} does not parse to
    a nonzero integer (parseInt gives NaN or 0), the request is handled
    exactly as the request for /api/{resource} is: same response, same
    effect, for every method.  In particular a GET on one of the six
    resources is answered with the listing of the whole collection (status
    200; or 500 when the listing query itself is rejected), never with a
    not-found error, and writes nothing. *)
Theorem falsy_id_is_no_id (rt : Runtime) (request : Request) (resource seg : jsstring)
    (w : World) :
  isSegment resource = true ->
  isSegment seg = true ->
  pathname request = resourcePath resource seg ->
  parseInt seg = None \/ parseInt seg = Some 0%Z ->
  handleRequest rt request w
  = handleRequest rt (withPath request (js "/api/" ++ resource)) w
  /\ (forall r,
        method request = js "GET" ->
        resource = js (resourceName r) ->
        handleRequest rt request w
        = (Ok match collectionOf r request (db w) with
              | Some listing => createSuccessResponse listing
              | None => createErrorResponse "Internal server error" 500
              end, w)).
Proof.
  intros Hres Hseg Hpath Hparse.
  pose proof (pathSegments_resource request resource seg Hpath Hres Hseg) as Hsegs.
  assert (Hsegs' : pathSegments (withPath request (js "/api/" ++ resource))
                   = [js "api"; resource])
    by (apply pathSegments_collection; [reflexivity | exact Hres]).
  pose proof (pathId_falsy (js "api") resource seg Hparse) as Hid.
  split.
  - unfold handleRequest. rewrite Hsegs, Hsegs'.
    cbn [nth_error isResource method withPath]. literal_tests. cbv iota.
    unfold catch.
    repeat match goal with |- context [if ?b then _ else _] => destruct b end;
      first [ now rewrite (handleBlogs_id rt _ _ IdNull request (js "/api/" ++ resource) Hid)
            | now rewrite (handleAuthors_id rt _ _ IdNull request (js "/api/" ++ resource) Hid)
            | now rewrite (handleCategories_id _ _ IdNull request (js "/api/" ++ resource) Hid)
            | now rewrite (handlePosts_id rt _ _ IdNull request (js "/api/" ++ resource) Hid)
            | now rewrite (handleTags_id _ _ IdNull request (js "/api/" ++ resource) Hid)
            | now rewrite (handleComments_id rt _ _ IdNull request (js "/api/" ++ resource) Hid)
            | reflexivity ].
  - intros r Hm ->.
    unfold handleRequest. rewrite Hsegs, Hm. cbn [nth_error isResource].
    transitivity (catch (handlerOf rt r (js "GET")
                           (pathId [js "api"; js (resourceName r); seg]) request)
                    (createErrorResponse "Internal server error" 500) w);
      [destruct r; reflexivity|].
    unfold catch. rewrite (get_collection rt r request _ w Hid).
    destruct (collectionOf r request (db w)); reflexivity.
Qed.

(** ** Requests with an id *)

Lemma route (rt : Runtime) (r : Resource) (seg : jsstring) (request : Request) (w : World) :
  pathname request = resourcePath (js (resourceName r)) seg ->
  isSegment seg = true ->
  handleRequest rt request w
  = catch (handlerOf rt r (method request)
             (pathId [js "api"; js (resourceName r); seg]) request)
      (createErrorResponse "Internal server error" 500) w.
Proof.
  intros Hpath Hseg.
  assert (Hsegs : pathSegments request = [js "api"; js (resourceName r); seg])
    by (apply pathSegments_resource; [exact Hpath | now destruct r | exact Hseg]).
  unfold handleRequest. rewrite Hsegs. cbn [nth_error isResource].
  destruct r; reflexivity.
Qed.

Lemma pathId_truthy (a b seg : jsstring) (id : Z) :
  isSegment seg = true -> parseInt seg = Some id -> id <> 0%Z ->
  truthyId (pathId [a; b; seg]) = Some id.
Proof.
  intros Hseg Hparse Hid. apply isSegment_inv in Hseg as [Hne _].
  unfold pathId. cbn [nth_error]. rewrite Hne, Hparse. cbn [truthyId].
  now rewrite (proj2 (Z.eqb_neq id 0) Hid).
Qed.

Lemma world_eta (w : World) : {| db := db w; reads := reads w |} = w.
Proof. now destruct w. Qed.

(** *** DELETE *)

(** Deleting by a key that no row has is accepted and changes nothing. *)
Lemma delete_absent (r : Resource) (id : Z) (s : Store) :
  rowExists r id s = false -> deleteStatement r id s = Some (tt, s).
Proof.
  destruct s as [bl au ca po ta pt co]. unfold rowExists.
  destruct r; cbn [deleteStatement]; intros H.
  - unfold Sql.deleteBlog. now rewrite H.
  - unfold Sql.deleteAuthor. rewrite H. cbn [andb Sql.withAuthors Authors].
    unfold Sql.authorIds in H. cbn [Authors] in H.
    now rewrite (filter_absent Author.AuthorId au id H).
  - unfold Sql.deleteCategory. rewrite H. cbn [andb Sql.withCategories Categories].
    unfold Sql.categoryIds in H. cbn [Categories] in H.
    now rewrite (filter_absent Category.CategoryId ca id H).
  - unfold Sql.deletePost. now rewrite H.
  - unfold Sql.deleteTag. now rewrite H.
  - unfold Sql.deleteComment. cbn [Sql.withComments Comments].
    unfold Sql.commentIds in H. cbn [Comments] in H.
    now rewrite (filter_absent Comment.CommentId co id H).
Qed.

Lemma delete_response (rt : Runtime) (r : Resource) (id : PathId) (z : Z) (request : Request)
    (w : World) (s' : Store) :
  truthyId id = Some z ->
  deleteStatement r z (db w) = Some (tt, s') ->
  handlerOf rt r (js "DELETE") id request w
  = (Ok (createSuccessResponse (Message (deletedMessage r))),
     {| db := s'; reads := reads w |}).
Proof.
  intros Hid Hdel.
  destruct r; cbn [handlerOf deleteStatement deletedMessage] in *;
    unfold handleBlogs, handleAuthors, handleCategories, handlePosts, handleTags,
      handleComments, isMethod; literal_tests; cbv iota; rewrite Hid;
    unfold bind, exec; rewrite Hdel; reflexivity.
Qed.

(** C9, as the code has it.  A DELETE /api/{resource}/{id} with a nonzero
    integer id is answered with the confirmation message and status 200
    whenever the database accepts the DELETE statement, with no check that
    the row exists: for an id that no row has the statement is always
    accepted and changes nothing, and the response is the same as for a
    row that was there.  (A DELETE that a foreign key of the schema
    rejects is not covered: it is answered 500.) *)
Theorem delete_reports_success (rt : Runtime) (r : Resource) (seg : jsstring) (id : Z)
    (request : Request) (w : World) :
  method request = js "DELETE" ->
  pathname request = resourcePath (js (resourceName r)) seg ->
  isSegment seg = true ->
  parseInt seg = Some id ->
  id <> 0%Z ->
  rowExists r id (db w) = false \/ deleteStatement r id (db w) <> None ->
  exists w',
    handleRequest rt request w
    = (Ok (createSuccessResponse (Message (deletedMessage r))), w')
    /\ (rowExists r id (db w) = false -> w' = w).
Proof.
  intros Hm Hpath Hseg Hparse Hid Hok.
  pose proof (pathId_truthy (js "api") (js (resourceName r)) seg id Hseg Hparse Hid) as Hpid.
  assert (Hdel : exists s', deleteStatement r id (db w) = Some (tt, s')
                            /\ (rowExists r id (db w) = false -> s' = db w)).
  { destruct (rowExists r id (db w)) eqn:Hex.
    - destruct Hok as [Hok|Hok]; [discriminate|].
      destruct (deleteStatement r id (db w)) as [[[] s']|]; [|contradiction].
      exists s'. split; [reflexivity | discriminate].
    - exists (db w). split; [now apply delete_absent | reflexivity]. }
  destruct Hdel as (s' & Hdel & Hsame).
  exists {| db := s'; reads := reads w |}. split.
  - rewrite (route rt r seg request w Hpath Hseg), Hm. unfold catch.
    now rewrite (delete_response rt r _ id request w s' Hpid Hdel).
  - intros Hex. rewrite (Hsame Hex). apply world_eta.
Qed.

(** *** PUT *)

Lemma publishedAtOf_db (rt : Runtime) (data : Json.t) (w : World) :
  exists v n, publishedAtOf rt data w = (Ok v, {| db := db w; reads := n |}).
Proof.
  unfold publishedAtOf. destruct (_ && _).
  - eexists _, _. reflexivity.
  - exists (Json.PublishedAt data), (reads w). unfold ret. now rewrite world_eta.
Qed.

Lemma isSome_inv {A} (o : option A) : isSome o = true -> exists a, o = Some a.
Proof. destruct o; [eauto | discriminate]. Qed.

(** The checks of a post body pass when the rows it refers to exist. *)
Lemma checkPostRefs_ok (data : Json.t) (blogId : Z) (w : World) :
  Sql.postRefsOk blogId (truthyZ (Json.AuthorId data)) (truthyZ (Json.CategoryId data)) (db w)
  = true ->
  checkPostRefs data blogId w = (Ok None, w).
Proof.
  unfold Sql.postRefsOk, checkPostRefs. intros H.
  apply andb_true_iff in H as [H Hc]. apply andb_true_iff in H as [Hb Ha].
  destruct (find_present Blog.BlogId (Blogs (db w)) blogId Hb) as [b Eb].
  unfold bind, query, Sql.selectBlog. rewrite Eb.
  destruct (truthyZ (Json.AuthorId data)) as [a|].
  - destruct (find_present Author.AuthorId (Authors (db w)) a Ha) as [ra Ea].
    unfold Sql.selectAuthorRow. rewrite Ea. cbn [isSome negb].
    destruct (truthyZ (Json.CategoryId data)) as [c|]; [|reflexivity].
    destruct (find_present Category.CategoryId (Categories (db w)) c Hc) as [rc Ec].
    unfold Sql.selectCategoryRow. now rewrite Ec.
  - cbn [ret negb].
    destruct (truthyZ (Json.CategoryId data)) as [c|]; [|reflexivity].
    destruct (find_present Category.CategoryId (Categories (db w)) c Hc) as [rc Ec].
    unfold Sql.selectCategoryRow. now rewrite Ec.
Qed.

Lemma exec_same {A} (f : Store -> option (A * Store)) (w : World) (a : A) :
  f (db w) = Some (a, db w) -> exec f w = (Ok a, w).
Proof. intros H. unfold exec. rewrite H. now rewrite world_eta. Qed.

Lemma query_run {A} (f : Store -> A) (w : World) (a : A) :
  f (db w) = a -> query f w = (Ok a, w).
Proof. intros <-. reflexivity. Qed.

(** An UPDATE by a key that no row has is accepted and changes nothing, and
    the read that follows finds no row. *)
Lemma update_absent (r : Resource) (id : Z) (s : Store) :
  rowExists r id s = false ->
  match r with
  | RBlogs =>
      (forall n sl d u, Sql.updateBlog id n sl d u s = Some (tt, s))
      /\ Sql.selectBlog id s = None
  | RAuthors =>
      (forall b n e p bi, Sql.updateAuthor id b n e p bi s = Some (tt, s))
      /\ Sql.selectAuthor id s = None
  | RCategories =>
      (forall b n sl, Sql.updateCategory id b n sl s = Some (tt, s))
      /\ Sql.selectCategory id s = None
  | RPosts =>
      (forall row, Sql.updatePost id row s = Some (tt, s)) /\ Sql.selectPost id s = None
  | RTags =>
      (forall n, Sql.updateTag id n s = Some (tt, s)) /\ Sql.selectTag id s = None
  | RComments =>
      (forall row, Sql.updateComment id row s = Some (tt, s))
      /\ Sql.selectComment id s = None
  end.
Proof.
  destruct s as [bl au ca po ta pt co]. unfold rowExists.
  destruct r; intros H; split; intros.
  - unfold Sql.updateBlog. rewrite H. unfold Sql.blogIds in H. simpl in *.
    now rewrite (map_absent Blog.BlogId _ bl id H).
  - unfold Sql.selectBlog. apply (find_absent Blog.BlogId bl id H).
  - unfold Sql.updateAuthor, Sql.withAuthors. rewrite H. unfold Sql.authorIds in H.
    simpl in *. now rewrite (map_absent Author.AuthorId _ au id H).
  - unfold Sql.selectAuthor, Sql.selectAuthorRow. simpl.
    now rewrite (find_absent Author.AuthorId au id H).
  - unfold Sql.updateCategory, Sql.withCategories. rewrite H. unfold Sql.categoryIds in H.
    simpl in *. now rewrite (map_absent Category.CategoryId _ ca id H).
  - unfold Sql.selectCategory, Sql.selectCategoryRow. simpl.
    now rewrite (find_absent Category.CategoryId ca id H).
  - unfold Sql.updatePost, Sql.withPosts. rewrite H. unfold Sql.postIds in H.
    simpl in *. now rewrite (map_absent Post.PostId _ po id H).
  - unfold Sql.selectPost, Sql.selectPostRow. simpl.
    now rewrite (find_absent Post.PostId po id H).
  - unfold Sql.updateTag, Sql.withTags. rewrite H. unfold Sql.tagIds in H.
    simpl in *. now rewrite (map_absent Tag.TagId _ ta id H).
  - unfold Sql.selectTag, Sql.selectTagRow. simpl.
    now rewrite (find_absent Tag.TagId ta id H).
  - unfold Sql.updateComment, Sql.withComments. rewrite H. unfold Sql.commentIds in H.
    simpl in *. now rewrite (map_absent Comment.CommentId _ co id H).
  - unfold Sql.selectComment, Sql.selectCommentRow. simpl.
    now rewrite (find_absent Comment.CommentId co id H).
Qed.

Tactic Notation "run_step" uconstr(H) := erewrite (bind_ok _ _ _ _ _ H).

Lemma put_response (rt : Runtime) (r : Resource) (id : PathId) (z : Z) (request : Request)
    (data : Json.t) (w : World) :
  truthyId id = Some z ->
  body request = Some data ->
  rowExists r z (db w) = false ->
  putAccepted r z data (db w) = true ->
  exists n,
    handlerOf rt r (js "PUT") id request w
    = (Ok (createSuccessResponse Null), {| db := db w; reads := n |}).
Proof.
  intros Hid Hbody Hex Hok.
  pose proof (update_absent r z (db w) Hex) as Hup.
  destruct r; cbn [handlerOf putAccepted] in *;
    unfold handleBlogs, handleAuthors, handleCategories, handlePosts, handleTags,
      handleComments, isMethod; literal_tests; cbv iota; rewrite Hid;
    unfold json; rewrite Hbody; cbv iota; rewrite bind_ret.
  - (* blogs *)
    apply andb_true_iff in Hok as [Hn Hs].
    apply isSome_inv in Hn as [name ->]. apply isSome_inv in Hs as [slug ->].
    exists (reads w). rewrite world_eta.
    run_step (exec_same _ w tt (proj1 Hup _ _ _ _)).
    run_step (query_run _ w _ (proj2 Hup)).
    reflexivity.
  - (* authors *)
    apply andb_true_iff in Hok as [Hn Hb]. apply isSome_inv in Hn as [name ->].
    destruct (truthyZ (Json.BlogId data)) as [b|]; [|discriminate].
    destruct (find_present Blog.BlogId (Blogs (db w)) b Hb) as [rb Eb].
    exists (reads w). rewrite world_eta.
    run_step (query_run _ w _ Eb).
    run_step (exec_same _ w tt (proj1 Hup _ _ _ _ _)).
    run_step (query_run _ w _ (proj2 Hup)).
    reflexivity.
  - (* categories *)
    apply andb_true_iff in Hok as [Hn Hb]. apply isSome_inv in Hn as [name ->].
    destruct (truthyZ (Json.BlogId data)) as [b|]; [|discriminate].
    destruct (find_present Blog.BlogId (Blogs (db w)) b Hb) as [rb Eb].
    exists (reads w). rewrite world_eta.
    run_step (query_run _ w _ Eb).
    run_step (exec_same _ w tt (proj1 Hup _ _ _)).
    run_step (query_run _ w _ (proj2 Hup)).
    reflexivity.
  - (* posts *)
    apply andb_true_iff in Hok as [Hok Htags]. apply andb_true_iff in Hok as [Hok Hrefs].
    apply andb_true_iff in Hok as [Ht Hs].
    apply isSome_inv in Ht as [title ->]. apply isSome_inv in Hs as [slug ->].
    destruct (truthyZ (Json.BlogId data)) as [b|]; [|discriminate].
    destruct (Json.tags data); try discriminate Htags.
    run_step (checkPostRefs_ok data b w Hrefs).
    unfold getCurrentTimestamp at 1, readClock at 1. rewrite bind_ret.
    rewrite (bind_ok _ _ w {| db := db w; reads := S (reads w) |}
               (toISOString rt (Date_now rt (reads w))) eq_refl).
    destruct (publishedAtOf_db rt data {| db := db w; reads := S (reads w) |})
      as (v & n & Hpub).
    run_step Hpub. cbn [db] in *.
    exists n. set (w2 := {| db := db w; reads := n |}).
    run_step (exec_same _ w2 tt (proj1 Hup _)).
    run_step (query_run _ w2 _ (proj2 Hup)).
    reflexivity.
  - (* tags *)
    destruct (truthyS (Json.Name data)) as [name|]; [|discriminate].
    apply negb_true_iff in Hok.
    destruct (Sql.selectTagByName name (Some z) (db w)) eqn:Et; [discriminate|].
    exists (reads w). rewrite world_eta.
    run_step (query_run _ w _ Et).
    run_step (exec_same _ w tt (proj1 Hup _)).
    run_step (query_run _ w _ (proj2 Hup)).
    reflexivity.
  - (* comments *)
    apply andb_true_iff in Hok as [Hc Hp]. apply isSome_inv in Hc as [content ->].
    destruct (truthyZ (Json.PostId data)) as [p|]; [|discriminate].
    destruct (find_present Post.PostId (Posts (db w)) p Hp) as [rp Ep].
    exists (reads w). rewrite world_eta.
    run_step (query_run _ w _ Ep).
    run_step (exec_same _ w tt (proj1 Hup _)).
    run_step (query_run _ w _ (proj2 Hup)).
    reflexivity.
Qed.

(** C6, as the code has it.  A PUT /api/{resource}/{id} whose nonzero id
    identifies no row is not answered with a not-found error for that id:
    when the body passes the checks that the handler makes before it
    writes (the same required properties as POST, the referenced parent
    rows exist, no other tag has the name; for a post, no tags property:
    tags is undefined), the UPDATE matches no row, nothing in the database
    changes, and the response is status 200 with the body null.  (A post
    body with tags: null is answered 500: line 644 tests
    [tags !== undefined], the links of the id are deleted and the length
    of null is read.) *)
Theorem put_absent_id_succeeds (rt : Runtime) (r : Resource) (seg : jsstring) (id : Z)
    (request : Request) (data : Json.t) (w : World) :
  method request = js "PUT" ->
  pathname request = resourcePath (js (resourceName r)) seg ->
  body request = Some data ->
  isSegment seg = true ->
  parseInt seg = Some id ->
  id <> 0%Z ->
  rowExists r id (db w) = false ->
  putAccepted r id data (db w) = true ->
  exists w',
    handleRequest rt request w = (Ok {| status := 200; payload := Null |}, w')
    /\ db w' = db w.
Proof.
  intros Hm Hpath Hbody Hseg Hparse Hid Hex Hok.
  pose proof (pathId_truthy (js "api") (js (resourceName r)) seg id Hseg Hparse Hid) as Hpid.
  destruct (put_response rt r _ id request data w Hpid Hbody Hex Hok) as [n Hput].
  exists {| db := db w; reads := n |}. split; [|reflexivity].
  rewrite (route rt r seg request w Hpath Hseg), Hm. unfold catch.
  now rewrite Hput.
Qed.

(** C6 as stated fails: on the empty database, where no blog has the id 5,
    PUT /api/blogs/5 with a Name and a Slug is answered 200 with the body
    null; it is not answered with a not-found error. *)
Lemma put_claim_counterexample :
  let request :=
    plainRequest "PUT" "/api/blogs/5" (Some (blogBody (js "My blog") (js "my-blog"))) in
  rowExists RBlogs 5 emptyStore = false
  /\ handleRequest Sample.runtime request (Sample.world emptyStore)
     = (Ok {| status := 200; payload := Null |}, Sample.world emptyStore)
  /\ forall message w',
       handleRequest Sample.runtime request (Sample.world emptyStore)
       <> (Ok (createErrorResponse message 404), w').
Proof.
  cbv zeta.
  assert (Hrun : handleRequest Sample.runtime
                   (plainRequest "PUT" "/api/blogs/5"
                      (Some (blogBody (js "My blog") (js "my-blog"))))
                   (Sample.world emptyStore)
                 = (Ok {| status := 200; payload := Null |}, Sample.world emptyStore))
    by (vm_compute; reflexivity).
  split; [reflexivity | split; [exact Hrun|]].
  intros message w' H. rewrite Hrun in H. discriminate H.
Qed.

(** C9 as stated fails: the author that the ingestion created has a post,
    [Posts.AuthorId] refers to it with no ON DELETE action, so the DELETE of
    /api/authors/1 is rejected: the request is answered 500, not with the
    confirmation message, and nothing is deleted. *)
Lemma delete_claim_counterexample :
  let request := plainRequest "DELETE" "/api/authors/1" None in
  parseInt (js "1") = Some 1%Z
  /\ rowExists RAuthors 1 (db afterIngestion) = true
  /\ handleRequest Sample.runtime request afterIngestion
     = (Ok {| status := 500; payload := Error "Internal server error" |}, afterIngestion)
  /\ forall w',
       handleRequest Sample.runtime request afterIngestion
       <> (Ok (createSuccessResponse (Message (deletedMessage RAuthors))), w').
Proof.
  cbv zeta.
  assert (Hrun : handleRequest Sample.runtime (plainRequest "DELETE" "/api/authors/1" None)
                   afterIngestion
                 = (Ok {| status := 500; payload := Error "Internal server error" |},
                    afterIngestion))
    by (vm_compute; reflexivity).
  split; [reflexivity | split; [vm_compute; reflexivity | split; [exact Hrun|]]].
  intros w' H. rewrite Hrun in H. discriminate H.
Qed.

(** ** Running the ingestion twice *)

Lemma readClock_run (rt : Runtime) (w : World) :
  readClock rt w = (Ok (Date_now rt (reads w)), {| db := db w; reads := S (reads w) |}).
Proof. reflexivity. Qed.

Lemma getCurrentTimestamp_run (rt : Runtime) (w : World) :
  getCurrentTimestamp rt w
  = (Ok (toISOString rt (Date_now rt (reads w))), {| db := db w; reads := S (reads w) |}).
Proof. reflexivity. Qed.

Lemma exec_run {A} (f : Store -> option (A * Store)) (w : World) (a : A) (s' : Store) :
  f (db w) = Some (a, s') -> exec f w = (Ok a, {| db := s'; reads := reads w |}).
Proof. intros H. unfold exec. now rewrite H. Qed.

Lemma exec_inv {A} (f : Store -> option (A * Store)) (w w' : World) (a : A) :
  exec f w = (Ok a, w') -> f (db w) = Some (a, db w').
Proof.
  unfold exec. destruct (f (db w)) as [[a' s']|]; [|discriminate].
  intros H. injection H as <- <-. reflexivity.
Qed.

Lemma find_key {A} (p : A -> bool) (key : A -> Z) (l : list A) (r : A) :
  find p l = Some r -> Sql.hasId (map key l) (key r) = true.
Proof.
  intros H. apply find_some in H as [Hin _]. apply hasId_In. now apply in_map.
Qed.

(** The loop inserts one post per entry that is not blank, in order, and
    touches no other table. *)
Lemma createPosts_ok (rt : Runtime) (blog : Blog.t) (author : Author.t)
    (category : Category.t) (postTexts : list jsstring) :
  forall i createdPosts w,
    Sql.hasId (Sql.blogIds (db w)) (Blog.BlogId blog) = true ->
    Sql.hasId (Sql.authorIds (db w)) (Author.AuthorId author) = true ->
    Sql.hasId (Sql.categoryIds (db w)) (Category.CategoryId category) = true ->
    exists created w' newPosts,
      createPosts rt blog author category postTexts i createdPosts w = (Ok created, w')
      /\ Blogs (db w') = Blogs (db w) /\ Authors (db w') = Authors (db w)
      /\ Categories (db w') = Categories (db w)
      /\ Posts (db w') = Posts (db w) ++ newPosts
      /\ map Post.Content newPosts = map (fun entry => Some (trim entry)) (nonBlank postTexts)
      /\ length created = (length createdPosts + length (nonBlank postTexts))%nat.
Proof.
  induction postTexts as [|entry rest IH]; intros i createdPosts w Hb Ha Hc.
  - exists createdPosts, w, []. cbn. rewrite app_nil_r, Nat.add_0_r. auto 10.
  - cbn [createPosts nonBlank filter]. destruct (isEmpty (trim entry)) eqn:Hblank.
    + cbn [negb]. exact (IH (S i) createdPosts w Hb Ha Hc).
    + cbn [negb].
      run_step (readClock_run rt w).
      run_step (getCurrentTimestamp_run rt _).
      set (row := simplePostRow rt blog author category i (trim entry) _ _).
      set (w2 := {| db := db _; reads := _ |}).
      assert (Hins : Sql.insertPost row (db w2) <> None).
      { unfold Sql.insertPost, Sql.postRefsOk. subst row w2. cbn [db simplePostRow
          Post.BlogId Post.AuthorId Post.CategoryId]. now rewrite Hb, Ha, Hc. }
      destruct (Sql.insertPost row (db w2)) as [[id s3]|] eqn:Eins; [clear Hins|contradiction].
      run_step (exec_run _ w2 id s3 Eins).
      set (w3 := {| db := s3; reads := _ |}).
      run_step (query_run _ w3 _ eq_refl).
      unfold Sql.insertPost in Eins. destruct (negb _); [discriminate|].
      injection Eins as <- <-. subst w2. cbn [db] in *.
      destruct (IH (S i) (createdPosts ++ [Sql.selectPost (Sql.nextId (Sql.postIds (db w)))
                                             (db w3)]) w3)
        as (created & w' & newPosts & Hrun & HB & HA & HC & HP & Hcontent & Hlen);
        try assumption.
      exists created, w'. eexists (_ :: newPosts).
      split; [exact Hrun|]. rewrite HB, HA, HC, HP.
      repeat split.
      * subst w3. cbn. now rewrite <- app_assoc.
      * cbn. now rewrite Hcontent.
      * rewrite Hlen, length_app. cbn [length]. fold (nonBlank rest). lia.
Qed.

Lemma route_simple (rt : Runtime) (request : Request) (w : World) :
  method request = js "POST" -> pathname request = js "/api/simple" ->
  handleRequest rt request w
  = catch (simplePost rt request) (createErrorResponse "Failed to create posts" 500) w.
Proof.
  intros Hm Hp.
  assert (Hseg : pathSegments request = [js "api"; js "simple"])
    by (apply pathSegments_collection; [exact Hp | reflexivity]).
  unfold handleRequest. rewrite Hseg, Hm.
  cbn [nth_error isResource]. literal_tests. cbv iota.
  unfold handleSimplePost, isMethod. literal_tests. cbv iota.
  unfold catch. destruct (simplePost rt request w) as [[r|] w']; reflexivity.
Qed.

Lemma findOrCreateBlog_found rt url w b :
  Sql.selectBlogByUrl url (db w) = Some b -> findOrCreateBlog rt url w = (Ok (Some b), w).
Proof. intros H. unfold findOrCreateBlog. run_step (query_run _ w _ H). reflexivity. Qed.

Lemma findOrCreateAuthor_found rt blog url w a :
  Sql.selectAuthorOfBlog (Blog.BlogId blog) (db w) = Some a ->
  findOrCreateAuthor rt blog url w = (Ok (Some a), w).
Proof. intros H. unfold findOrCreateAuthor. run_step (query_run _ w _ H). reflexivity. Qed.

Lemma findOrCreateCategory_found blog w c :
  Sql.selectCategoryOfBlog (Blog.BlogId blog) (db w) = Some c ->
  findOrCreateCategory blog w = (Ok (Some c), w).
Proof. intros H. unfold findOrCreateCategory. run_step (query_run _ w _ H). reflexivity. Qed.

(** The blog that the workflow resolved is the one that a later lookup by
    the same Url finds. *)
Lemma findOrCreateBlog_result rt url w b w' :
  findOrCreateBlog rt url w = (Ok (Some b), w') ->
  Sql.selectBlogByUrl url (db w') = Some b.
Proof.
  unfold findOrCreateBlog. intros H.
  destruct (Sql.selectBlogByUrl url (db w)) as [b0|] eqn:E.
  - rewrite (bind_ok _ _ _ _ _ (query_run _ w _ E)) in H.
    injection H as <- <-. exact E.
  - rewrite (bind_ok _ _ _ _ _ (query_run _ w _ E)) in H.
    unfold hostnameOf in H. destruct (URL_hostname rt url) as [h|]; [|discriminate H].
    rewrite bind_ret in H.
    rewrite (bind_ok _ _ _ _ _ (getCurrentTimestamp_run rt w)) in H.
    apply bind_inv in H as (id & w2 & Hins & Hread).
    apply exec_inv in Hins. injection Hread as Hread <-.
    unfold Sql.insertBlog in Hins. destruct (Sql.slugTaken _ _ _); [discriminate|].
    injection Hins as <- Hdb. cbn [db] in Hdb. rewrite <- Hdb in *.
    unfold Sql.selectBlog, Sql.blogIds in Hread. cbn [Blogs] in Hread.
    rewrite find_appended in Hread by reflexivity. injection Hread as <-.
    unfold Sql.selectBlogByUrl in *. cbn [Blogs].
    rewrite (find_app_none _ _ _ E). cbn. now rewrite eqb_refl.
Qed.

Lemma findOrCreateAuthor_result rt blog url w a w' :
  findOrCreateAuthor rt blog url w = (Ok (Some a), w') ->
  Sql.selectAuthorOfBlog (Blog.BlogId blog) (db w') = Some a
  /\ Blogs (db w') = Blogs (db w).
Proof.
  unfold findOrCreateAuthor. intros H.
  destruct (Sql.selectAuthorOfBlog (Blog.BlogId blog) (db w)) as [a0|] eqn:E.
  - rewrite (bind_ok _ _ _ _ _ (query_run _ w _ E)) in H.
    injection H as <- <-. auto.
  - rewrite (bind_ok _ _ _ _ _ (query_run _ w _ E)) in H.
    unfold hostnameOf in H. destruct (URL_hostname rt url) as [h|]; [|discriminate H].
    rewrite bind_ret in H.
    rewrite (bind_ok _ _ _ _ _ (getCurrentTimestamp_run rt w)) in H.
    apply bind_inv in H as (id & w2 & Hins & Hread).
    apply exec_inv in Hins. injection Hread as Hread <-.
    unfold Sql.insertAuthor in Hins. destruct (negb _); [discriminate|].
    injection Hins as <- Hdb. cbn [db] in Hdb. rewrite <- Hdb in *.
    unfold Sql.selectAuthorRow, Sql.authorIds, Sql.withAuthors in Hread.
    cbn [Authors] in Hread.
    rewrite find_appended in Hread by reflexivity. injection Hread as <-.
    split; [|reflexivity].
    unfold Sql.selectAuthorOfBlog in *. cbn [Authors Sql.withAuthors].
    rewrite (find_app_none _ _ _ E). cbn. now rewrite Z.eqb_refl.
Qed.

Lemma findOrCreateCategory_result blog w c w' :
  findOrCreateCategory blog w = (Ok (Some c), w') ->
  Sql.selectCategoryOfBlog (Blog.BlogId blog) (db w') = Some c
  /\ Blogs (db w') = Blogs (db w) /\ Authors (db w') = Authors (db w).
Proof.
  unfold findOrCreateCategory. intros H.
  destruct (Sql.selectCategoryOfBlog (Blog.BlogId blog) (db w)) as [c0|] eqn:E.
  - rewrite (bind_ok _ _ _ _ _ (query_run _ w _ E)) in H.
    injection H as <- <-. auto.
  - rewrite (bind_ok _ _ _ _ _ (query_run _ w _ E)) in H.
    apply bind_inv in H as (id & w2 & Hins & Hread).
    apply exec_inv in Hins. injection Hread as Hread <-.
    unfold Sql.insertCategory in Hins. destruct (negb _); [discriminate|].
    injection Hins as <- Hdb. rewrite <- Hdb in *.
    unfold Sql.selectCategoryRow, Sql.categoryIds, Sql.withCategories in Hread.
    cbn [Categories] in Hread.
    rewrite find_appended in Hread by reflexivity. injection Hread as <-.
    split; [|split; reflexivity].
    unfold Sql.selectCategoryOfBlog in *. cbn [Categories Sql.withCategories].
    rewrite (find_app_none _ _ _ E). cbn. now rewrite Z.eqb_refl.
Qed.

Lemma resolved_ext blogUrl blog author category s s' :
  Blogs s' = Blogs s -> Authors s' = Authors s -> Categories s' = Categories s ->
  resolved blogUrl blog author category s -> resolved blogUrl blog author category s'.
Proof.
  unfold resolved, Sql.selectBlogByUrl, Sql.selectAuthorOfBlog, Sql.selectCategoryOfBlog.
  now intros -> -> ->.
Qed.

Lemma resolved_keys blogUrl blog author category s :
  resolved blogUrl blog author category s ->
  Sql.hasId (Sql.blogIds s) (Blog.BlogId blog) = true
  /\ Sql.hasId (Sql.authorIds s) (Author.AuthorId author) = true
  /\ Sql.hasId (Sql.categoryIds s) (Category.CategoryId category) = true.
Proof.
  intros (Hb & Ha & Hc). repeat split.
  - exact (find_key _ Blog.BlogId _ _ Hb).
  - exact (find_key _ Author.AuthorId _ _ Ha).
  - exact (find_key _ Category.CategoryId _ _ Hc).
Qed.

(** From a database where the lookups succeed, the workflow creates no
    blog, author or category, and one post per entry that is not blank. *)
Lemma simplePost_resolved rt request data blogUrl postTexts blog author category w :
  body request = Some data ->
  Json.blogUrl data = Some blogUrl ->
  Json.postTexts data = TextArray postTexts ->
  blogUrl <> [] ->
  resolved blogUrl blog author category (db w) ->
  exists response w' newPosts,
    simplePost rt request w = (Ok response, w')
    /\ Blogs (db w') = Blogs (db w) /\ Authors (db w') = Authors (db w)
    /\ Categories (db w') = Categories (db w)
    /\ Posts (db w') = Posts (db w) ++ newPosts
    /\ map Post.Content newPosts = map (fun entry => Some (trim entry)) (nonBlank postTexts)
    /\ status response = match postTexts with [] => 400%Z | _ => 200%Z end.
Proof.
  intros Hbody Hurl Htexts Hne Hres.
  unfold simplePost, json. rewrite Hbody. cbv iota. rewrite bind_ret, Hurl, Htexts.
  destruct blogUrl as [|c url]; [contradiction|]. cbn [truthyS].
  destruct postTexts as [|entry rest].
  - exists (createErrorResponse "At least one post text is required" 400), w, [].
    cbn. rewrite app_nil_r. auto 10.
  - cbn [length Nat.eqb].
    destruct Hres as (Hb & Ha & Hc).
    run_step (findOrCreateBlog_found rt _ w blog Hb).
    run_step (findOrCreateAuthor_found rt blog _ w author Ha).
    run_step (findOrCreateCategory_found blog w category Hc).
    destruct (resolved_keys _ _ _ _ _ (conj Hb (conj Ha Hc))) as (Kb & Ka & Kc).
    destruct (createPosts_ok rt blog author category (entry :: rest) 0 [] w Kb Ka Kc)
      as (created & w' & newPosts & Hrun & HB & HA & HC & HP & Hcontent & _).
    run_step Hrun.
    eexists _, w', newPosts. split; [reflexivity|]. auto 10.
Qed.

(** A run that answers 200 went through all the lookups, and they succeed
    in the database it leaves. *)
Lemma simplePost_success rt request data blogUrl postTexts response w w' :
  body request = Some data ->
  Json.blogUrl data = Some blogUrl ->
  Json.postTexts data = TextArray postTexts ->
  simplePost rt request w = (Ok response, w') ->
  status response = 200%Z ->
  blogUrl <> []
  /\ exists blog author category, resolved blogUrl blog author category (db w').
Proof.
  intros Hbody Hurl Htexts Hrun Hstatus.
  unfold simplePost, json in Hrun. rewrite Hbody in Hrun. cbv iota in Hrun.
  rewrite bind_ret, Hurl, Htexts in Hrun.
  destruct blogUrl as [|c url];
    [injection Hrun as <- _; discriminate Hstatus|]. cbn [truthyS] in Hrun.
  split; [discriminate|].
  destruct (length postTexts =? 0)%nat; [injection Hrun as <- _; discriminate Hstatus|].
  apply bind_inv in Hrun as ([blog|] & wA & HA & Hrun);
    [|injection Hrun as <- _; discriminate Hstatus].
  apply bind_inv in Hrun as ([author|] & wB & HB & Hrun);
    [|injection Hrun as <- _; discriminate Hstatus].
  apply bind_inv in Hrun as ([category|] & wC & HC & Hrun);
    [|injection Hrun as <- _; discriminate Hstatus].
  apply bind_inv in Hrun as (created & wD & HD & Hrun). injection Hrun as _ <-.
  apply findOrCreateBlog_result in HA.
  apply findOrCreateAuthor_result in HB as (HB & HB1).
  apply findOrCreateCategory_result in HC as (HC & HC1 & HC2).
  assert (Hres : resolved (c :: url) blog author category (db wC)).
  { repeat split; [|
      unfold Sql.selectAuthorOfBlog in *; now rewrite HC2 | exact HC].
    unfold Sql.selectBlogByUrl in *. now rewrite HC1, HB1. }
  destruct (resolved_keys _ _ _ _ _ Hres) as (Kb & Ka & Kc).
  destruct (createPosts_ok rt blog author category postTexts 0 [] wC Kb Ka Kc)
    as (created' & w'' & newPosts & Hrun' & EB & EA & EC & _).
  rewrite Hrun' in HD. injection HD as _ <-.
  exists blog, author, category. now apply (resolved_ext _ _ _ _ (db wC)).
Qed.

(** C4.  When a run of the ingestion workflow has succeeded, a second run
    with the same blogUrl, from the database that the first left, creates
    no Blog, Author or Category (the three tables are unchanged: the rows
    are found again by lookup), and appends one new Post for every entry
    of its postTexts that is not blank, in order, each with the trimmed
    entry as its Content; it is answered 200 (400 for an empty postTexts,
    which has no entry to insert). *)
Theorem second_ingestion_adds_only_posts (rt : Runtime) (blogUrl : jsstring)
    (postTexts1 postTexts2 : list jsstring) (request1 request2 : Request)
    (w w1 : World) (response1 : Response) :
  isSimpleRequest request1 blogUrl postTexts1 ->
  isSimpleRequest request2 blogUrl postTexts2 ->
  handleRequest rt request1 w = (Ok response1, w1) ->
  status response1 = 200%Z ->
  exists response2 w2 newPosts,
    handleRequest rt request2 w1 = (Ok response2, w2)
    /\ Blogs (db w2) = Blogs (db w1)
    /\ Authors (db w2) = Authors (db w1)
    /\ Categories (db w2) = Categories (db w1)
    /\ Posts (db w2) = Posts (db w1) ++ newPosts
    /\ map Post.Content newPosts = map (fun entry => Some (trim entry)) (nonBlank postTexts2)
    /\ length newPosts = length (nonBlank postTexts2)
    /\ status response2 = match postTexts2 with [] => 400%Z | _ => 200%Z end.
Proof.
  intros (Hm1 & Hp1 & data1 & Hb1 & Hu1 & Ht1) (Hm2 & Hp2 & data2 & Hb2 & Hu2 & Ht2)
    Hrun1 Hstatus.
  rewrite (route_simple rt request1 w Hm1 Hp1) in Hrun1. unfold catch in Hrun1.
  destruct (simplePost rt request1 w) as [[r|] w'] eqn:Hsimple;
    injection Hrun1 as <- <-; [|discriminate Hstatus].
  destruct (simplePost_success rt request1 data1 blogUrl postTexts1 r w w'
              Hb1 Hu1 Ht1 Hsimple Hstatus) as (Hne & blog & author & category & Hres).
  destruct (simplePost_resolved rt request2 data2 blogUrl postTexts2 blog author category w'
              Hb2 Hu2 Ht2 Hne Hres)
    as (response2 & w2 & newPosts & Hrun2 & HB & HA & HC & HP & Hcontent & Hstatus2).
  exists response2, w2, newPosts.
  rewrite (route_simple rt request2 w' Hm2 Hp2). unfold catch. rewrite Hrun2.
  repeat split; try assumption.
  rewrite <- (length_map Post.Content), Hcontent. apply length_map.
Qed.

(** ** The blog that the workflow creates *)

(** C3, as the code has it.  When no Blog has the blogUrl, so that the
    workflow must create one, and the hostname has no "www." other than a
    leading one, the Slug derived for the new Blog is the name candidate
    (hostname with leading "www." and final dot-extension segment stripped)
    lower-cased, with every character that is not a lower-case letter or a
    digit replaced by a hyphen, one hyphen per character: runs are not
    collapsed.  When another Blog already has that Slug the creation fails
    (the INSERT is rejected after the clock has been read) and nothing is
    written; otherwise the Blog is created with that Slug and the blogUrl
    as its Url. *)
Theorem created_blog_slug (rt : Runtime) (blogUrl hostname : jsstring) (w : World) :
  Sql.selectBlogByUrl blogUrl (db w) = None ->
  URL_hostname rt blogUrl = Some hostname ->
  wwwOnlyLeading hostname = true ->
  let slug :=
    map (fun c => if Claimed.isAlnum c then c else 45%N)
        (toLowerCase rt (Claimed.nameCandidate hostname)) in
  if Sql.slugTaken slug None (db w)
  then findOrCreateBlog rt blogUrl w = (Thrown, {| db := db w; reads := S (reads w) |})
  else exists blog w',
         findOrCreateBlog rt blogUrl w = (Ok (Some blog), w')
         /\ Blog.Slug blog = slug /\ Blog.Url blog = Some blogUrl
         /\ Blogs (db w') = Blogs (db w) ++ [blog].
Proof.
  intros Hnone Hhost Hwww slug.
  unfold findOrCreateBlog.
  run_step (query_run _ w _ Hnone).
  unfold hostnameOf. rewrite Hhost, bind_ret.
  run_step (getCurrentTimestamp_run rt w).
  unfold Synth.blogSlug. rewrite (blogName_candidate hostname Hwww).
  change (map (fun c => if isLower c || isDigit c then c else 45%N)
            (toLowerCase rt (Claimed.nameCandidate hostname))) with slug.
  set (w2 := {| db := db w; reads := S (reads w) |}).
  unfold bind, exec, Sql.insertBlog. change (db w2) with (db w).
  destruct (Sql.slugTaken slug None (db w)); [reflexivity|].
  unfold query, Sql.selectBlog, Sql.blogIds. cbn [db Blogs].
  rewrite find_appended by reflexivity.
  eexists _, _. split; [reflexivity|]. cbn [Blog.Slug Blog.Url db Blogs]. auto.
Qed.

(** ** The claims at concrete inputs *)

Lemma isoString_nonempty (t : Z) : Sample.isoString t <> [].
Proof.
  unfold Sample.isoString. destruct (Sample.civil _) as [[y m] d].
  intros H. apply app_eq_nil in H as [_ H]. discriminate H.
Qed.

(** C3 at https://www.my-blog.example.com on the empty database, where the
    slug is free, and at https://myblog.org on the database that holds the
    blog of https://myblog.com, which has the slug. *)
Lemma created_blog_slug_witness :
  let blogUrl := js "https://www.my-blog.example.com" in
  let hostname := js "www.my-blog.example.com" in
  let w := Sample.world emptyStore in
  Sql.selectBlogByUrl blogUrl (db w) = None
  /\ URL_hostname Sample.runtime blogUrl = Some hostname
  /\ wwwOnlyLeading hostname = true
  /\ (exists blog w',
        findOrCreateBlog Sample.runtime blogUrl w = (Ok (Some blog), w')
        /\ Blog.Slug blog = js "my-blog-example" /\ Blog.Url blog = Some blogUrl
        /\ Blogs (db w') = Blogs (db w) ++ [blog])
  /\ Sql.selectBlogByUrl (js "https://myblog.org") (db afterIngestion) = None
  /\ URL_hostname Sample.runtime (js "https://myblog.org") = Some (js "myblog.org")
  /\ wwwOnlyLeading (js "myblog.org") = true
  /\ Sql.slugTaken (js "myblog") None (db afterIngestion) = true
  /\ findOrCreateBlog Sample.runtime (js "https://myblog.org") afterIngestion
     = (Thrown, {| db := db afterIngestion; reads := S (reads afterIngestion) |}).
Proof.
  cbv zeta.
  assert (H1 : Sql.selectBlogByUrl (js "https://www.my-blog.example.com")
                 (db (Sample.world emptyStore)) = None) by reflexivity.
  assert (H2 : URL_hostname Sample.runtime (js "https://www.my-blog.example.com")
               = Some (js "www.my-blog.example.com")) by (vm_compute; reflexivity).
  assert (H3 : wwwOnlyLeading (js "www.my-blog.example.com") = true)
    by (vm_compute; reflexivity).
  assert (K1 : Sql.selectBlogByUrl (js "https://myblog.org") (db afterIngestion) = None)
    by (vm_compute; reflexivity).
  assert (K2 : URL_hostname Sample.runtime (js "https://myblog.org")
               = Some (js "myblog.org")) by (vm_compute; reflexivity).
  assert (K3 : wwwOnlyLeading (js "myblog.org") = true) by (vm_compute; reflexivity).
  assert (K4 : Sql.slugTaken (js "myblog") None (db afterIngestion) = true)
    by (vm_compute; reflexivity).
  refine (conj H1 (conj H2 (conj H3 (conj _ (conj K1 (conj K2 (conj K3 (conj K4 _)))))))).
  - exact (created_blog_slug Sample.runtime _ _ (Sample.world emptyStore) H1 H2 H3).
  - exact (created_blog_slug Sample.runtime _ _ afterIngestion K1 K2 K3).
Defined.

(** C4 at two runs for https://myblog.com from the empty database. *)
Lemma second_ingestion_witness :
  let blogUrl := js "https://myblog.com" in
  let postTexts1 := [js "Hello world. More text here."] in
  let postTexts2 := [js "   "; js "Valid post text."] in
  let request1 := simpleRequest blogUrl postTexts1 in
  let request2 := simpleRequest blogUrl postTexts2 in
  isSimpleRequest request1 blogUrl postTexts1
  /\ isSimpleRequest request2 blogUrl postTexts2
  /\ handleRequest Sample.runtime request1 (Sample.world emptyStore)
     = (Ok ingestionResponse, afterIngestion)
  /\ status ingestionResponse = 200%Z
  /\ exists response2 w2 newPosts,
       handleRequest Sample.runtime request2 afterIngestion = (Ok response2, w2)
       /\ Blogs (db w2) = Blogs (db afterIngestion)
       /\ Authors (db w2) = Authors (db afterIngestion)
       /\ Categories (db w2) = Categories (db afterIngestion)
       /\ Posts (db w2) = Posts (db afterIngestion) ++ newPosts
       /\ map Post.Content newPosts
          = map (fun entry => Some (trim entry)) (nonBlank postTexts2)
       /\ length newPosts = length (nonBlank postTexts2)
       /\ status response2 = 200%Z.
Proof.
  cbv zeta.
  assert (H1 : isSimpleRequest
                 (simpleRequest (js "https://myblog.com") [js "Hello world. More text here."])
                 (js "https://myblog.com") [js "Hello world. More text here."])
    by (split; [reflexivity | split; [reflexivity | eexists; repeat split]]).
  assert (H2 : isSimpleRequest
                 (simpleRequest (js "https://myblog.com") [js "   "; js "Valid post text."])
                 (js "https://myblog.com") [js "   "; js "Valid post text."])
    by (split; [reflexivity | split; [reflexivity | eexists; repeat split]]).
  assert (H3 : handleRequest Sample.runtime
                 (simpleRequest (js "https://myblog.com") [js "Hello world. More text here."])
                 (Sample.world emptyStore)
               = (Ok ingestionResponse, afterIngestion)) by (vm_compute; reflexivity).
  assert (H4 : status ingestionResponse = 200%Z) by (vm_compute; reflexivity).
  refine (conj H1 (conj H2 (conj H3 (conj H4 _)))).
  exact (second_ingestion_adds_only_posts Sample.runtime _ _ _ _ _ _ _ _ H1 H2 H3 H4).
Defined.

(** C5 at a body without blogUrl. *)
Lemma simple_rejects_invalid_body_witness :
  let request := plainRequest "POST" "/api/simple" (Some Json.empty) in
  method request = js "POST"
  /\ pathname request = js "/api/simple"
  /\ body request = Some Json.empty
  /\ (Json.blogUrl Json.empty = None \/ Json.postTexts Json.empty = Absent
      \/ Json.postTexts Json.empty = NotAnArray \/ Json.postTexts Json.empty = TextArray [])
  /\ exists message,
       handleRequest Sample.runtime request afterIngestion
       = (Ok (createErrorResponse message 400), afterIngestion).
Proof.
  cbv zeta.
  refine (conj eq_refl (conj eq_refl (conj eq_refl (conj (or_introl eq_refl) _)))).
  exact (simple_rejects_invalid_body Sample.runtime
           (plainRequest "POST" "/api/simple" (Some Json.empty)) Json.empty afterIngestion
           eq_refl eq_refl eq_refl (or_introl eq_refl)).
Defined.

(** C6 at PUT /api/blogs/5 on a database whose only blog has the id 1. *)
Lemma put_absent_id_witness :
  let data := blogBody (js "My blog") (js "my-blog") in
  let request := plainRequest "PUT" "/api/blogs/5" (Some data) in
  method request = js "PUT"
  /\ pathname request = resourcePath (js (resourceName RBlogs)) (js "5")
  /\ body request = Some data
  /\ isSegment (js "5") = true
  /\ parseInt (js "5") = Some 5%Z
  /\ 5%Z <> 0%Z
  /\ rowExists RBlogs 5 (db afterIngestion) = false
  /\ putAccepted RBlogs 5 data (db afterIngestion) = true
  /\ exists w',
       handleRequest Sample.runtime request afterIngestion
       = (Ok {| status := 200; payload := Null |}, w')
       /\ db w' = db afterIngestion.
Proof.
  cbv zeta.
  assert (Hid : 5%Z <> 0%Z) by discriminate.
  assert (Hex : rowExists RBlogs 5 (db afterIngestion) = false) by (vm_compute; reflexivity).
  refine (conj eq_refl (conj eq_refl (conj eq_refl (conj eq_refl (conj eq_refl
            (conj Hid (conj Hex (conj eq_refl _)))))))).
  exact (put_absent_id_succeeds Sample.runtime RBlogs (js "5") 5
           (plainRequest "PUT" "/api/blogs/5" (Some (blogBody (js "My blog") (js "my-blog"))))
           (blogBody (js "My blog") (js "my-blog")) afterIngestion
           eq_refl eq_refl eq_refl eq_refl eq_refl Hid Hex eq_refl).
Defined.

(** C7 at the database after one ingestion. *)
Lemma published_posts_witness :
  (forall t, toISOString Sample.runtime t <> [])
  /\ reachable Sample.runtime afterIngestion
  /\ publishedHasDate (db afterIngestion).
Proof.
  assert (Hreach : reachable Sample.runtime afterIngestion)
    by exact (@reach_step Sample.runtime _ _ (@reach_start Sample.runtime 0)).
  refine (conj isoString_nonempty (conj Hreach _)).
  exact (proj1 (published_posts_have_a_date Sample.runtime isoString_nonempty)
           afterIngestion Hreach).
Defined.

(** C8 at GET /api/blogs/abc. *)
Lemma falsy_id_witness :
  let request := plainRequest "GET" "/api/blogs/abc" None in
  isSegment (js "blogs") = true
  /\ isSegment (js "abc") = true
  /\ pathname request = resourcePath (js "blogs") (js "abc")
  /\ (parseInt (js "abc") = None \/ parseInt (js "abc") = Some 0%Z)
  /\ handleRequest Sample.runtime request afterIngestion
     = handleRequest Sample.runtime (withPath request (js "/api/" ++ js "blogs")) afterIngestion
  /\ handleRequest Sample.runtime request afterIngestion
     = (Ok (createSuccessResponse (BlogList (Sql.selectBlogs (db afterIngestion)))),
        afterIngestion).
Proof.
  cbv zeta.
  pose proof (falsy_id_is_no_id Sample.runtime (plainRequest "GET" "/api/blogs/abc" None)
                (js "blogs") (js "abc") afterIngestion
                eq_refl eq_refl eq_refl (or_introl eq_refl)) as [Hsame Hget].
  refine (conj eq_refl (conj eq_refl (conj eq_refl (conj (or_introl eq_refl)
            (conj Hsame _))))).
  exact (Hget RBlogs eq_refl eq_refl).
Defined.

(** C9 at DELETE /api/authors/99, an id that no author has. *)
Lemma delete_reports_success_witness :
  let request := plainRequest "DELETE" "/api/authors/99" None in
  method request = js "DELETE"
  /\ pathname request = resourcePath (js (resourceName RAuthors)) (js "99")
  /\ isSegment (js "99") = true
  /\ parseInt (js "99") = Some 99%Z
  /\ 99%Z <> 0%Z
  /\ (rowExists RAuthors 99 (db afterIngestion) = false
      \/ deleteStatement RAuthors 99 (db afterIngestion) <> None)
  /\ exists w',
       handleRequest Sample.runtime request afterIngestion
       = (Ok (createSuccessResponse (Message (deletedMessage RAuthors))), w')
       /\ (rowExists RAuthors 99 (db afterIngestion) = false -> w' = afterIngestion).
Proof.
  cbv zeta.
  assert (Hid : 99%Z <> 0%Z) by discriminate.
  assert (Hex : rowExists RAuthors 99 (db afterIngestion) = false)
    by (vm_compute; reflexivity).
  refine (conj eq_refl (conj eq_refl (conj eq_refl (conj eq_refl
            (conj Hid (conj (or_introl Hex) _)))))).
  exact (delete_reports_success Sample.runtime RAuthors (js "99") 99
           (plainRequest "DELETE" "/api/authors/99" None) afterIngestion
           eq_refl eq_refl eq_refl eq_refl Hid (or_introl Hex)).
Defined.

(** * Further properties

    Properties of the code that the specification does not state. *)

(** ** Decimal renderings *)


Lemma digits_of_uint (d : Decimal.uint) :
  Forall (fun c => isDigit c = true) (js (NilEmpty.string_of_uint d)).
Proof. induction d; cbn; constructor; try reflexivity; assumption. Qed.

Lemma digits_of_uint0 (d : Decimal.uint) :
  Forall (fun c => isDigit c = true) (js (NilZero.string_of_uint d)).
Proof.
  destruct d; try apply digits_of_uint. cbn. constructor; [reflexivity | constructor].
Qed.



Lemma ofZ_chars (z : Z) : Forall (fun c => isDigitOrMinus c = true) (ofZ z).
Proof.
  assert (Hd : forall d, Forall (fun c => isDigitOrMinus c = true)
                           (js (NilZero.string_of_uint d))).
  { intros d. eapply Forall_impl; [|apply digits_of_uint0].
    intros c Hc. unfold isDigitOrMinus. now rewrite Hc. }
  unfold ofZ. destruct z; cbn [Z.to_int NilZero.string_of_int]; try apply Hd.
  change (js (String "-" (NilZero.string_of_uint (Pos.to_uint p))))
    with (45%N :: js (NilZero.string_of_uint (Pos.to_uint p))).
  constructor; [reflexivity | apply Hd].
Qed.

(** ** The slug of a post *)



Lemma Forall_replaceRuns (Q : N -> Prop) (p : N -> bool) (by_ s : jsstring) :
  Forall Q by_ -> Forall (fun c => p c = false -> Q c) s ->
  Forall Q (Synth.replaceRuns p by_ s).
Proof.
  intros Hby Hs. induction Hs as [|c r Hc Hr IH]; cbn; [constructor|].
  destruct (p c) eqn:E.
  - destruct r as [|c' r']; [exact Hby|].
    destruct (p c'); [exact IH | apply Forall_app; split; [exact Hby | exact IH]].
  - constructor; [now apply Hc | exact IH].
Qed.

(** X2.  A slug has only letters, digits, underscores and hyphens in it: no
    white space and nothing that a URL would have to escape. *)
Theorem slug_is_url_safe (rt : Runtime) (title : jsstring) (now : Z) (i : nat) :
  Forall (fun c => isSlugChar c = true) (Synth.slug rt title now i).
Proof.
  assert (Hhy : Forall (fun c => isSlugChar c = true) (js "-"))
    by (constructor; [reflexivity | constructor]).
  assert (Hnum : forall z, Forall (fun c => isSlugChar c = true) (ofZ z)).
  { intros z. eapply Forall_impl; [|apply ofZ_chars].
    intros c Hc. unfold isSlugChar, isWord, Synth.isHyphen, isDigitOrMinus in *.
    destruct (isDigit c); [reflexivity|]. cbn in Hc. rewrite Hc.
    now rewrite !orb_true_r. }
  unfold Synth.slug. cbv zeta.
  repeat (apply Forall_app; split); auto.
  apply Forall_rev, Forall_dropWhile, Forall_rev, Forall_dropWhile.
  apply Forall_replaceRuns; [exact Hhy|].
  apply Forall_forall. intros c Hc _. revert c Hc. apply Forall_forall.
  apply Forall_replaceRuns; [exact Hhy|].
  apply Forall_forall. intros c Hc Hws.
  apply filter_In in Hc as [_ Hc]. unfold isSlugChar. rewrite Hws in Hc.
  now rewrite orb_false_r in Hc.
Qed.

(** ** Bounds of the synthesized title and excerpt *)

Lemma length_dropWhile (p : N -> bool) (s : jsstring) :
  (length (dropWhile p s) <= length s)%nat.
Proof.
  induction s as [|c r IH]; cbn; [lia|]. destruct (p c); cbn; lia.
Qed.

Lemma length_trim (s : jsstring) : (length (trim s) <= length s)%nat.
Proof.
  unfold trim, trimEnd, trimStart. rewrite length_rev.
  pose proof (length_dropWhile isWhiteSpace (rev (dropWhile isWhiteSpace s))) as H1.
  pose proof (length_dropWhile isWhiteSpace s) as H2.
  rewrite length_rev in H1. lia.
Qed.

Lemma length_cut (s : jsstring) (n : nat) : (length (trim (substring s 0 n)) <= n)%nat.
Proof.
  pose proof (length_trim (substring s 0 n)) as H.
  rewrite substring_from_0 in *. pose proof (length_firstn n s) as H'. lia.
Qed.

(** X3.  The title of an ingested post is never empty, and unless it is the
    fallback "Post n" it has at most 53 characters. *)
Theorem title_bounds (i : nat) (postText : jsstring) :
  Synth.title i postText <> []
  /\ (Synth.title i postText = js "Post " ++ ofZ (Z.of_nat i + 1)
      \/ (length (Synth.title i postText) <= 53)%nat).
Proof.
  unfold Synth.title. cbv zeta.
  set (cut := trim (substring _ 0 50)).
  pose proof (length_cut (hd [] (split Synth.isTerminator postText)) 50) as Hlen.
  fold cut in Hlen. clearbody cut.
  match goal with
  | |- context [if ?b then cut ++ js "..." else cut] =>
      set (t := if b then cut ++ js "..." else cut)
  end.
  assert (Ht : (length t <= 53)%nat).
  { subst t. destruct (_ && _); [rewrite length_app; cbn; lia | lia]. }
  destruct t as [|c r]; cbn [isEmpty].
  - split; [discriminate | now left].
  - split; [discriminate | now right].
Qed.

(** X4.  The excerpt has at most 153 characters. *)
Theorem excerpt_bound (postText : jsstring) :
  (length (Synth.excerpt postText) <= 153)%nat.
Proof.
  unfold Synth.excerpt. destruct (150 <? length postText)%nat eqn:E.
  - rewrite length_app. pose proof (length_cut postText 150).
    change (length (js "...")) with 3%nat. lia.
  - apply Nat.ltb_ge in E. lia.
Qed.


(** ** The router, for a known resource *)

Lemma resourceName_segment (r : Resource) : isSegment (js (resourceName r)) = true.
Proof. destruct r; reflexivity. Qed.

Lemma route_any (rt : Runtime) (r : Resource) (seg : option jsstring) (request : Request)
    (w : World) :
  pathname request = pathOf r seg ->
  segmentOk seg = true ->
  handleRequest rt request w
  = catch (handlerOf rt r (method request) (idOf seg) request)
      (createErrorResponse "Internal server error" 500) w.
Proof.
  intros Hpath Hseg. destruct seg as [s|]; cbn [pathOf segmentOk idOf] in *.
  - rewrite (route rt r s request w Hpath Hseg). unfold pathId. cbn [nth_error].
    apply isSegment_inv in Hseg as [-> _]. reflexivity.
  - assert (Hsegs : pathSegments request = [js "api"; js (resourceName r)])
      by (apply pathSegments_collection; [exact Hpath | apply resourceName_segment]).
    unfold handleRequest. rewrite Hsegs. cbn [nth_error isResource].
    destruct r; reflexivity.
Qed.

(** ** What a computation changes and what it answers *)

Lemma quiet_ret {A} (a : A) : quiet (ret a).
Proof. intros w. reflexivity. Qed.

Lemma quiet_throw {A} : quiet (@throw A).
Proof. intros w. reflexivity. Qed.

Lemma quiet_query {A} (f : Store -> A) : quiet (query f).
Proof. intros w. reflexivity. Qed.

Lemma quiet_tryQuery {A} (f : Store -> option A) : quiet (tryQuery f).
Proof. intros w. unfold tryQuery. destruct (f (db w)); reflexivity. Qed.

Lemma quiet_json (request : Request) : quiet (json request).
Proof. intros w. unfold json. destruct (body request); reflexivity. Qed.

Lemma quiet_bind {A B} (m : M A) (k : A -> M B) :
  quiet m -> (forall a, quiet (k a)) -> quiet (bind m k).
Proof.
  intros Hm Hk w. unfold bind. specialize (Hm w).
  destruct (m w) as [[a|] w1]; cbn in *; subst; [apply Hk | reflexivity].
Qed.

Lemma quiet_catch {A} (m : M A) (r : A) : quiet m -> quiet (catch m r).
Proof.
  intros Hm w. unfold catch. specialize (Hm w).
  destruct (m w) as [[a|] w1]; cbn in *; assumption.
Qed.

Lemma quiet_checkPostRefs (data : Json.t) (blogId : Z) : quiet (checkPostRefs data blogId).
Proof.
  unfold checkPostRefs.
  apply quiet_bind; [apply quiet_query | intros [b|]; [|apply quiet_ret]].
  apply quiet_bind;
    [destruct (truthyZ (Json.AuthorId data)); [apply quiet_query | apply quiet_ret]|].
  intros [|]; cbn [negb]; [|apply quiet_ret].
  apply quiet_bind;
    [destruct (truthyZ (Json.CategoryId data)); [apply quiet_query | apply quiet_ret]|].
  intros [|]; apply quiet_ret.
Qed.

Lemma results_ret {A} (P : A -> Prop) (a : A) : P a -> results P (ret a).
Proof. intros H w. exact H. Qed.

Lemma results_throw {A} (P : A -> Prop) : results P (@throw A).
Proof. intros w. exact I. Qed.

Lemma results_bind {A B} (Q : A -> Prop) (P : B -> Prop) (m : M A) (k : A -> M B) :
  results Q m -> (forall a, Q a -> results P (k a)) -> results P (bind m k).
Proof.
  intros Hm Hk w. unfold bind. specialize (Hm w).
  destruct (m w) as [[a|] w1]; cbn in *; [exact (Hk a Hm w1) | exact I].
Qed.

Lemma results_any {A} (m : M A) : results (fun _ => True) m.
Proof. intros w. destruct (fst (m w)); exact I. Qed.

Lemma results_catch {A} (P : A -> Prop) (m : M A) (r : A) :
  results P m -> P r -> results P (catch m r).
Proof.
  intros Hm Hr w. unfold catch. specialize (Hm w).
  destruct (m w) as [[a|] w1]; cbn in *; assumption.
Qed.

Lemma honest_ret (r : Response) : honest (ret r).
Proof. intros w. left. reflexivity. Qed.

Lemma honest_quiet_bind {A} (m : M A) (k : A -> M Response) :
  quiet m -> (forall a, honest (k a)) -> honest (bind m k).
Proof.
  intros Hm Hk w. unfold bind. specialize (Hm w).
  destruct (m w) as [[a|] w1]; cbn in *; subst; [apply Hk | now left].
Qed.

Lemma honest_bind {A} (m : M A) (k : A -> M Response) :
  (forall a, results (fun r => is4xx (status r) = false) (k a)) -> honest (bind m k).
Proof.
  intros Hk w. right. unfold bind.
  destruct (m w) as [[a|] w1]; [exact (Hk a w1) | exact I].
Qed.

Lemma honest_catch (m : M Response) (r : Response) :
  honest m -> is4xx (status r) = false -> honest (catch m r).
Proof.
  intros Hm Hr w. unfold catch. specialize (Hm w).
  destruct (m w) as [[a|] w1]; cbn in *; [exact Hm | now right].
Qed.

Ltac quiet_tac :=
  solve [ repeat first
            [ apply quiet_ret | apply quiet_throw | apply quiet_query | apply quiet_tryQuery
            | apply quiet_json | apply quiet_checkPostRefs
            | apply quiet_bind; [ | intros ? ]
            | match goal with
              | |- quiet (if ?b then _ else _) => destruct b
              | |- quiet (match ?x with _ => _ end) => destruct x
              end ] ].

Ltac results_tac :=
  repeat first
    [ apply results_ret; reflexivity
    | apply results_throw
    | apply results_bind with (Q := fun _ => True); [ apply results_any | intros ? _ ]
    | match goal with
      | |- results _ (if ?b then _ else _) => destruct b
      | |- results _ (match ?x with _ => _ end) => destruct x
      end ].

Ltac honest_tac :=
  repeat first
    [ apply honest_ret
    | apply honest_quiet_bind; [ quiet_tac | intros ? ]
    | apply honest_bind; intros ?; results_tac
    | match goal with
      | |- honest (if ?b then _ else _) => destruct b
      | |- honest (match ?x with _ => _ end) => destruct x
      end ].

Lemma honest_handler (rt : Runtime) (r : Resource) method id request :
  honest (handlerOf rt r method id request).
Proof.
  destruct r; cbn [handlerOf];
    unfold handleBlogs, handleAuthors, handleCategories, handlePosts, handleTags,
      handleComments; honest_tac.
Qed.

Lemma honest_handleSimplePost (rt : Runtime) method request :
  honest (handleSimplePost rt method request).
Proof.
  unfold handleSimplePost. destruct (negb _); [apply honest_ret|].
  apply honest_catch; [|reflexivity]. unfold simplePost. honest_tac.
Qed.

Lemma honest_handleRequest (rt : Runtime) (request : Request) :
  honest (handleRequest rt request).
Proof.
  unfold handleRequest. destruct (negb _); [apply honest_ret|].
  apply honest_catch; [|reflexivity].
  repeat match goal with |- honest (if ?b then _ else _) => destruct b end;
    first [ apply (honest_handler rt RBlogs) | apply (honest_handler rt RAuthors)
          | apply (honest_handler rt RCategories) | apply (honest_handler rt RPosts)
          | apply (honest_handler rt RTags) | apply (honest_handler rt RComments)
          | apply honest_handleSimplePost | apply honest_ret ].
Qed.

(** X5.  A response with a client-error status (400, 404, 405, 409) means that
    the request changed nothing: every validation and existence check comes
    before the first write and before the first reading of the clock. *)
Theorem client_error_writes_nothing (rt : Runtime) (request : Request) (w w' : World)
    (response : Response) :
  handleRequest rt request w = (Ok response, w') ->
  is4xx (status response) = true ->
  w' = w.
Proof.
  intros Hrun H4. destruct (honest_handleRequest rt request w) as [H|H];
    rewrite Hrun in H; cbn in H; [exact H | congruence].
Qed.

(** POST /api/authors with the body {}: 400, and nothing has changed. *)
Lemma client_error_writes_nothing_witness :
  let request := plainRequest "POST" "/api/authors" (Some Json.empty) in
  let response := createErrorResponse "Name and BlogId are required" 400 in
  handleRequest Sample.runtime request afterIngestion = (Ok response, afterIngestion)
  /\ is4xx (status response) = true
  /\ afterIngestion = afterIngestion.
Proof.
  cbv zeta.
  assert (Hrun : handleRequest Sample.runtime
                   (plainRequest "POST" "/api/authors" (Some Json.empty)) afterIngestion
                 = (Ok (createErrorResponse "Name and BlogId are required" 400),
                    afterIngestion)) by (vm_compute; reflexivity).
  refine (conj Hrun (conj eq_refl _)).
  exact (client_error_writes_nothing Sample.runtime _ afterIngestion afterIngestion _
           Hrun eq_refl).
Defined.

(** ** GET *)

Lemma quiet_get (rt : Runtime) (r : Resource) id request :
  quiet (handlerOf rt r (js "GET") id request).
Proof.
  destruct r; cbn [handlerOf];
    unfold handleBlogs, handleAuthors, handleCategories, handlePosts, handleTags,
      handleComments, isMethod; literal_tests; cbv iota; quiet_tac.
Qed.

(** X6.  A GET changes nothing, whatever its path and whatever it is answered:
    no row is written and the clock is not read. *)
Theorem get_writes_nothing (rt : Runtime) (request : Request) (w : World) :
  method request = js "GET" -> snd (handleRequest rt request w) = w.
Proof.
  intros Hm. revert w. change (quiet (handleRequest rt request)).
  unfold handleRequest. rewrite Hm. destruct (negb _); [apply quiet_ret|].
  apply quiet_catch.
  repeat match goal with |- quiet (if ?b then _ else _) => destruct b end;
    first [ exact (quiet_get rt RBlogs _ _) | exact (quiet_get rt RAuthors _ _)
          | exact (quiet_get rt RCategories _ _) | exact (quiet_get rt RPosts _ _)
          | exact (quiet_get rt RTags _ _) | exact (quiet_get rt RComments _ _)
          | apply quiet_ret ].
Qed.

(** GET /api/posts?limit=abc, which is answered 500. *)
Lemma get_writes_nothing_witness :
  let request := {| method := js "GET"; pathname := js "/api/posts";
                    searchParams := [(js "limit", js "abc")]; body := None |} in
  method request = js "GET"
  /\ snd (handleRequest Sample.runtime request afterIngestion) = afterIngestion.
Proof.
  cbv zeta. refine (conj eq_refl _).
  exact (get_writes_nothing Sample.runtime
           {| method := js "GET"; pathname := js "/api/posts";
              searchParams := [(js "limit", js "abc")]; body := None |}
           afterIngestion eq_refl).
Defined.

(** ** The statuses of the API *)

Lemma results_checkPostRefs (data : Json.t) (blogId : Z) :
  results (fun missing => match missing with Some r => statusKnown r | None => True end)
    (checkPostRefs data blogId).
Proof.
  unfold checkPostRefs.
  apply results_bind with (Q := fun _ => True); [apply results_any | intros [b|] _].
  2: now apply results_ret.
  apply results_bind with (Q := fun _ => True); [apply results_any | intros [|] _];
    cbn [negb]; [|now apply results_ret].
  apply results_bind with (Q := fun _ => True); [apply results_any | intros [|] _];
    now apply results_ret.
Qed.

Ltac status_tac :=
  repeat first
    [ apply results_ret; solve [reflexivity | assumption]
    | apply results_throw
    | match goal with
      | |- results _ (bind (checkPostRefs _ _) _) =>
          eapply results_bind; [ apply results_checkPostRefs | intros ? ? ]
      end
    | apply results_bind with (Q := fun _ => True); [ apply results_any | intros ? _ ]
    | match goal with
      | |- results _ (if ?b then _ else _) => destruct b
      | |- results _ (match ?x with _ => _ end) => destruct x
      end ].

Lemma status_handler (rt : Runtime) (r : Resource) method id request :
  results statusKnown (handlerOf rt r method id request).
Proof.
  destruct r; cbn [handlerOf];
    unfold handleBlogs, handleAuthors, handleCategories, handlePosts, handleTags,
      handleComments; status_tac.
Qed.

Lemma status_handleSimplePost (rt : Runtime) method request :
  results statusKnown (handleSimplePost rt method request).
Proof.
  unfold handleSimplePost. destruct (negb _); [now apply results_ret|].
  apply results_catch; [|reflexivity]. unfold simplePost. status_tac.
Qed.

(** X7.  Every request is answered: no exception leaves the router, and the
    status is one of 200, 400, 404, 405, 409 and 500. *)
Theorem always_answers (rt : Runtime) (request : Request) (w : World) :
  exists response,
    fst (handleRequest rt request w) = Ok response
    /\ In (status response) [200; 400; 404; 405; 409; 500]%Z.
Proof.
  assert (H : results statusKnown (handleRequest rt request)).
  { unfold handleRequest. destruct (negb _); [now apply results_ret|].
    apply results_catch; [|reflexivity].
    repeat match goal with |- results _ (if ?b then _ else _) => destruct b end;
      first [ apply (status_handler rt RBlogs) | apply (status_handler rt RAuthors)
            | apply (status_handler rt RCategories) | apply (status_handler rt RPosts)
            | apply (status_handler rt RTags) | apply (status_handler rt RComments)
            | apply status_handleSimplePost | now apply results_ret ]. }
  assert (Hok : exists response, fst (handleRequest rt request w) = Ok response).
  { unfold handleRequest. destruct (negb _); [eexists; reflexivity|].
    unfold catch. destruct (_ w) as [[r|] w1]; eexists; reflexivity. }
  destruct Hok as [response Hok]. exists response. split; [exact Hok|].
  specialize (H w). rewrite Hok in H. unfold statusKnown, knownStatus in H.
  apply existsb_exists in H as (x & Hin & Hx). apply Z.eqb_eq in Hx. now subst.
Qed.


(** ** Methods *)

Lemma isVerb_inv (method : jsstring) :
  isVerb method = false ->
  isMethod method "GET" = false /\ isMethod method "POST" = false
  /\ isMethod method "PUT" = false /\ isMethod method "DELETE" = false.
Proof.
  unfold isVerb. intros H.
  apply orb_false_iff in H as [H H4]. apply orb_false_iff in H as [H H3].
  apply orb_false_iff in H as [H1 H2]. auto.
Qed.

(** X8.  A request on one of the six resources with a method other than GET,
    POST, PUT and DELETE is answered 405 and changes nothing, with or
    without an id in its path. *)
Theorem method_not_allowed (rt : Runtime) (r : Resource) (seg : option jsstring)
    (request : Request) (w : World) :
  pathname request = pathOf r seg ->
  segmentOk seg = true ->
  isVerb (method request) = false ->
  handleRequest rt request w = (Ok (createErrorResponse "Method not allowed" 405), w).
Proof.
  intros Hpath Hseg Hverb. rewrite (route_any rt r seg request w Hpath Hseg).
  apply isVerb_inv in Hverb as (H1 & H2 & H3 & H4).
  destruct r; cbn [handlerOf];
    unfold handleBlogs, handleAuthors, handleCategories, handlePosts, handleTags,
      handleComments; rewrite H1, H2, H3, H4; reflexivity.
Qed.

(** X9.  The ingestion endpoint serves POST only: any other method is answered
    405 and changes nothing. *)
Theorem simple_needs_post (rt : Runtime) (request : Request) (w : World) :
  pathname request = js "/api/simple" ->
  isMethod (method request) "POST" = false ->
  handleRequest rt request w
  = (Ok (createErrorResponse "Only POST method allowed for simple posts" 405), w).
Proof.
  intros Hp Hm.
  assert (Hseg : pathSegments request = [js "api"; js "simple"])
    by (apply pathSegments_collection; [exact Hp | reflexivity]).
  unfold handleRequest. rewrite Hseg.
  cbn [nth_error isResource]. literal_tests. cbv iota.
  unfold handleSimplePost. rewrite Hm. reflexivity.
Qed.

(** ** Writes without an id *)

(** X10.  A PUT or DELETE whose path has no id, or an id that is not a nonzero
    integer, is answered 400; the body is not read (it can be missing or
    malformed) and nothing changes. *)
Theorem write_needs_id (rt : Runtime) (r : Resource) (seg : option jsstring)
    (request : Request) (w : World) :
  pathname request = pathOf r seg ->
  segmentOk seg = true ->
  truthyId (idOf seg) = None ->
  (method request = js "PUT"
   -> handleRequest rt request w
      = (Ok (createErrorResponse (singular r ++ " ID is required for update") 400), w))
  /\ (method request = js "DELETE"
      -> handleRequest rt request w
         = (Ok (createErrorResponse (singular r ++ " ID is required for deletion") 400), w)).
Proof.
  intros Hpath Hseg Hid. rewrite (route_any rt r seg request w Hpath Hseg).
  split; intros ->;
    destruct r; cbn [handlerOf];
    unfold handleBlogs, handleAuthors, handleCategories, handlePosts, handleTags,
      handleComments, isMethod; literal_tests; cbv iota; rewrite Hid; reflexivity.
Qed.

(** ** GET of one row *)

Lemma find_none_iff {A} (key : A -> Z) (l : list A) (id : Z) :
  find (fun r => (key r =? id)%Z) l = None <-> Sql.hasId (map key l) id = false.
Proof.
  split; [|apply find_absent].
  intros H. destruct (Sql.hasId (map key l) id) eqn:E; [|reflexivity].
  apply find_present in E as (r & E). congruence.
Qed.

(** What a GET with an id answers with. *)
Lemma get_row (rt : Runtime) (r : Resource) (id : PathId) (z : Z) (request : Request)
    (w : World) :
  truthyId id = Some z ->
  exists response,
    handlerOf rt r (js "GET") id request w = (Ok response, w)
    /\ (if rowExists r z (db w)
        then status response = 200%Z
        else response = createErrorResponse (singular r ++ " not found") 404).
Proof.
  intros Hid.
  destruct r; unfold rowExists; cbn [handlerOf];
    unfold handleBlogs, handleAuthors, handleCategories, handlePosts, handleTags,
      handleComments, isMethod; literal_tests; cbv iota; rewrite Hid;
    unfold bind, query, Sql.selectAuthor, Sql.selectCategory, Sql.selectPost,
      Sql.selectTag, Sql.selectComment, Sql.selectBlog, Sql.selectAuthorRow,
      Sql.selectCategoryRow, Sql.selectPostRow, Sql.selectTagRow, Sql.selectCommentRow,
      Sql.blogIds, Sql.authorIds, Sql.categoryIds, Sql.postIds, Sql.tagIds, Sql.commentIds;
    match goal with
    | |- context [find (fun x => (?key x =? z)%Z) ?l] =>
        destruct (find (fun x => (key x =? z)%Z) l) as [row|] eqn:E;
        [ apply (find_hasId key) in E | apply (find_none_iff key) in E ]
    end; cbn [option_map]; eexists; (split; [reflexivity|]); rewrite E; reflexivity.
Qed.

(** X11.  A GET of /api/{resource}/{id} with a nonzero integer id is answered
    200 when a row has that primary key and otherwise 404 with the
    resource's not-found message. *)
Theorem get_by_id (rt : Runtime) (r : Resource) (seg : jsstring) (z : Z)
    (request : Request) (w : World) :
  pathname request = pathOf r (Some seg) ->
  isSegment seg = true ->
  parseInt seg = Some z ->
  z <> 0%Z ->
  method request = js "GET" ->
  exists response,
    handleRequest rt request w = (Ok response, w)
    /\ (if rowExists r z (db w)
        then status response = 200%Z
        else response = createErrorResponse (singular r ++ " not found") 404).
Proof.
  intros Hpath Hseg Hparse Hz Hm.
  rewrite (route_any rt r (Some seg) request w Hpath Hseg), Hm. cbn [idOf].
  rewrite Hparse.
  destruct (get_row rt r (IdNum z) z request w) as (response & Hrun & Hres).
  { cbn. now rewrite (proj2 (Z.eqb_neq z 0) Hz). }
  exists response. unfold catch. rewrite Hrun. auto.
Qed.

(** PATCH /api/posts/3. *)
Lemma method_not_allowed_witness :
  let request := plainRequest "PATCH" "/api/posts/3" None in
  pathname request = pathOf RPosts (Some (js "3"))
  /\ segmentOk (Some (js "3")) = true
  /\ isVerb (method request) = false
  /\ handleRequest Sample.runtime request afterIngestion
     = (Ok (createErrorResponse "Method not allowed" 405), afterIngestion).
Proof.
  cbv zeta. refine (conj eq_refl (conj eq_refl (conj eq_refl _))).
  exact (method_not_allowed Sample.runtime RPosts (Some (js "3"))
           (plainRequest "PATCH" "/api/posts/3" None) afterIngestion
           eq_refl eq_refl eq_refl).
Defined.

(** GET /api/simple. *)
Lemma simple_needs_post_witness :
  let request := plainRequest "GET" "/api/simple" None in
  pathname request = js "/api/simple"
  /\ isMethod (method request) "POST" = false
  /\ handleRequest Sample.runtime request afterIngestion
     = (Ok (createErrorResponse "Only POST method allowed for simple posts" 405),
        afterIngestion).
Proof.
  cbv zeta. refine (conj eq_refl (conj eq_refl _)).
  exact (simple_needs_post Sample.runtime (plainRequest "GET" "/api/simple" None)
           afterIngestion eq_refl eq_refl).
Defined.

(** PUT /api/tags and DELETE /api/tags/0, both without a body. *)
Lemma write_needs_id_witness :
  let put := plainRequest "PUT" "/api/tags" None in
  let delete := plainRequest "DELETE" "/api/tags/0" None in
  pathname put = pathOf RTags None
  /\ pathname delete = pathOf RTags (Some (js "0"))
  /\ segmentOk (Some (js "0")) = true
  /\ truthyId (idOf (Some (js "0"))) = None
  /\ handleRequest Sample.runtime put afterIngestion
     = (Ok (createErrorResponse "Tag ID is required for update" 400), afterIngestion)
  /\ handleRequest Sample.runtime delete afterIngestion
     = (Ok (createErrorResponse "Tag ID is required for deletion" 400), afterIngestion).
Proof.
  cbv zeta. refine (conj eq_refl (conj eq_refl (conj eq_refl (conj eq_refl (conj _ _))))).
  - exact (proj1 (write_needs_id Sample.runtime RTags None
                    (plainRequest "PUT" "/api/tags" None) afterIngestion
                    eq_refl eq_refl eq_refl) eq_refl).
  - exact (proj2 (write_needs_id Sample.runtime RTags (Some (js "0"))
                    (plainRequest "DELETE" "/api/tags/0" None) afterIngestion
                    eq_refl eq_refl eq_refl) eq_refl).
Defined.

(** GET /api/blogs/7 on a database whose only blog has the id 1. *)
Lemma get_by_id_witness :
  let request := plainRequest "GET" "/api/blogs/7" None in
  pathname request = pathOf RBlogs (Some (js "7"))
  /\ isSegment (js "7") = true
  /\ parseInt (js "7") = Some 7%Z
  /\ 7%Z <> 0%Z
  /\ method request = js "GET"
  /\ exists response,
       handleRequest Sample.runtime request afterIngestion = (Ok response, afterIngestion)
       /\ (if rowExists RBlogs 7 (db afterIngestion)
           then status response = 200%Z
           else response = createErrorResponse (singular RBlogs ++ " not found") 404).
Proof.
  cbv zeta.
  assert (Hid : 7%Z <> 0%Z) by discriminate.
  refine (conj eq_refl (conj eq_refl (conj eq_refl (conj Hid (conj eq_refl _))))).
  exact (get_by_id Sample.runtime RBlogs (js "7") 7
           (plainRequest "GET" "/api/blogs/7" None) afterIngestion
           eq_refl eq_refl eq_refl Hid eq_refl).
Defined.


(** ** The effect of a request, by its method *)

Section Moves.

Variable R : Store -> Store -> Prop.
Hypothesis R_refl : forall s, R s s.
Hypothesis R_trans : forall s1 s2 s3, R s1 s2 -> R s2 s3 -> R s1 s3.

Lemma moves_same {A} (m : M A) : (forall w, db (snd (m w)) = db w) -> moves R m.
Proof. intros H w. rewrite H. apply R_refl. Qed.

Lemma moves_ret {A} (a : A) : moves R (ret a).
Proof. now apply moves_same. Qed.

Lemma moves_throw {A} : moves R (@throw A).
Proof. now apply moves_same. Qed.

Lemma moves_query {A} (f : Store -> A) : moves R (query f).
Proof. now apply moves_same. Qed.

Lemma moves_tryQuery {A} (f : Store -> option A) : moves R (tryQuery f).
Proof. apply moves_same. intros w. unfold tryQuery. now destruct (f (db w)). Qed.

Lemma moves_json (request : Request) : moves R (json request).
Proof. apply moves_same. intros w. unfold json. now destruct (body request). Qed.

Lemma moves_readClock (rt : Runtime) : moves R (readClock rt).
Proof. now apply moves_same. Qed.

Lemma moves_getCurrentTimestamp (rt : Runtime) : moves R (getCurrentTimestamp rt).
Proof. now apply moves_same. Qed.

Lemma moves_hostnameOf (rt : Runtime) (s : jsstring) : moves R (hostnameOf rt s).
Proof. apply moves_same. intros w. unfold hostnameOf. now destruct (URL_hostname rt s). Qed.

Lemma moves_bind {A B} (m : M A) (k : A -> M B) :
  moves R m -> (forall a, moves R (k a)) -> moves R (bind m k).
Proof.
  intros Hm Hk w. unfold bind. specialize (Hm w).
  destruct (m w) as [[a|] w1]; cbn [snd] in *; [|exact Hm].
  exact (R_trans _ _ _ Hm (Hk a w1)).
Qed.

Lemma moves_catch {A} (m : M A) (r : A) : moves R m -> moves R (catch m r).
Proof.
  intros Hm w. unfold catch. specialize (Hm w).
  destruct (m w) as [[a|] w1]; exact Hm.
Qed.

Lemma moves_exec {A} (f : Store -> option (A * Store)) :
  (forall s a s', f s = Some (a, s') -> R s s') -> moves R (exec f).
Proof.
  intros Hf w. unfold exec. destruct (f (db w)) as [[a s']|] eqn:E; cbn; [|apply R_refl].
  exact (Hf _ _ _ E).
Qed.

Lemma moves_forEach {A} (f : A -> M unit) (l : list A) :
  (forall x, moves R (f x)) -> moves R (forEach f l).
Proof.
  intros Hf. induction l as [|x l IH]; cbn [forEach]; [apply moves_ret|].
  apply moves_bind; [apply Hf | intros _; exact IH].
Qed.

Lemma moves_checkPostRefs (data : Json.t) (blogId : Z) : moves R (checkPostRefs data blogId).
Proof. apply moves_same. intros w. now rewrite quiet_checkPostRefs. Qed.

Lemma moves_publishedAtOf (rt : Runtime) (data : Json.t) : moves R (publishedAtOf rt data).
Proof.
  unfold publishedAtOf. destruct (_ && _); [|apply moves_ret].
  apply moves_bind; [apply moves_getCurrentTimestamp | intros ?; apply moves_ret].
Qed.

End Moves.

(** One step of the analysis of a handler; [stmt] proves the relation for
    a statement that writes. *)
Ltac moves_step Hrefl Htrans stmt :=
  first
    [ apply (moves_ret _ Hrefl) | apply (moves_throw _ Hrefl) | apply (moves_query _ Hrefl)
    | apply (moves_tryQuery _ Hrefl) | apply (moves_json _ Hrefl)
    | apply (moves_readClock _ Hrefl) | apply (moves_getCurrentTimestamp _ Hrefl)
    | apply (moves_hostnameOf _ Hrefl)
    | apply (moves_checkPostRefs _ Hrefl) | apply (moves_publishedAtOf _ Hrefl Htrans)
    | apply (moves_exec _ Hrefl); solve [stmt]
    | apply (moves_forEach _ Hrefl Htrans); intros ?
    | apply (moves_bind _ Htrans); [ | intros ? ]
    | match goal with
      | |- moves _ (if ?b then _ else _) => destruct b
      | |- moves _ (match ?x with _ => _ end) => destruct x
      end ].

(** *** POST only adds rows *)

Lemma extends_refl {A} (l : list A) : extends l l.
Proof. exists []. symmetry. apply app_nil_r. Qed.

Lemma extends_trans {A} (l1 l2 l3 : list A) : extends l1 l2 -> extends l2 l3 -> extends l1 l3.
Proof. intros [a ->] [b ->]. exists (a ++ b). now rewrite app_assoc. Qed.

Lemma appended_refl (s : Store) : appended s s.
Proof. repeat split; apply extends_refl. Qed.

Lemma appended_trans (s1 s2 s3 : Store) : appended s1 s2 -> appended s2 s3 -> appended s1 s3.
Proof.
  intros (A1 & A2 & A3 & A4 & A5 & A6 & A7) (B1 & B2 & B3 & B4 & B5 & B6 & B7).
  repeat split; eapply extends_trans; eassumption.
Qed.

Ltac insert_appends :=
  let H := fresh "H" in
  intros ? ? ? H;
  unfold Sql.insertBlog, Sql.insertAuthor, Sql.insertCategory, Sql.insertPost, Sql.insertTag,
    Sql.insertPostTag, Sql.insertComment in H;
  repeat match type of H with
         | (if ?b then _ else _) = _ => destruct b
         | match ?x with _ => _ end = _ => destruct x
         end;
  try discriminate H; injection H as _ <-;
  repeat split; cbn; first [ apply extends_refl | eexists; reflexivity ].

Lemma appends_handler (rt : Runtime) (r : Resource) id request :
  moves appended (handlerOf rt r (js "POST") id request).
Proof.
  destruct r; cbn [handlerOf];
    unfold handleBlogs, handleAuthors, handleCategories, handlePosts, handleTags,
      handleComments, isMethod; literal_tests; cbv iota;
    repeat moves_step appended_refl appended_trans insert_appends.
Qed.

Lemma appends_createPosts (rt : Runtime) blog author category postTexts :
  forall i createdPosts,
    moves appended (createPosts rt blog author category postTexts i createdPosts).
Proof.
  induction postTexts as [|entry rest IH]; intros i createdPosts; cbn [createPosts].
  - apply (moves_ret _ appended_refl).
  - destruct (isEmpty _); [apply IH|].
    repeat first [ apply IH | moves_step appended_refl appended_trans insert_appends ].
Qed.

Lemma appends_simplePost (rt : Runtime) request : moves appended (simplePost rt request).
Proof.
  unfold simplePost, findOrCreateBlog, findOrCreateAuthor, findOrCreateCategory.
  repeat first [ apply appends_createPosts
               | moves_step appended_refl appended_trans insert_appends ].
Qed.

(** X12.  A POST only adds rows: whatever its path and body and however it is
    answered, every row that was in the database is still there,
    unchanged and at its place, with any new rows after it. *)
Theorem post_only_appends (rt : Runtime) (request : Request) (w : World) :
  method request = js "POST" ->
  appended (db w) (db (snd (handleRequest rt request w))).
Proof.
  intros Hm. revert w. change (moves appended (handleRequest rt request)).
  unfold handleRequest. rewrite Hm. destruct (negb _); [apply (moves_ret _ appended_refl)|].
  apply moves_catch.
  repeat match goal with |- moves _ (if ?b then _ else _) => destruct b end;
    first [ exact (appends_handler rt RBlogs (pathId (pathSegments request)) request)
          | exact (appends_handler rt RAuthors (pathId (pathSegments request)) request)
          | exact (appends_handler rt RCategories (pathId (pathSegments request)) request)
          | exact (appends_handler rt RPosts (pathId (pathSegments request)) request)
          | exact (appends_handler rt RTags (pathId (pathSegments request)) request)
          | exact (appends_handler rt RComments (pathId (pathSegments request)) request)
          | apply (moves_ret _ appended_refl) | idtac ].
  unfold handleSimplePost, isMethod. literal_tests. cbv iota.
  apply moves_catch, appends_simplePost.
Qed.

(** The ingestion of one entry into the database that one ingestion left. *)
Lemma post_only_appends_witness :
  let request := simpleRequest (js "https://myblog.com") [js "Second post"] in
  method request = js "POST"
  /\ appended (db afterIngestion) (db (snd (handleRequest Sample.runtime request afterIngestion))).
Proof.
  cbv zeta. refine (conj eq_refl _).
  exact (post_only_appends Sample.runtime
           (simpleRequest (js "https://myblog.com") [js "Second post"]) afterIngestion eq_refl).
Defined.

(** *** DELETE only removes rows *)

Lemma filter_all {A} (l : list A) : filter (fun _ => true) l = l.
Proof. induction l as [|x l IH]; cbn; [reflexivity | now rewrite IH]. Qed.

Lemma filter_filter {A} (p q : A -> bool) (l : list A) :
  filter p (filter q l) = filter (fun x => q x && p x) l.
Proof.
  induction l as [|x l IH]; cbn; [reflexivity|].
  destruct (q x); cbn; [destruct (p x)|]; now rewrite IH.
Qed.

Lemma thinned_refl {A} (l : list A) : thinned l l.
Proof. exists (fun _ => true). symmetry. apply filter_all. Qed.

Lemma thinned_trans {A} (l1 l2 l3 : list A) : thinned l1 l2 -> thinned l2 l3 -> thinned l1 l3.
Proof. intros [p ->] [q ->]. eexists. apply filter_filter. Qed.

Lemma removed_refl (s : Store) : removed s s.
Proof. repeat split; apply thinned_refl. Qed.

Lemma removed_trans (s1 s2 s3 : Store) : removed s1 s2 -> removed s2 s3 -> removed s1 s3.
Proof.
  intros (A1 & A2 & A3 & A4 & A5 & A6 & A7) (B1 & B2 & B3 & B4 & B5 & B6 & B7).
  repeat split; eapply thinned_trans; eassumption.
Qed.

Ltac delete_removes :=
  let H := fresh "H" in
  intros ? ? ? H;
  unfold Sql.deleteBlog, Sql.deleteAuthor, Sql.deleteCategory, Sql.deletePost, Sql.deleteTag,
    Sql.deleteComment in H;
  repeat match type of H with
         | (if ?b then _ else _) = _ => destruct b
         end;
  try discriminate H; injection H as _ <-;
  repeat split; cbn; first [ apply thinned_refl | eexists; reflexivity ].

Lemma removes_handler (rt : Runtime) (r : Resource) id request :
  moves removed (handlerOf rt r (js "DELETE") id request).
Proof.
  destruct r; cbn [handlerOf];
    unfold handleBlogs, handleAuthors, handleCategories, handlePosts, handleTags,
      handleComments, isMethod; literal_tests; cbv iota;
    repeat moves_step removed_refl removed_trans delete_removes.
Qed.

(** X13.  A DELETE only removes rows: whatever its path and however it is
    answered, every table is left with rows that it had, unchanged and in
    their order. *)
Theorem delete_only_removes (rt : Runtime) (request : Request) (w : World) :
  method request = js "DELETE" ->
  removed (db w) (db (snd (handleRequest rt request w))).
Proof.
  intros Hm. revert w. change (moves removed (handleRequest rt request)).
  unfold handleRequest. rewrite Hm. destruct (negb _); [apply (moves_ret _ removed_refl)|].
  apply moves_catch.
  repeat match goal with |- moves _ (if ?b then _ else _) => destruct b end;
    first [ exact (removes_handler rt RBlogs (pathId (pathSegments request)) request)
          | exact (removes_handler rt RAuthors (pathId (pathSegments request)) request)
          | exact (removes_handler rt RCategories (pathId (pathSegments request)) request)
          | exact (removes_handler rt RPosts (pathId (pathSegments request)) request)
          | exact (removes_handler rt RTags (pathId (pathSegments request)) request)
          | exact (removes_handler rt RComments (pathId (pathSegments request)) request)
          | apply (moves_ret _ removed_refl) ].
Qed.

(** DELETE /api/blogs/1, which takes the blog and all that belongs to it. *)
Lemma delete_only_removes_witness :
  let request := plainRequest "DELETE" "/api/blogs/1" None in
  method request = js "DELETE"
  /\ removed (db afterIngestion) (db (snd (handleRequest Sample.runtime request afterIngestion))).
Proof.
  cbv zeta. refine (conj eq_refl _).
  exact (delete_only_removes Sample.runtime (plainRequest "DELETE" "/api/blogs/1" None)
           afterIngestion eq_refl).
Defined.

(** *** PUT keeps the rows *)

Lemma sameRows_refl (s : Store) : sameRows s s.
Proof. repeat split. Qed.

Lemma sameRows_trans (s1 s2 s3 : Store) : sameRows s1 s2 -> sameRows s2 s3 -> sameRows s1 s3.
Proof.
  intros (A1 & A2 & A3 & A4 & A5 & A6) (B1 & B2 & B3 & B4 & B5 & B6).
  repeat split; congruence.
Qed.

Lemma map_updated {A K} (key : A -> K) (f : A -> A) (l : list A) :
  (forall x, key (f x) = key x) -> map key (map f l) = map key l.
Proof. intros H. rewrite map_map. apply map_ext. exact H. Qed.

Ltac update_keeps :=
  let H := fresh "H" in
  intros ? ? ? H;
  unfold Sql.updateBlog, Sql.updateAuthor, Sql.updateCategory, Sql.updatePost, Sql.updateTag,
    Sql.updateComment, Sql.deletePostTags, Sql.insertPostTag in H;
  repeat match type of H with
         | (if ?b then _ else _) = _ => destruct b
         | match ?x with _ => _ end = _ => destruct x
         end;
  try discriminate H; injection H as _ <-;
  repeat split; cbn; try reflexivity;
  apply map_updated; intros x;
  match goal with
  | |- context [(?k =? ?id)%Z] =>
      let E := fresh "E" in
      destruct (k =? id)%Z eqn:E; [apply Z.eqb_eq in E; now rewrite <- E | reflexivity]
  end.

Lemma keeps_rows_handler (rt : Runtime) (r : Resource) id request :
  moves sameRows (handlerOf rt r (js "PUT") id request).
Proof.
  destruct r; cbn [handlerOf];
    unfold handleBlogs, handleAuthors, handleCategories, handlePosts, handleTags,
      handleComments, isMethod; literal_tests; cbv iota;
    repeat moves_step sameRows_refl sameRows_trans update_keeps.
Qed.

(** X14.  A PUT neither adds nor removes a row of the six resources and never
    changes a primary key or a CreatedAt: whatever its path and body and
    however it is answered, each table has the same keys in the same
    order, each with its creation time. *)
Theorem put_keeps_rows (rt : Runtime) (request : Request) (w : World) :
  method request = js "PUT" ->
  sameRows (db w) (db (snd (handleRequest rt request w))).
Proof.
  intros Hm. revert w. change (moves sameRows (handleRequest rt request)).
  unfold handleRequest. rewrite Hm. destruct (negb _); [apply (moves_ret _ sameRows_refl)|].
  apply moves_catch.
  repeat match goal with |- moves _ (if ?b then _ else _) => destruct b end;
    first [ exact (keeps_rows_handler rt RBlogs (pathId (pathSegments request)) request)
          | exact (keeps_rows_handler rt RAuthors (pathId (pathSegments request)) request)
          | exact (keeps_rows_handler rt RCategories (pathId (pathSegments request)) request)
          | exact (keeps_rows_handler rt RPosts (pathId (pathSegments request)) request)
          | exact (keeps_rows_handler rt RTags (pathId (pathSegments request)) request)
          | exact (keeps_rows_handler rt RComments (pathId (pathSegments request)) request)
          | apply (moves_ret _ sameRows_refl) ].
Qed.

(** PUT /api/blogs/1 with a new name and slug. *)
Lemma put_keeps_rows_witness :
  let request := plainRequest "PUT" "/api/blogs/1"
                   (Some (blogBody (js "Renamed") (js "renamed"))) in
  method request = js "PUT"
  /\ sameRows (db afterIngestion) (db (snd (handleRequest Sample.runtime request afterIngestion))).
Proof.
  cbv zeta. refine (conj eq_refl _).
  exact (put_keeps_rows Sample.runtime
           (plainRequest "PUT" "/api/blogs/1" (Some (blogBody (js "Renamed") (js "renamed"))))
           afterIngestion eq_refl).
Defined.


(** ** Referential integrity *)

Lemma postRefsOk_spec (blogId : Z) (authorId categoryId : option Z) (s : Store) :
  Sql.postRefsOk blogId authorId categoryId s = true
  <-> In blogId (Sql.blogIds s)
      /\ (forall a, authorId = Some a -> In a (Sql.authorIds s))
      /\ (forall c, categoryId = Some c -> In c (Sql.categoryIds s)).
Proof.
  unfold Sql.postRefsOk. rewrite !andb_true_iff, hasId_In. split.
  - intros [[Hb Ha] Hc]. split; [exact Hb|]. split.
    + intros a ->. now apply hasId_In.
    + intros c ->. now apply hasId_In.
  - intros (Hb & Ha & Hc). repeat split; [exact Hb | |].
    + destruct authorId as [a|]; [|reflexivity]. apply hasId_In. now apply Ha.
    + destruct categoryId as [c|]; [|reflexivity]. apply hasId_In. now apply Hc.
Qed.

Lemma referencesOk_spec (s : Store) : referencesOk s = true <-> RefsValid s.
Proof.
  unfold referencesOk. rewrite !andb_true_iff, !forallb_forall. split.
  - intros ((((Ha & Hc) & Hp) & Hl) & Hm). split.
    + intros a Hin. apply hasId_In. now apply Ha.
    + intros c Hin. apply hasId_In. now apply Hc.
    + intros p Hin. apply Hp, postRefsOk_spec in Hin as (H & _ & _). exact H.
    + intros p a Hin E. apply Hp, postRefsOk_spec in Hin as (_ & H & _). now apply H.
    + intros p c Hin E. apply Hp, postRefsOk_spec in Hin as (_ & _ & H). now apply H.
    + intros pt Hin. apply Hl, andb_true_iff in Hin as [H _]. now apply hasId_In.
    + intros pt Hin. apply Hl, andb_true_iff in Hin as [_ H]. now apply hasId_In.
    + intros c Hin. apply hasId_In. now apply Hm.
  - intros [Ha Hc Hpb Hpa Hpc Hlp Hlt Hm]. repeat split.
    + intros a Hin. apply hasId_In. now apply Ha.
    + intros c Hin. apply hasId_In. now apply Hc.
    + intros p Hin. apply postRefsOk_spec. repeat split; eauto.
    + intros pt Hin. apply andb_true_iff. split; apply hasId_In; auto.
    + intros c Hin. apply hasId_In. now apply Hm.
Qed.

(** The keys that a filter or an update leaves. *)
Lemma in_map_filter {A} (key : A -> Z) (p : A -> bool) (l : list A) (x : A) :
  In x l -> p x = true -> In (key x) (map key (filter p l)).
Proof. intros Hin Hp. apply in_map. apply filter_In. auto. Qed.

Lemma in_keys_inv {A} (key : A -> Z) (l : list A) (id : Z) :
  In id (map key l) -> exists x, In x l /\ key x = id.
Proof. intros H. apply in_map_iff in H as (x & E & Hin). eauto. Qed.

Lemma in_updated {A} (key : A -> Z) (f : A -> A) (id : Z) (l : list A) (y : A) :
  In y (map (fun x => if (key x =? id)%Z then f x else x) l) ->
  In y l \/ exists x, In x l /\ key x = id /\ y = f x.
Proof.
  intros H. apply in_map_iff in H as (x & E & Hin).
  destruct (key x =? id)%Z eqn:K; [|left; now subst].
  right. exists x. apply Z.eqb_eq in K. auto.
Qed.

(** Opening a statement that succeeded: its guards hold, and [s'] is the
    database that it builds. *)
Ltac open_stmt H :=
  repeat match type of H with
         | (if ?b then _ else _) = _ => let G := fresh "G" in destruct b eqn:G
         | match ?x with _ => _ end = _ => let G := fresh "G" in destruct x eqn:G
         end;
  try discriminate H; injection H as _ <-.

Ltac unfold_ids :=
  unfold Sql.blogIds, Sql.authorIds, Sql.categoryIds, Sql.postIds, Sql.tagIds, Sql.commentIds,
    Sql.withAuthors, Sql.withCategories, Sql.withPosts, Sql.withTags, Sql.withPostTags,
    Sql.withComments in *;
  cbn [Blogs Authors Categories Posts Tags PostTags Comments] in *.

(** A guard of a statement, as a fact about rows. *)
Ltac guards :=
  repeat match goal with
         | G : negb _ = false |- _ => apply negb_false_iff in G
         | G : negb _ = true |- _ => apply negb_true_iff in G
         | G : _ && _ = true |- _ => apply andb_true_iff in G; destruct G
         | G : _ || _ = false |- _ => apply orb_false_iff in G; destruct G
         | G : Sql.hasId _ _ = true |- _ => apply hasId_In in G
         | G : Sql.postRefsOk _ _ _ _ = true |- _ =>
             apply postRefsOk_spec in G; destruct G as (? & ? & ?)
         end.

(** A row of a table with one row added is an old row or the new one. *)
Ltac old_or_new H :=
  apply in_app_or in H; destruct H as [H | [<- | []]].

Ltac still_there := rewrite ?map_app; try (apply in_or_app; left); eauto.

Lemma refs_insertBlog n sl d u c s a s' :
  Sql.insertBlog n sl d u c s = Some (a, s') -> preserves RefsValid s s'.
Proof.
  unfold Sql.insertBlog. intros H. open_stmt H.
  intros [Ha Hc Hpb Hpa Hpc Hlp Hlt Hm]. split; unfold_ids; intros; still_there.
Qed.

Lemma refs_insertAuthor b n e p bi c s a s' :
  Sql.insertAuthor b n e p bi c s = Some (a, s') -> preserves RefsValid s s'.
Proof.
  unfold Sql.insertAuthor. intros H. open_stmt H. guards.
  intros [Ha Hc Hpb Hpa Hpc Hlp Hlt Hm]. split; unfold_ids; intros; still_there.
  old_or_new H; [eauto | exact G].
Qed.

Lemma refs_insertCategory b n sl s a s' :
  Sql.insertCategory b n sl s = Some (a, s') -> preserves RefsValid s s'.
Proof.
  unfold Sql.insertCategory. intros H. open_stmt H. guards.
  intros [Ha Hc Hpb Hpa Hpc Hlp Hlt Hm]. split; unfold_ids; intros; still_there.
  old_or_new H; [eauto | exact G].
Qed.

Lemma refs_insertPost row s a s' :
  Sql.insertPost row s = Some (a, s') -> preserves RefsValid s s'.
Proof.
  unfold Sql.insertPost. intros H. open_stmt H. guards.
  intros [Ha Hc Hpb Hpa Hpc Hlp Hlt Hm]. split; unfold_ids; intros; still_there.
  - old_or_new H2; [eauto | assumption].
  - old_or_new H2; [eauto | cbn in *; eauto].
  - old_or_new H2; [eauto | cbn in *; eauto].
Qed.

Lemma refs_insertTag n s a s' :
  Sql.insertTag n s = Some (a, s') -> preserves RefsValid s s'.
Proof.
  unfold Sql.insertTag. intros H. open_stmt H.
  intros [Ha Hc Hpb Hpa Hpc Hlp Hlt Hm]. split; unfold_ids; intros; still_there.
Qed.

Lemma refs_insertPostTag p t s a s' :
  Sql.insertPostTag p t s = Some (a, s') -> preserves RefsValid s s'.
Proof.
  unfold Sql.insertPostTag. intros H. open_stmt H. guards.
  intros [Ha Hc Hpb Hpa Hpc Hlp Hlt Hm]. split; unfold_ids; intros; still_there.
  - old_or_new H2; [eauto | assumption].
  - old_or_new H2; [eauto | assumption].
Qed.

Lemma refs_insertComment row s a s' :
  Sql.insertComment row s = Some (a, s') -> preserves RefsValid s s'.
Proof.
  unfold Sql.insertComment. intros H. open_stmt H. guards.
  intros [Ha Hc Hpb Hpa Hpc Hlp Hlt Hm]. split; unfold_ids; intros; still_there.
  old_or_new H; [eauto | exact G].
Qed.

Lemma keys_updated {A} (key : A -> Z) (f : A -> A) (id : Z) (l : list A) :
  (forall x, key (f x) = id) ->
  map key (map (fun x => if (key x =? id)%Z then f x else x) l) = map key l.
Proof.
  intros H. rewrite map_map. apply map_ext. intros x.
  destruct (key x =? id)%Z eqn:E; [|reflexivity]. apply Z.eqb_eq in E. now rewrite H.
Qed.

Lemma in_keys_filter {A} (key : A -> Z) (p : A -> bool) (l : list A) (k : Z) :
  In k (map key l) -> (forall x, In x l -> key x = k -> p x = true) ->
  In k (map key (filter p l)).
Proof.
  intros H Hp. apply in_keys_inv in H as (x & Hin & <-).
  apply in_map_filter; auto.
Qed.

Lemma key_survives {A} (key : A -> Z) (l : list A) (id k : Z) :
  In k (map key l) -> k <> id ->
  In k (map key (filter (fun x => negb (key x =? id)%Z) l)).
Proof.
  intros H Hne. apply in_keys_filter; [exact H|].
  intros x _ <-. apply negb_true_iff. now apply Z.eqb_neq.
Qed.

(** The guard of an UPDATE: when a row has the id, the new references are
    valid. *)
Lemma update_guard {A} (key : A -> Z) (l : list A) (id : Z) (ok : bool) (x : A) :
  Sql.hasId (map key l) id && negb ok = false -> In x l -> key x = id -> ok = true.
Proof.
  intros G Hin E. apply andb_false_iff in G as [G|G].
  - assert (Sql.hasId (map key l) id = true) by (apply hasId_In; rewrite <- E; now apply in_map).
    congruence.
  - now apply negb_false_iff in G.
Qed.

Ltac same_keys := rewrite ?keys_updated by (intros; reflexivity).

Lemma refs_updateBlog i n sl d u s a s' :
  Sql.updateBlog i n sl d u s = Some (a, s') -> preserves RefsValid s s'.
Proof.
  unfold Sql.updateBlog. intros H. open_stmt H.
  intros [Ha Hc Hpb Hpa Hpc Hlp Hlt Hm]. split; unfold_ids; same_keys; eauto.
Qed.

Lemma refs_updateAuthor i b n e p bi s a s' :
  Sql.updateAuthor i b n e p bi s = Some (a, s') -> preserves RefsValid s s'.
Proof.
  unfold Sql.updateAuthor. intros H. open_stmt H.
  intros [Ha Hc Hpb Hpa Hpc Hlp Hlt Hm]. split; unfold_ids; same_keys; eauto.
  intros x Hin. apply in_updated in Hin as [Hin | (y & Hin & E & ->)]; [eauto|].
  cbn. apply hasId_In. exact (update_guard Author.AuthorId _ _ _ y G Hin E).
Qed.

Lemma refs_updateCategory i b n sl s a s' :
  Sql.updateCategory i b n sl s = Some (a, s') -> preserves RefsValid s s'.
Proof.
  unfold Sql.updateCategory. intros H. open_stmt H.
  intros [Ha Hc Hpb Hpa Hpc Hlp Hlt Hm]. split; unfold_ids; same_keys; eauto.
  intros x Hin. apply in_updated in Hin as [Hin | (y & Hin & E & ->)]; [eauto|].
  cbn. apply hasId_In. exact (update_guard Category.CategoryId _ _ _ y G Hin E).
Qed.

Lemma refs_updatePost i row s a s' :
  Sql.updatePost i row s = Some (a, s') -> preserves RefsValid s s'.
Proof.
  unfold Sql.updatePost. intros H. open_stmt H.
  intros [Ha Hc Hpb Hpa Hpc Hlp Hlt Hm]. split; unfold_ids; same_keys; eauto.
  - intros x Hin. apply in_updated in Hin as [Hin | (y & Hin & E & ->)]; [eauto|].
    cbn. pose proof (update_guard Post.PostId _ _ _ y G Hin E) as Hok.
    now apply postRefsOk_spec in Hok.
  - intros x k Hin. apply in_updated in Hin as [Hin | (y & Hin & E & ->)]; [eauto|].
    cbn. pose proof (update_guard Post.PostId _ _ _ y G Hin E) as Hok.
    apply postRefsOk_spec in Hok as (_ & Hok & _). exact (Hok k).
  - intros x k Hin. apply in_updated in Hin as [Hin | (y & Hin & E & ->)]; [eauto|].
    cbn. pose proof (update_guard Post.PostId _ _ _ y G Hin E) as Hok.
    apply postRefsOk_spec in Hok as (_ & _ & Hok). exact (Hok k).
Qed.

Lemma refs_updateTag i n s a s' :
  Sql.updateTag i n s = Some (a, s') -> preserves RefsValid s s'.
Proof.
  unfold Sql.updateTag. intros H. open_stmt H;
  intros [Ha Hc Hpb Hpa Hpc Hlp Hlt Hm]; split; unfold_ids; same_keys; eauto.
Qed.

Lemma refs_updateComment i row s a s' :
  Sql.updateComment i row s = Some (a, s') -> preserves RefsValid s s'.
Proof.
  unfold Sql.updateComment. intros H. open_stmt H.
  intros [Ha Hc Hpb Hpa Hpc Hlp Hlt Hm]. split; unfold_ids; same_keys; eauto.
  intros x Hin. apply in_updated in Hin as [Hin | (y & Hin & E & ->)]; [eauto|].
  cbn. apply hasId_In. exact (update_guard Comment.CommentId _ _ _ y G Hin E).
Qed.

Lemma refs_deleteComment i s a s' :
  Sql.deleteComment i s = Some (a, s') -> preserves RefsValid s s'.
Proof.
  unfold Sql.deleteComment. intros H. open_stmt H.
  intros [Ha Hc Hpb Hpa Hpc Hlp Hlt Hm]. split; unfold_ids; eauto.
  intros c Hin. apply filter_In in Hin as [Hin _]. eauto.
Qed.

Lemma refs_deletePostTags p s a s' :
  Sql.deletePostTags p s = Some (a, s') -> preserves RefsValid s s'.
Proof.
  unfold Sql.deletePostTags. intros H. open_stmt H.
  intros [Ha Hc Hpb Hpa Hpc Hlp Hlt Hm]. split; unfold_ids; eauto;
    intros pt Hin; apply filter_In in Hin as [Hin _]; eauto.
Qed.

Lemma refs_deleteTag i s a s' :
  Sql.deleteTag i s = Some (a, s') -> preserves RefsValid s s'.
Proof.
  unfold Sql.deleteTag. intros H. open_stmt H; [now intros ?|].
  intros [Ha Hc Hpb Hpa Hpc Hlp Hlt Hm]. split; unfold_ids; eauto;
    intros pt Hin; apply filter_In in Hin as [Hin Hne]; eauto.
  apply key_survives; [eauto|]. now apply negb_true_iff, Z.eqb_neq in Hne.
Qed.

Lemma refs_deletePost i s a s' :
  Sql.deletePost i s = Some (a, s') -> preserves RefsValid s s'.
Proof.
  unfold Sql.deletePost. intros H. open_stmt H; [now intros ?|].
  intros [Ha Hc Hpb Hpa Hpc Hlp Hlt Hm]. split; unfold_ids; eauto.
  - intros p Hin. apply filter_In in Hin as [Hin _]. eauto.
  - intros p k Hin. apply filter_In in Hin as [Hin _]. eauto.
  - intros p k Hin. apply filter_In in Hin as [Hin _]. eauto.
  - intros pt Hin. apply filter_In in Hin as [Hin Hne].
    apply key_survives; [eauto|]. now apply negb_true_iff, Z.eqb_neq in Hne.
  - intros pt Hin. apply filter_In in Hin as [Hin _]. eauto.
  - intros c Hin. apply filter_In in Hin as [Hin Hne].
    apply key_survives; [eauto|]. now apply negb_true_iff, Z.eqb_neq in Hne.
Qed.

(** The guard of a DELETE without cascade: no row refers to the row that
    goes. *)
Lemma delete_guard {A} (ids : list Z) (id : Z) (refers : A -> bool) (l : list A) (x : A) :
  Sql.hasId ids id && existsb refers l = false -> In id ids -> In x l -> refers x = false.
Proof.
  intros G Hid Hin. apply hasId_In in Hid. rewrite Hid in G. cbn in G.
  destruct (refers x) eqn:E; [|reflexivity].
  assert (existsb refers l = true) by (apply existsb_exists; eauto). congruence.
Qed.

Lemma refs_deleteAuthor i s a s' :
  Sql.deleteAuthor i s = Some (a, s') -> preserves RefsValid s s'.
Proof.
  unfold Sql.deleteAuthor. intros H. open_stmt H.
  intros [Ha Hc Hpb Hpa Hpc Hlp Hlt Hm]. split; unfold_ids; eauto.
  - intros x Hin. apply filter_In in Hin as [Hin _]. eauto.
  - intros p k Hin Hk. apply key_survives; [eauto|]. intros ->.
    pose proof (delete_guard _ _ _ _ p G (Hpa p i Hin Hk) Hin) as Hno.
    cbn in Hno. rewrite Hk in Hno. cbn in Hno. now rewrite Z.eqb_refl in Hno.
Qed.

Lemma refs_deleteCategory i s a s' :
  Sql.deleteCategory i s = Some (a, s') -> preserves RefsValid s s'.
Proof.
  unfold Sql.deleteCategory. intros H. open_stmt H.
  intros [Ha Hc Hpb Hpa Hpc Hlp Hlt Hm]. split; unfold_ids; eauto.
  - intros x Hin. apply filter_In in Hin as [Hin _]. eauto.
  - intros p k Hin Hk. apply key_survives; [eauto|]. intros ->.
    pose proof (delete_guard _ _ _ _ p G (Hpc p i Hin Hk) Hin) as Hno.
    cbn in Hno. rewrite Hk in Hno. cbn in Hno. now rewrite Z.eqb_refl in Hno.
Qed.

Lemma existsb_none {A} (f : A -> bool) (l : list A) (x : A) :
  existsb f l = false -> In x l -> f x = false.
Proof.
  intros H Hin. destruct (f x) eqn:E; [|reflexivity].
  assert (existsb f l = true) by (apply existsb_exists; eauto). congruence.
Qed.

(** A key that is not among those of the rows that go stays. *)
Lemma key_not_gone {A} (key ref : A -> Z) (l : list A) (id k : Z) :
  In k (map key l) ->
  Sql.hasId (map key (filter (fun x => (ref x =? id)%Z) l)) k = false ->
  In k (map key (filter (fun x => negb (ref x =? id)%Z) l)).
Proof.
  intros Hin Hgone. apply in_keys_filter; [exact Hin|].
  intros x Hx <-. destruct (ref x =? id)%Z eqn:E; [|reflexivity].
  assert (Sql.hasId (map key (filter (fun x => (ref x =? id)%Z) l)) (key x) = true).
  { apply hasId_In, in_map_filter; assumption. }
  congruence.
Qed.

Lemma refs_deleteBlog i s a s' :
  Sql.deleteBlog i s = Some (a, s') -> preserves RefsValid s s'.
Proof.
  unfold Sql.deleteBlog. intros H. cbv zeta in H. open_stmt H; [now intros ?|].
  intros [Ha Hc Hpb Hpa Hpc Hlp Hlt Hm].
  assert (Hkeep : forall p, In p (filter (fun p => negb (Post.BlogId p =? i)%Z) (Posts s)) ->
                  In p (Posts s) /\ Post.BlogId p <> i).
  { intros p Hin. apply filter_In in Hin as [Hin Hne].
    now apply negb_true_iff, Z.eqb_neq in Hne. }
  split; unfold_ids; eauto.
  - intros x Hin. apply filter_In in Hin as [Hin Hne].
    apply key_survives; [eauto|]. now apply negb_true_iff, Z.eqb_neq in Hne.
  - intros x Hin. apply filter_In in Hin as [Hin Hne].
    apply key_survives; [eauto|]. now apply negb_true_iff, Z.eqb_neq in Hne.
  - intros p Hin. apply Hkeep in Hin as [Hin Hne]. apply key_survives; eauto.
  - intros p k Hin Hk.
    assert (Hno : Sql.hasId (map Author.AuthorId
                    (filter (fun a => (Author.BlogId a =? i)%Z) (Authors s))) k = false).
    { pose proof (existsb_none _ _ p G0 Hin) as Hno. cbv beta in Hno.
      apply orb_false_iff in Hno as [Hno _]. now rewrite Hk in Hno. }
    apply Hkeep in Hin as [Hin _]. apply key_not_gone; eauto.
  - intros p k Hin Hk.
    assert (Hno : Sql.hasId (map Category.CategoryId
                    (filter (fun c => (Category.BlogId c =? i)%Z) (Categories s))) k = false).
    { pose proof (existsb_none _ _ p G0 Hin) as Hno. cbv beta in Hno.
      apply orb_false_iff in Hno as [_ Hno]. now rewrite Hk in Hno. }
    apply Hkeep in Hin as [Hin _]. apply key_not_gone; eauto.
  - intros pt Hin. apply filter_In in Hin as [Hin Hne]. apply negb_true_iff in Hne.
    apply key_not_gone; eauto.
  - intros pt Hin. apply filter_In in Hin as [Hin _]. eauto.
  - intros c Hin. apply filter_In in Hin as [Hin Hne]. apply negb_true_iff in Hne.
    apply key_not_gone; eauto.
Qed.

Lemma preserves_refl (I : Store -> Prop) (s : Store) : preserves I s s.
Proof. now intros ?. Qed.

Lemma preserves_trans (I : Store -> Prop) (s1 s2 s3 : Store) :
  preserves I s1 s2 -> preserves I s2 s3 -> preserves I s1 s3.
Proof. unfold preserves. auto. Qed.

Ltac refs_stmt :=
  intros;
  eauto using refs_insertBlog, refs_insertAuthor, refs_insertCategory, refs_insertPost,
    refs_insertTag, refs_insertPostTag, refs_insertComment, refs_updateBlog,
    refs_updateAuthor, refs_updateCategory, refs_updatePost, refs_updateTag,
    refs_updateComment, refs_deleteBlog, refs_deleteAuthor, refs_deleteCategory,
    refs_deletePost, refs_deleteTag, refs_deletePostTags, refs_deleteComment.

Ltac refs_step :=
  moves_step (preserves_refl RefsValid) (preserves_trans RefsValid) refs_stmt.

Lemma refs_handler (rt : Runtime) (r : Resource) method id request :
  moves (preserves RefsValid) (handlerOf rt r method id request).
Proof.
  destruct r; cbn [handlerOf];
    unfold handleBlogs, handleAuthors, handleCategories, handlePosts, handleTags,
      handleComments; repeat refs_step.
Qed.

Lemma refs_createPosts (rt : Runtime) blog author category postTexts :
  forall i createdPosts,
    moves (preserves RefsValid) (createPosts rt blog author category postTexts i createdPosts).
Proof.
  induction postTexts as [|entry rest IH]; intros i createdPosts; cbn [createPosts].
  - apply (moves_ret _ (preserves_refl RefsValid)).
  - destruct (isEmpty _); [apply IH|]. repeat first [ apply IH | refs_step ].
Qed.

Lemma refs_handleSimplePost (rt : Runtime) method request :
  moves (preserves RefsValid) (handleSimplePost rt method request).
Proof.
  unfold handleSimplePost. destruct (negb _); [apply (moves_ret _ (preserves_refl RefsValid))|].
  apply moves_catch.
  unfold simplePost, findOrCreateBlog, findOrCreateAuthor, findOrCreateCategory.
  repeat first [ apply refs_createPosts | refs_step ].
Qed.

(** X15.  No request leaves a dangling reference: when every foreign key of the
    schema refers to a row before a request, so it does after it, whatever
    the request and however it ends. *)
Theorem references_stay_valid (rt : Runtime) (request : Request) (w : World) :
  referencesOk (db w) = true ->
  referencesOk (db (snd (handleRequest rt request w))) = true.
Proof.
  rewrite !referencesOk_spec. revert w.
  change (moves (preserves RefsValid) (handleRequest rt request)).
  unfold handleRequest. cbv zeta.
  destruct (negb _); [apply (moves_ret _ (preserves_refl RefsValid))|].
  apply moves_catch.
  repeat match goal with |- moves _ (if ?b then _ else _) => destruct b end;
    first [ exact (refs_handler rt RBlogs (method request) (pathId (pathSegments request))
                     request)
          | exact (refs_handler rt RAuthors (method request) (pathId (pathSegments request))
                     request)
          | exact (refs_handler rt RCategories (method request)
                     (pathId (pathSegments request)) request)
          | exact (refs_handler rt RPosts (method request) (pathId (pathSegments request))
                     request)
          | exact (refs_handler rt RTags (method request) (pathId (pathSegments request))
                     request)
          | exact (refs_handler rt RComments (method request) (pathId (pathSegments request))
                     request)
          | apply refs_handleSimplePost
          | apply (moves_ret _ (preserves_refl RefsValid)) ].
Qed.

(** The database after one ingestion, and a second ingestion into it. *)
Lemma references_stay_valid_witness :
  let request := simpleRequest (js "https://other.org") [js "First"; js "Second"] in
  referencesOk (db afterIngestion) = true
  /\ referencesOk (db (snd (handleRequest Sample.runtime request afterIngestion))) = true.
Proof.
  cbv zeta. refine (conj eq_refl _).
  exact (references_stay_valid Sample.runtime
           (simpleRequest (js "https://other.org") [js "First"; js "Second"])
           afterIngestion eq_refl).
Defined.

(** ** Unique keys *)

Lemma distinct_spec {A} (eqb : A -> A -> bool) (l : list A) :
  (forall x y, eqb x y = true <-> x = y) -> distinct eqb l = true <-> NoDup l.
Proof.
  intros Heq. induction l as [|x r IH]; cbn [distinct].
  - split; [constructor | reflexivity].
  - rewrite andb_true_iff, negb_true_iff, IH. split.
    + intros [Hx Hr]. constructor; [|exact Hr]. intros Hin.
      assert (existsb (eqb x) r = true) by (apply existsb_exists; exists x; split;
                                            [exact Hin | now apply Heq]).
      congruence.
    + intros H. inversion H as [|? ? Hx Hr]; subst. split; [|exact Hr].
      destruct (existsb (eqb x) r) eqn:E; [|reflexivity].
      apply existsb_exists in E as (y & Hin & E). apply Heq in E. now subst.
Qed.

Lemma linkEqb_eq (a b : Z * Z) : linkEqb a b = true <-> a = b.
Proof.
  unfold linkEqb. rewrite andb_true_iff, !Z.eqb_eq. destruct a, b; cbn.
  split; [intros [-> ->]; reflexivity | intros H; injection H; auto].
Qed.

Lemma keysOk_spec (s : Store) : keysOk s = true <-> KeysUnique s.
Proof.
  unfold keysOk. rewrite !andb_true_iff.
  rewrite !(distinct_spec Z.eqb) by apply Z.eqb_eq.
  rewrite !(distinct_spec JS.eqb) by apply eqb_eq.
  rewrite (distinct_spec linkEqb) by apply linkEqb_eq.
  split.
  - intros ((((((((H1 & H2) & H3) & H4) & H5) & H6) & H7) & H8) & H9). now split.
  - intros [H1 H2 H3 H4 H5 H6 H7 H8 H9]. auto 10.
Qed.

Lemma NoDup_snoc {A} (l : list A) (x : A) : NoDup l -> ~ In x l -> NoDup (l ++ [x]).
Proof.
  intros Hl Hx. apply NoDup_app; [exact Hl | repeat constructor; intros [] |].
  intros y Hy [<- | []]. contradiction.
Qed.

(** A new row under a fresh rowid. *)
Lemma NoDup_fresh {A} (key : A -> Z) (l : list A) (r : A) :
  key r = Sql.nextId (map key l) -> NoDup (map key l) -> NoDup (map key (l ++ [r])).
Proof.
  intros Hr Hl. rewrite map_app. cbn. apply NoDup_snoc; [exact Hl|].
  rewrite Hr. intros Hin. apply hasId_In in Hin. now rewrite nextId_fresh in Hin.
Qed.

(** The rows that a DELETE leaves have distinct keys when all rows had. *)
Lemma keys_of_filter {A K} (key : A -> K) (keep : A -> bool) (rows : list A)
    (H : NoDup (map key rows)) :
  NoDup (map key (filter keep rows)).
Proof.
  induction rows as [|x rows IH]; cbn in *; [exact H|].
  inversion H as [|? ? Hx Hrows]; subst.
  destruct (keep x); [|auto]. cbn. constructor; [|auto].
  intros Hin. apply Hx. apply in_map_iff in Hin as (y & E & Hy).
  apply filter_In in Hy as [Hy _]. rewrite <- E. now apply in_map.
Qed.

(** Giving the row of one key a new value of a unique column, when no
    other row has that value. *)
Lemma NoDup_updated {A V} (key : A -> Z) (val : A -> V) (f : A -> A) (id : Z) (v : V)
    (l : list A) :
  NoDup (map key l) -> NoDup (map val l) ->
  (forall x, val (f x) = v) ->
  (forall x, In x l -> key x <> id -> val x <> v) ->
  NoDup (map val (map (fun x => if (key x =? id)%Z then f x else x) l)).
Proof.
  intros Hk Hv Hf Hother. induction l as [|b r IH]; cbn; [constructor|].
  inversion Hk as [|? ? Hkb Hkr]; subst. inversion Hv as [|? ? Hvb Hvr]; subst.
  assert (IH' := IH Hkr Hvr (fun x Hx => Hother x (or_intror Hx))). clear IH.
  destruct (key b =? id)%Z eqn:E.
  - apply Z.eqb_eq in E. rewrite Hf.
    assert (Hsame : map (fun x => if (key x =? id)%Z then f x else x) r = r).
    { apply (map_absent key). destruct (Sql.hasId (map key r) id) eqn:Hid; [|reflexivity].
      apply hasId_In in Hid. now rewrite <- E in Hid. }
    rewrite Hsame. constructor; [|exact Hvr].
    intros Hin. apply in_map_iff in Hin as (x & Ex & Hx).
    apply (Hother x (or_intror Hx)); [|exact Ex].
    intros Kx. apply Hkb. rewrite E, <- Kx. now apply in_map.
  - apply Z.eqb_neq in E. constructor; [|exact IH'].
    intros Hin. apply in_map_iff in Hin as (y & Ey & Hy).
    apply in_updated in Hy as [Hy | (x & Hx & Kx & ->)].
    + apply Hvb. rewrite <- Ey. now apply in_map.
    + rewrite Hf in Ey. exact (Hother b (or_introl eq_refl) E (eq_sym Ey)).
Qed.

Ltac fresh_key := apply NoDup_fresh; [reflexivity | assumption].

Lemma keys_insertBlog n sl d u c s a s' :
  Sql.insertBlog n sl d u c s = Some (a, s') -> preserves KeysUnique s s'.
Proof.
  unfold Sql.insertBlog. intros H. open_stmt H.
  intros [K1 K2 K3 K4 K5 K6 K7 K8 K9]. split; unfold_ids; eauto; [fresh_key|].
  rewrite map_app. apply NoDup_snoc; [exact K7|].
  intros Hin. apply in_map_iff in Hin as (b & E & Hb).
  pose proof (existsb_none _ _ b G Hb) as Hno. cbv beta in Hno.
  cbn in E. now rewrite E, eqb_refl in Hno.
Qed.

Lemma keys_insertAuthor b n e p bi c s a s' :
  Sql.insertAuthor b n e p bi c s = Some (a, s') -> preserves KeysUnique s s'.
Proof.
  unfold Sql.insertAuthor. intros H. open_stmt H.
  intros [K1 K2 K3 K4 K5 K6 K7 K8 K9]. split; unfold_ids; eauto; fresh_key.
Qed.

Lemma keys_insertCategory b n sl s a s' :
  Sql.insertCategory b n sl s = Some (a, s') -> preserves KeysUnique s s'.
Proof.
  unfold Sql.insertCategory. intros H. open_stmt H.
  intros [K1 K2 K3 K4 K5 K6 K7 K8 K9]. split; unfold_ids; eauto; fresh_key.
Qed.

Lemma keys_insertPost row s a s' :
  Sql.insertPost row s = Some (a, s') -> preserves KeysUnique s s'.
Proof.
  unfold Sql.insertPost. intros H. open_stmt H.
  intros [K1 K2 K3 K4 K5 K6 K7 K8 K9]. split; unfold_ids; eauto; fresh_key.
Qed.

Lemma keys_insertComment row s a s' :
  Sql.insertComment row s = Some (a, s') -> preserves KeysUnique s s'.
Proof.
  unfold Sql.insertComment. intros H. open_stmt H.
  intros [K1 K2 K3 K4 K5 K6 K7 K8 K9]. split; unfold_ids; eauto; fresh_key.
Qed.

Lemma keys_insertTag n s a s' :
  Sql.insertTag n s = Some (a, s') -> preserves KeysUnique s s'.
Proof.
  unfold Sql.insertTag. intros H. open_stmt H.
  intros [K1 K2 K3 K4 K5 K6 K7 K8 K9]. split; unfold_ids; eauto; [fresh_key|].
  rewrite map_app. apply NoDup_snoc; [exact K8|].
  intros Hin. apply in_map_iff in Hin as (t & E & Ht).
  unfold Sql.selectTagByName in G.
  pose proof (find_none _ _ G t Ht) as Hno. cbv beta in Hno.
  cbn in E. now rewrite E, eqb_refl in Hno.
Qed.

Lemma keys_insertPostTag p t s a s' :
  Sql.insertPostTag p t s = Some (a, s') -> preserves KeysUnique s s'.
Proof.
  unfold Sql.insertPostTag. intros H. open_stmt H.
  intros [K1 K2 K3 K4 K5 K6 K7 K8 K9]. split; unfold_ids; eauto.
  apply NoDup_snoc; [exact K9|]. intros Hin.
  apply orb_false_iff in G as [G _]. apply orb_false_iff in G as [G _].
  pose proof (existsb_none _ _ _ G Hin) as Hno. cbn in Hno.
  now rewrite !Z.eqb_refl in Hno.
Qed.

Ltac thin_keys := first [ assumption | apply keys_of_filter; assumption
                        | apply NoDup_filter; assumption ].

Lemma keys_deleteBlog i s a s' :
  Sql.deleteBlog i s = Some (a, s') -> preserves KeysUnique s s'.
Proof.
  unfold Sql.deleteBlog. intros H. cbv zeta in H. open_stmt H; [now intros ?|].
  intros [K1 K2 K3 K4 K5 K6 K7 K8 K9]. split; unfold_ids; thin_keys.
Qed.

Lemma keys_deleteAuthor i s a s' :
  Sql.deleteAuthor i s = Some (a, s') -> preserves KeysUnique s s'.
Proof.
  unfold Sql.deleteAuthor. intros H. open_stmt H.
  intros [K1 K2 K3 K4 K5 K6 K7 K8 K9]. split; unfold_ids; thin_keys.
Qed.

Lemma keys_deleteCategory i s a s' :
  Sql.deleteCategory i s = Some (a, s') -> preserves KeysUnique s s'.
Proof.
  unfold Sql.deleteCategory. intros H. open_stmt H.
  intros [K1 K2 K3 K4 K5 K6 K7 K8 K9]. split; unfold_ids; thin_keys.
Qed.

Lemma keys_deletePost i s a s' :
  Sql.deletePost i s = Some (a, s') -> preserves KeysUnique s s'.
Proof.
  unfold Sql.deletePost. intros H. open_stmt H; [now intros ?|].
  intros [K1 K2 K3 K4 K5 K6 K7 K8 K9]. split; unfold_ids; thin_keys.
Qed.

Lemma keys_deleteTag i s a s' :
  Sql.deleteTag i s = Some (a, s') -> preserves KeysUnique s s'.
Proof.
  unfold Sql.deleteTag. intros H. open_stmt H; [now intros ?|].
  intros [K1 K2 K3 K4 K5 K6 K7 K8 K9]. split; unfold_ids; thin_keys.
Qed.

Lemma keys_deletePostTags p s a s' :
  Sql.deletePostTags p s = Some (a, s') -> preserves KeysUnique s s'.
Proof.
  unfold Sql.deletePostTags. intros H. open_stmt H.
  intros [K1 K2 K3 K4 K5 K6 K7 K8 K9]. split; unfold_ids; thin_keys.
Qed.

Lemma keys_deleteComment i s a s' :
  Sql.deleteComment i s = Some (a, s') -> preserves KeysUnique s s'.
Proof.
  unfold Sql.deleteComment. intros H. open_stmt H.
  intros [K1 K2 K3 K4 K5 K6 K7 K8 K9]. split; unfold_ids; thin_keys.
Qed.

Lemma keys_updateAuthor i b n e p bi s a s' :
  Sql.updateAuthor i b n e p bi s = Some (a, s') -> preserves KeysUnique s s'.
Proof.
  unfold Sql.updateAuthor. intros H. open_stmt H.
  intros [K1 K2 K3 K4 K5 K6 K7 K8 K9]. split; unfold_ids; same_keys; assumption.
Qed.

Lemma keys_updateCategory i b n sl s a s' :
  Sql.updateCategory i b n sl s = Some (a, s') -> preserves KeysUnique s s'.
Proof.
  unfold Sql.updateCategory. intros H. open_stmt H.
  intros [K1 K2 K3 K4 K5 K6 K7 K8 K9]. split; unfold_ids; same_keys; assumption.
Qed.

Lemma keys_updatePost i row s a s' :
  Sql.updatePost i row s = Some (a, s') -> preserves KeysUnique s s'.
Proof.
  unfold Sql.updatePost. intros H. open_stmt H.
  intros [K1 K2 K3 K4 K5 K6 K7 K8 K9]. split; unfold_ids; same_keys; assumption.
Qed.

Lemma keys_updateComment i row s a s' :
  Sql.updateComment i row s = Some (a, s') -> preserves KeysUnique s s'.
Proof.
  unfold Sql.updateComment. intros H. open_stmt H.
  intros [K1 K2 K3 K4 K5 K6 K7 K8 K9]. split; unfold_ids; same_keys; assumption.
Qed.

Lemma keys_updateBlog i n sl d u s a s' :
  Sql.updateBlog i n sl d u s = Some (a, s') -> preserves KeysUnique s s'.
Proof.
  unfold Sql.updateBlog. intros H. open_stmt H.
  intros [K1 K2 K3 K4 K5 K6 K7 K8 K9]. split; unfold_ids; same_keys; try assumption.
  apply andb_false_iff in G as [G|G].
  - rewrite (map_absent Blog.BlogId) by exact G. exact K7.
  - apply (NoDup_updated Blog.BlogId Blog.Slug _ i sl); auto.
    intros b Hb Hne E.
    pose proof (existsb_none _ _ b G Hb) as Hno. cbv beta in Hno.
    rewrite E, eqb_refl in Hno. apply Z.eqb_neq in Hne. now rewrite Hne in Hno.
Qed.

Lemma keys_updateTag i n s a s' :
  Sql.updateTag i n s = Some (a, s') -> preserves KeysUnique s s'.
Proof.
  unfold Sql.updateTag. intros H.
  destruct (Sql.hasId (Sql.tagIds s) i) eqn:Hid.
  - destruct (Sql.selectTagByName n (Some i) s) eqn:G; [discriminate|].
    injection H as _ <-.
    intros [K1 K2 K3 K4 K5 K6 K7 K8 K9]. split; unfold_ids; same_keys; try assumption.
    apply (NoDup_updated Tag.TagId Tag.Name _ i n); auto.
    intros t Ht Hne E. unfold Sql.selectTagByName in G.
    pose proof (find_none _ _ G t Ht) as Hno. cbv beta in Hno.
    rewrite E, eqb_refl in Hno. apply Z.eqb_neq in Hne. now rewrite Hne in Hno.
  - injection H as _ <-.
    intros [K1 K2 K3 K4 K5 K6 K7 K8 K9]. split; unfold_ids; same_keys; try assumption.
    rewrite (map_absent Tag.TagId) by exact Hid. exact K8.
Qed.

Ltac keys_stmt :=
  intros;
  eauto using keys_insertBlog, keys_insertAuthor, keys_insertCategory, keys_insertPost,
    keys_insertTag, keys_insertPostTag, keys_insertComment, keys_updateBlog,
    keys_updateAuthor, keys_updateCategory, keys_updatePost, keys_updateTag,
    keys_updateComment, keys_deleteBlog, keys_deleteAuthor, keys_deleteCategory,
    keys_deletePost, keys_deleteTag, keys_deletePostTags, keys_deleteComment.

Ltac keys_step :=
  moves_step (preserves_refl KeysUnique) (preserves_trans KeysUnique) keys_stmt.

Lemma keys_handler (rt : Runtime) (r : Resource) method id request :
  moves (preserves KeysUnique) (handlerOf rt r method id request).
Proof.
  destruct r; cbn [handlerOf];
    unfold handleBlogs, handleAuthors, handleCategories, handlePosts, handleTags,
      handleComments; repeat keys_step.
Qed.

Lemma keys_createPosts (rt : Runtime) blog author category postTexts :
  forall i createdPosts,
    moves (preserves KeysUnique) (createPosts rt blog author category postTexts i createdPosts).
Proof.
  induction postTexts as [|entry rest IH]; intros i createdPosts; cbn [createPosts].
  - apply (moves_ret _ (preserves_refl KeysUnique)).
  - destruct (isEmpty _); [apply IH|]. repeat first [ apply IH | keys_step ].
Qed.

Lemma keys_handleSimplePost (rt : Runtime) method request :
  moves (preserves KeysUnique) (handleSimplePost rt method request).
Proof.
  unfold handleSimplePost. destruct (negb _); [apply (moves_ret _ (preserves_refl KeysUnique))|].
  apply moves_catch.
  unfold simplePost, findOrCreateBlog, findOrCreateAuthor, findOrCreateCategory.
  repeat first [ apply keys_createPosts | keys_step ].
Qed.

(** X16.  No request breaks a key: when no two rows of a table share the primary
    key, no two blogs a Slug, no two tags a Name, and no tag link is there
    twice before a request, the same holds after it, whatever the request
    and however it ends. *)
Theorem keys_stay_unique (rt : Runtime) (request : Request) (w : World) :
  keysOk (db w) = true ->
  keysOk (db (snd (handleRequest rt request w))) = true.
Proof.
  rewrite !keysOk_spec. revert w.
  change (moves (preserves KeysUnique) (handleRequest rt request)).
  unfold handleRequest. cbv zeta.
  destruct (negb _); [apply (moves_ret _ (preserves_refl KeysUnique))|].
  apply moves_catch.
  repeat match goal with |- moves _ (if ?b then _ else _) => destruct b end;
    first [ exact (keys_handler rt RBlogs (method request) (pathId (pathSegments request))
                     request)
          | exact (keys_handler rt RAuthors (method request) (pathId (pathSegments request))
                     request)
          | exact (keys_handler rt RCategories (method request)
                     (pathId (pathSegments request)) request)
          | exact (keys_handler rt RPosts (method request) (pathId (pathSegments request))
                     request)
          | exact (keys_handler rt RTags (method request) (pathId (pathSegments request))
                     request)
          | exact (keys_handler rt RComments (method request) (pathId (pathSegments request))
                     request)
          | apply keys_handleSimplePost
          | apply (moves_ret _ (preserves_refl KeysUnique)) ].
Qed.

(** The same two ingestions. *)
Lemma keys_stay_unique_witness :
  let request := simpleRequest (js "https://other.org") [js "First"; js "Second"] in
  keysOk (db afterIngestion) = true
  /\ keysOk (db (snd (handleRequest Sample.runtime request afterIngestion))) = true.
Proof.
  cbv zeta. refine (conj eq_refl _).
  exact (keys_stay_unique Sample.runtime
           (simpleRequest (js "https://other.org") [js "First"; js "Second"])
           afterIngestion eq_refl).
Defined.


(** ** Creating and renaming a tag *)

Lemma find_existsb {A} (p : A -> bool) (l : list A) : isSome (find p l) = existsb p l.
Proof.
  induction l as [|x l IH]; cbn; [reflexivity|]. destruct (p x); [reflexivity | exact IH].
Qed.

Lemma selectTagByName_taken (name : jsstring) (except : option Z) (s : Store) :
  isSome (Sql.selectTagByName name except s) = nameTaken name except s.
Proof. apply find_existsb. Qed.

(** X17.  A POST to /api/tags with a Name is answered 409, with nothing changed,
    when a tag has exactly that name; otherwise it adds the tag under the
    next rowid and answers 200 with the new tag and a PostCount of 0. *)
Theorem tag_create (rt : Runtime) (seg : option jsstring) (request : Request)
    (data : Json.t) (name : jsstring) (w : World) :
  method request = js "POST" ->
  pathname request = pathOf RTags seg ->
  segmentOk seg = true ->
  body request = Some data ->
  truthyS (Json.Name data) = Some name ->
  handleRequest rt request w
  = if nameTaken name None (db w)
    then (Ok (createErrorResponse "Tag with this name already exists" 409), w)
    else
      let tag := renamed (Sql.nextId (Sql.tagIds (db w))) name in
      (Ok (createSuccessResponse (ATag (tag, 0%Z))),
       {| db := Sql.withTags (db w) (Tags (db w) ++ [tag]); reads := reads w |}).
Proof.
  intros Hm Hpath Hseg Hbody Hname.
  rewrite (route_any rt RTags seg request w Hpath Hseg), Hm.
  cbn [handlerOf]. unfold handleTags, isMethod. literal_tests. cbv iota.
  unfold json, catch. rewrite Hbody, bind_ret, Hname.
  rewrite <- selectTagByName_taken.
  destruct (Sql.selectTagByName name None (db w)) as [t|] eqn:E.
  - run_step (query_run _ w _ E). reflexivity.
  - run_step (query_run _ w _ E). cbn [isSome].
    assert (Hins : Sql.insertTag name (db w)
                   = Some (Sql.nextId (Sql.tagIds (db w)),
                           Sql.withTags (db w)
                             (Tags (db w) ++ [renamed (Sql.nextId (Sql.tagIds (db w))) name])))
      by (unfold Sql.insertTag; now rewrite E).
    run_step (exec_run _ w _ _ Hins).
    unfold bind, query, Sql.selectNewTag, Sql.selectTagRow, Sql.withTags, Sql.tagIds.
    cbn [db Tags]. rewrite find_appended by reflexivity. reflexivity.
Qed.

(** POST /api/tags with the name "rocq", twice. *)
Lemma tag_create_witness :
  let data := blogBody (js "rocq") [] in
  let request := plainRequest "POST" "/api/tags" (Some data) in
  method request = js "POST"
  /\ pathname request = pathOf RTags None
  /\ body request = Some data
  /\ truthyS (Json.Name data) = Some (js "rocq")
  /\ handleRequest Sample.runtime request afterIngestion
     = (Ok (createSuccessResponse (ATag (renamed 1 (js "rocq"), 0%Z))), afterTag)
  /\ handleRequest Sample.runtime request afterTag
     = (Ok (createErrorResponse "Tag with this name already exists" 409), afterTag).
Proof.
  cbv zeta. refine (conj eq_refl (conj eq_refl (conj eq_refl (conj eq_refl (conj _ _))))).
  - exact (tag_create Sample.runtime None
             (plainRequest "POST" "/api/tags" (Some (blogBody (js "rocq") [])))
             (blogBody (js "rocq") []) (js "rocq") afterIngestion
             eq_refl eq_refl eq_refl eq_refl eq_refl).
  - exact (tag_create Sample.runtime None
             (plainRequest "POST" "/api/tags" (Some (blogBody (js "rocq") [])))
             (blogBody (js "rocq") []) (js "rocq") afterTag
             eq_refl eq_refl eq_refl eq_refl eq_refl).
Defined.

(** The row that an UPDATE by key leaves under that key. *)
Lemma find_updated {A} (key : A -> Z) (row : A) (id : Z) (l : list A) :
  key row = id -> Sql.hasId (map key l) id = true ->
  find (fun x => (key x =? id)%Z) (map (fun x => if (key x =? id)%Z then row else x) l)
  = Some row.
Proof.
  intros Hrow. induction l as [|x l IH]; cbn; [discriminate|].
  rewrite Z.eqb_sym. destruct (key x =? id)%Z eqn:E; cbn.
  - intros _. now rewrite Hrow, Z.eqb_refl.
  - intros H. rewrite E. now apply IH.
Qed.

(** X18.  A PUT to /api/tags/{id} with a Name, for a tag that exists, is answered
    409, with nothing changed, when another tag has exactly that name;
    otherwise (also when the name is the tag's own) it renames the tag and
    answers 200 with the tag and the number of posts that carry it. *)
Theorem tag_rename (rt : Runtime) (seg : jsstring) (id : Z) (request : Request)
    (data : Json.t) (name : jsstring) (w : World) :
  method request = js "PUT" ->
  pathname request = pathOf RTags (Some seg) ->
  isSegment seg = true ->
  parseInt seg = Some id ->
  id <> 0%Z ->
  body request = Some data ->
  truthyS (Json.Name data) = Some name ->
  rowExists RTags id (db w) = true ->
  handleRequest rt request w
  = if nameTaken name (Some id) (db w)
    then (Ok (createErrorResponse "Tag with this name already exists" 409), w)
    else
      (Ok (createSuccessResponse (ATag (renamed id name, Sql.postCount (db w) (renamed id name)))),
       {| db := Sql.withTags (db w)
                  (map (fun t => if (Tag.TagId t =? id)%Z then renamed id name else t)
                       (Tags (db w)));
          reads := reads w |}).
Proof.
  intros Hm Hpath Hseg Hparse Hid Hbody Hname Hex.
  rewrite (route_any rt RTags (Some seg) request w Hpath Hseg), Hm.
  cbn [handlerOf idOf]. rewrite Hparse.
  unfold handleTags, isMethod. literal_tests. cbv iota.
  cbn [truthyId]. rewrite (proj2 (Z.eqb_neq id 0) Hid).
  unfold json, catch. rewrite Hbody, bind_ret, Hname.
  rewrite <- selectTagByName_taken.
  destruct (Sql.selectTagByName name (Some id) (db w)) as [t|] eqn:E.
  - run_step (query_run _ w _ E). reflexivity.
  - run_step (query_run _ w _ E). cbn [isSome].
    unfold rowExists in Hex.
    assert (Hup : Sql.updateTag id name (db w)
                  = Some (tt, Sql.withTags (db w)
                                (map (fun t => if (Tag.TagId t =? id)%Z
                                               then renamed id name else t) (Tags (db w)))))
      by (unfold Sql.updateTag; now rewrite Hex, E).
    run_step (exec_run _ w _ _ Hup).
    unfold bind, query, Sql.selectTag, Sql.selectTagRow, Sql.withTags.
    cbn [db Tags]. rewrite (find_updated Tag.TagId) by (reflexivity || exact Hex).
    reflexivity.
Qed.

(** PUT /api/tags/1 with the tag's own name. *)
Lemma tag_rename_witness :
  let data := blogBody (js "rocq") [] in
  let request := plainRequest "PUT" "/api/tags/1" (Some data) in
  method request = js "PUT"
  /\ pathname request = pathOf RTags (Some (js "1"))
  /\ isSegment (js "1") = true
  /\ parseInt (js "1") = Some 1%Z
  /\ 1%Z <> 0%Z
  /\ body request = Some data
  /\ truthyS (Json.Name data) = Some (js "rocq")
  /\ rowExists RTags 1 (db afterTag) = true
  /\ handleRequest Sample.runtime request afterTag
     = (Ok (createSuccessResponse (ATag (renamed 1 (js "rocq"), 0%Z))), afterTag).
Proof.
  cbv zeta.
  assert (Hid : 1%Z <> 0%Z) by discriminate.
  refine (conj eq_refl (conj eq_refl (conj eq_refl (conj eq_refl (conj Hid
            (conj eq_refl (conj eq_refl (conj eq_refl _)))))))).
  exact (tag_rename Sample.runtime (js "1") 1
           (plainRequest "PUT" "/api/tags/1" (Some (blogBody (js "rocq") [])))
           (blogBody (js "rocq") []) (js "rocq") afterTag
           eq_refl eq_refl eq_refl eq_refl Hid eq_refl eq_refl eq_refl).
Defined.

(** ** The tags of a post *)

(** Linking a post to tags that exist and that it does not have yet. *)
Lemma link_all (id : Z) (tags : list Z) :
  forall w,
    Sql.hasId (Sql.postIds (db w)) id = true ->
    forallb (Sql.hasId (Sql.tagIds (db w))) tags = true ->
    NoDup tags ->
    (forall t, In t tags -> ~ In (id, t) (PostTags (db w))) ->
    forEach (fun tagId => exec (Sql.insertPostTag id tagId)) tags w
    = (Ok tt, {| db := Sql.withPostTags (db w) (PostTags (db w) ++ map (pair id) tags);
                 reads := reads w |}).
Proof.
  induction tags as [|t rest IH]; intros w Hpost Htags Hnd Hnew; cbn [forEach map].
  - unfold ret. rewrite app_nil_r. destruct w as [[] n]; reflexivity.
  - cbn [forallb] in Htags. apply andb_true_iff in Htags as [Ht Hrest].
    inversion Hnd as [|? ? Hnt Hnd']; subst.
    assert (Hins : Sql.insertPostTag id t (db w)
                   = Some (tt, Sql.withPostTags (db w) (PostTags (db w) ++ [(id, t)]))).
    { unfold Sql.insertPostTag. rewrite Hpost, Ht. cbn [negb]. rewrite !orb_false_r.
      destruct (existsb _ (PostTags (db w))) eqn:E; [|reflexivity].
      apply existsb_exists in E as ([p q] & Hin & E). cbn in E.
      apply andb_true_iff in E as [E1 E2]. apply Z.eqb_eq in E1, E2. subst.
      now destruct (Hnew t (or_introl eq_refl)). }
    run_step (exec_run _ w _ _ Hins).
    rewrite IH; cbn [db reads]; try assumption.
    + unfold Sql.withPostTags. cbn [Blogs Authors Categories Posts Tags PostTags Comments].
      now rewrite <- app_assoc.
    + intros t' Hin' Hlink. apply in_app_or in Hlink as [Hlink | [E | []]].
      * exact (Hnew t' (or_intror Hin') Hlink).
      * injection E as ->. contradiction.
Qed.

(** Linking a post to tags of which one does not exist fails, and leaves
    the posts and the tags as they are. *)
Lemma link_missing (id : Z) (tags : list Z) :
  forall w,
    forallb (Sql.hasId (Sql.tagIds (db w))) tags = false ->
    exists w',
      forEach (fun tagId => exec (Sql.insertPostTag id tagId)) tags w = (Thrown, w')
      /\ Posts (db w') = Posts (db w) /\ Tags (db w') = Tags (db w).
Proof.
  induction tags as [|t rest IH]; intros w Htags; cbn [forEach forallb] in *; [discriminate|].
  destruct (Sql.insertPostTag id t (db w)) as [[[] s']|] eqn:E.
  - run_step (exec_run _ w _ _ E).
    unfold Sql.insertPostTag in E. destruct (_ || _) eqn:G; [discriminate|].
    injection E as <-. apply orb_false_iff in G as [_ G]. apply negb_false_iff in G.
    rewrite G in Htags. cbn [andb] in Htags.
    destruct (IH {| db := Sql.withPostTags (db w) (PostTags (db w) ++ [(id, t)]);
                    reads := reads w |} Htags) as (w' & Hrun & HP & HT).
    exists w'. auto.
  - exists w. split; [|auto]. apply bind_thrown. unfold exec. now rewrite E.
Qed.

Lemma updatePost_ok (id : Z) (row : Post.t) (s : Store) :
  Sql.postRefsOk (Post.BlogId row) (Post.AuthorId row) (Post.CategoryId row) s = true ->
  exists s2,
    Sql.updatePost id row s = Some (tt, s2)
    /\ Sql.postIds s2 = Sql.postIds s /\ Tags s2 = Tags s /\ PostTags s2 = PostTags s.
Proof.
  intros Hrefs. unfold Sql.updatePost. rewrite Hrefs, andb_false_r.
  eexists. split; [reflexivity|]. unfold Sql.postIds, Sql.withPosts. cbn [Posts Tags PostTags].
  split; [|auto]. now rewrite keys_updated.
Qed.

(** The tags that a post has when its links are [tags] and nothing else. *)
Lemma tags_of_links (id : Z) (tags : list Z) (others : list (Z * Z)) (t : Tag.t) :
  (forall pt, In pt others -> fst pt <> id) ->
  existsb (fun pt => (fst pt =? id)%Z && (snd pt =? Tag.TagId t)%Z)
          (others ++ map (pair id) tags)
  = Sql.hasId tags (Tag.TagId t).
Proof.
  intros Hothers. rewrite existsb_app.
  assert (H1 : existsb (fun pt => (fst pt =? id)%Z && (snd pt =? Tag.TagId t)%Z) others = false).
  { apply not_true_is_false. intros H. apply existsb_exists in H as (pt & Hin & H).
    apply andb_true_iff in H as [H _]. apply Z.eqb_eq in H. now apply (Hothers pt). }
  rewrite H1. cbn [orb]. unfold Sql.hasId.
  induction tags as [|x r IH]; cbn; [reflexivity|].
  now rewrite Z.eqb_refl, IH, (Z.eqb_sym x).
Qed.

(** X19.  A PUT to /api/posts/{id} whose body passes the checks and carries a
    [tags] array of distinct ids of tags that exist replaces the tags of
    the post by exactly those: the links of other posts stay, and the tags
    that GET /api/posts/{id} lists afterwards are the tags of the array. *)
Theorem put_tags_replaces_links (rt : Runtime) (seg : jsstring) (id : Z) (request : Request)
    (data : Json.t) (title slug : jsstring) (blogId : Z) (tags : list Z) (w : World) :
  method request = js "PUT" ->
  pathname request = pathOf RPosts (Some seg) ->
  isSegment seg = true ->
  parseInt seg = Some id ->
  id <> 0%Z ->
  body request = Some data ->
  truthyS (Json.Title data) = Some title ->
  truthyS (Json.Slug data) = Some slug ->
  truthyZ (Json.BlogId data) = Some blogId ->
  Sql.postRefsOk blogId (truthyZ (Json.AuthorId data)) (truthyZ (Json.CategoryId data)) (db w)
  = true ->
  Json.tags data = TagsArray tags ->
  rowExists RPosts id (db w) = true ->
  forallb (Sql.hasId (Sql.tagIds (db w))) tags = true ->
  distinct Z.eqb tags = true ->
  exists response w',
    handleRequest rt request w = (Ok response, w')
    /\ status response = 200%Z
    /\ PostTags (db w')
       = filter (fun pt => negb (fst pt =? id)%Z) (PostTags (db w)) ++ map (pair id) tags
    /\ Sql.selectTagsOfPost id (db w')
       = filter (fun t => Sql.hasId tags (Tag.TagId t)) (Tags (db w)).
Proof.
  intros Hm Hpath Hseg Hparse Hid Hbody Htitle Hslug Hblog Hrefs Htags Hex Hall Hdist.
  apply (distinct_spec Z.eqb) in Hdist; [|apply Z.eqb_eq].
  rewrite (route_any rt RPosts (Some seg) request w Hpath Hseg), Hm.
  cbn [handlerOf idOf]. rewrite Hparse.
  unfold handlePosts, isMethod. literal_tests. cbv iota.
  cbn [truthyId]. rewrite (proj2 (Z.eqb_neq id 0) Hid).
  unfold json, catch. rewrite Hbody, bind_ret, Htitle, Hslug, Hblog.
  run_step (checkPostRefs_ok data blogId w Hrefs).
  run_step (getCurrentTimestamp_run rt w).
  set (w1 := {| db := db w; reads := S (reads w) |}).
  destruct (publishedAtOf_db rt data w1) as (publishedAt & n & Hpub).
  run_step Hpub. cbn [db w1].
  set (row := postColumns data title slug blogId publishedAt [] _).
  destruct (updatePost_ok id row (db w) Hrefs) as (s2 & Hup & Hids & HT & HL).
  set (w2 := {| db := db w; reads := n |}).
  run_step (exec_run _ w2 _ _ Hup). rewrite Htags.
  set (w3 := {| db := s2; reads := reads w2 |}).
  assert (Hdel : Sql.deletePostTags id (db w3)
                 = Some (tt, Sql.withPostTags s2
                               (filter (fun pt => negb (fst pt =? id)%Z) (PostTags s2))))
    by reflexivity.
  set (others := filter (fun pt => negb (fst pt =? id)%Z) (PostTags s2)) in *.
  assert (Hothers : forall pt, In pt others -> fst pt <> id).
  { intros pt Hin. apply filter_In in Hin as [_ Hne].
    now apply negb_true_iff, Z.eqb_neq in Hne. }
  match goal with
  | |- context [bind (bind ?m ?k) ?k'] =>
      assert (Hlinks : bind m k w3
                       = (Ok tt, {| db := Sql.withPostTags s2 (others ++ map (pair id) tags);
                                    reads := reads w2 |}))
  end.
  { run_step (exec_run _ w3 _ _ Hdel).
    rewrite link_all; cbn [db reads]; try assumption.
    - reflexivity.
    - unfold rowExists in Hex. unfold Sql.postIds in *. cbn [Posts Sql.withPostTags].
      now rewrite Hids.
    - unfold Sql.tagIds in *. cbn [Tags Sql.withPostTags]. now rewrite HT.
    - intros t _ Hin. cbn [PostTags Sql.withPostTags] in Hin.
      now apply (Hothers _ Hin). }
  run_step Hlinks.
  eexists _, _. split; [reflexivity|]. cbn [db PostTags Sql.withPostTags].
  split; [now destruct (Sql.selectPost _ _)|]. subst others. rewrite HL.
  split; [reflexivity|].
  unfold Sql.selectTagsOfPost. cbn [PostTags Tags Sql.withPostTags]. rewrite HT.
  apply filter_ext. intros t. apply tags_of_links.
  intros pt Hin. apply filter_In in Hin as [_ Hne].
  now apply negb_true_iff, Z.eqb_neq in Hne.
Qed.

(** PUT /api/posts/1 with the tags [1]. *)
Lemma put_tags_replaces_links_witness :
  let data := postBody (js "Hello") (js "hello") 1 (TagsArray [1%Z]) in
  let request := plainRequest "PUT" "/api/posts/1" (Some data) in
  method request = js "PUT"
  /\ pathname request = pathOf RPosts (Some (js "1"))
  /\ isSegment (js "1") = true
  /\ parseInt (js "1") = Some 1%Z
  /\ 1%Z <> 0%Z
  /\ body request = Some data
  /\ Sql.postRefsOk 1 (truthyZ (Json.AuthorId data)) (truthyZ (Json.CategoryId data))
       (db afterTag) = true
  /\ rowExists RPosts 1 (db afterTag) = true
  /\ forallb (Sql.hasId (Sql.tagIds (db afterTag))) [1%Z] = true
  /\ distinct Z.eqb [1%Z] = true
  /\ exists response w',
       handleRequest Sample.runtime request afterTag = (Ok response, w')
       /\ status response = 200%Z
       /\ PostTags (db w')
          = filter (fun pt => negb (fst pt =? 1)%Z) (PostTags (db afterTag))
            ++ map (pair 1%Z) [1%Z]
       /\ Sql.selectTagsOfPost 1 (db w')
          = filter (fun t => Sql.hasId [1%Z] (Tag.TagId t)) (Tags (db afterTag)).
Proof.
  cbv zeta.
  assert (Hid : 1%Z <> 0%Z) by discriminate.
  refine (conj eq_refl (conj eq_refl (conj eq_refl (conj eq_refl (conj Hid
            (conj eq_refl (conj eq_refl (conj eq_refl (conj eq_refl (conj eq_refl _)))))))))).
  exact (put_tags_replaces_links Sample.runtime (js "1") 1
           (plainRequest "PUT" "/api/posts/1"
              (Some (postBody (js "Hello") (js "hello") 1 (TagsArray [1%Z]))))
           (postBody (js "Hello") (js "hello") 1 (TagsArray [1%Z])) (js "Hello") (js "hello") 1
           [1%Z] afterTag
           eq_refl eq_refl eq_refl eq_refl Hid eq_refl eq_refl eq_refl eq_refl eq_refl
           eq_refl eq_refl eq_refl eq_refl).
Defined.

(** X20.  No transaction surrounds the statements of a handler.  A POST to
    /api/posts whose body passes the checks but whose [tags] array names a
    tag that does not exist is answered 500, and yet the post has been
    created: it is the last row of Posts afterwards. *)
Theorem failed_tag_link_keeps_post (rt : Runtime) (seg : option jsstring) (request : Request)
    (data : Json.t) (title slug : jsstring) (blogId : Z) (tags : list Z) (w : World) :
  method request = js "POST" ->
  pathname request = pathOf RPosts seg ->
  segmentOk seg = true ->
  body request = Some data ->
  truthyS (Json.Title data) = Some title ->
  truthyS (Json.Slug data) = Some slug ->
  truthyZ (Json.BlogId data) = Some blogId ->
  Sql.postRefsOk blogId (truthyZ (Json.AuthorId data)) (truthyZ (Json.CategoryId data)) (db w)
  = true ->
  Json.tags data = TagsArray tags ->
  forallb (Sql.hasId (Sql.tagIds (db w))) tags = false ->
  exists w' post,
    handleRequest rt request w = (Ok (createErrorResponse "Internal server error" 500), w')
    /\ Posts (db w') = Posts (db w) ++ [post]
    /\ Post.PostId post = Sql.nextId (Sql.postIds (db w))
    /\ Post.Title post = title /\ Post.Slug post = slug /\ Post.BlogId post = blogId.
Proof.
  intros Hm Hpath Hseg Hbody Htitle Hslug Hblog Hrefs Htags Hmissing.
  rewrite (route_any rt RPosts seg request w Hpath Hseg), Hm.
  cbn [handlerOf]. unfold handlePosts, isMethod. literal_tests. cbv iota.
  unfold json, catch. rewrite Hbody, bind_ret, Htitle, Hslug, Hblog.
  run_step (checkPostRefs_ok data blogId w Hrefs).
  run_step (getCurrentTimestamp_run rt w).
  set (w1 := {| db := db w; reads := S (reads w) |}).
  destruct (publishedAtOf_db rt data w1) as (publishedAt & n & Hpub).
  run_step Hpub. cbn [db w1].
  set (row := postColumns data title slug blogId publishedAt _ _).
  set (w2 := {| db := db w; reads := n |}).
  destruct (Sql.insertPost row (db w2)) as [[newId s3]|] eqn:Hins;
    [|unfold Sql.insertPost in Hins; cbn [db w2] in Hins; subst row;
      cbn [postColumns Post.BlogId Post.AuthorId Post.CategoryId] in Hins;
      rewrite Hrefs in Hins; discriminate Hins].
  run_step (exec_run _ w2 _ _ Hins). rewrite Htags.
  unfold Sql.insertPost in Hins. destruct (negb _); [discriminate|].
  injection Hins as <- <-. cbn [db w2].
  set (w3 := {| db := Sql.withPosts (db w) _; reads := _ |}).
  destruct (link_missing (Sql.nextId (Sql.postIds (db w))) tags w3 Hmissing)
    as (w' & Hrun & HP & _).
  rewrite (bind_thrown _ _ _ _ Hrun).
  eexists w', _. split; [reflexivity|]. rewrite HP. subst w3. cbn [db Posts Sql.withPosts].
  split; [reflexivity|]. subst row. cbn. auto.
Qed.

(** POST /api/posts with the tags [99], when no tag exists. *)
Lemma failed_tag_link_keeps_post_witness :
  let data := postBody (js "Hello") (js "hello") 1 (TagsArray [99%Z]) in
  let request := plainRequest "POST" "/api/posts" (Some data) in
  method request = js "POST"
  /\ pathname request = pathOf RPosts None
  /\ body request = Some data
  /\ Sql.postRefsOk 1 (truthyZ (Json.AuthorId data)) (truthyZ (Json.CategoryId data))
       (db afterIngestion) = true
  /\ forallb (Sql.hasId (Sql.tagIds (db afterIngestion))) [99%Z] = false
  /\ exists w' post,
       handleRequest Sample.runtime request afterIngestion
       = (Ok (createErrorResponse "Internal server error" 500), w')
       /\ Posts (db w') = Posts (db afterIngestion) ++ [post]
       /\ Post.PostId post = Sql.nextId (Sql.postIds (db afterIngestion))
       /\ Post.Title post = js "Hello" /\ Post.Slug post = js "hello"
       /\ Post.BlogId post = 1%Z.
Proof.
  cbv zeta.
  refine (conj eq_refl (conj eq_refl (conj eq_refl (conj eq_refl (conj eq_refl _))))).
  exact (failed_tag_link_keeps_post Sample.runtime None
           (plainRequest "POST" "/api/posts"
              (Some (postBody (js "Hello") (js "hello") 1 (TagsArray [99%Z]))))
           (postBody (js "Hello") (js "hello") 1 (TagsArray [99%Z])) (js "Hello") (js "hello") 1
           [99%Z] afterIngestion
           eq_refl eq_refl eq_refl eq_refl eq_refl eq_refl eq_refl eq_refl eq_refl eq_refl).
Defined.


(** ** DELETE is all or nothing *)

Lemma hasId_filtered {A} (key : A -> Z) (l : list A) (id : Z) :
  Sql.hasId (map key (filter (fun x => negb (key x =? id)%Z) l)) id = false.
Proof.
  apply not_true_is_false. intros H. apply hasId_In, in_map_iff in H as (x & E & Hin).
  apply filter_In in Hin as [_ Hne]. apply negb_true_iff, Z.eqb_neq in Hne. contradiction.
Qed.

(** The row is gone after its DELETE statement. *)
Lemma deleted_row_gone (r : Resource) (id : Z) (s s' : Store) :
  deleteStatement r id s = Some (tt, s') -> rowExists r id s' = false.
Proof.
  unfold rowExists.
  destruct r; cbn [deleteStatement];
    unfold Sql.deleteBlog, Sql.deleteAuthor, Sql.deleteCategory, Sql.deletePost, Sql.deleteTag,
      Sql.deleteComment; cbv zeta; intros H;
    repeat match type of H with
           | (if ?b then _ else _) = _ => let G := fresh "G" in destruct b eqn:G
           end;
    try discriminate H; injection H as <-;
    try (apply negb_true_iff in G; exact G);
    unfold Sql.blogIds, Sql.authorIds, Sql.categoryIds, Sql.postIds, Sql.tagIds,
      Sql.commentIds, Sql.withAuthors, Sql.withCategories, Sql.withComments;
    cbn [Blogs Authors Categories Posts Tags Comments]; apply hasId_filtered.
Qed.

Lemma delete_rejected (rt : Runtime) (r : Resource) (id : PathId) (z : Z) (request : Request)
    (w : World) :
  truthyId id = Some z ->
  deleteStatement r z (db w) = None ->
  handlerOf rt r (js "DELETE") id request w = (Thrown, w).
Proof.
  intros Hid Hdel.
  destruct r; cbn [handlerOf deleteStatement] in *;
    unfold handleBlogs, handleAuthors, handleCategories, handlePosts, handleTags,
      handleComments, isMethod; literal_tests; cbv iota; rewrite Hid;
    unfold bind, exec; rewrite Hdel; reflexivity.
Qed.

(** X21.  A DELETE of /api/{resource}/{id} with a nonzero integer id either is
    answered 200 with the confirmation message, and then no row of the
    resource has that id, or is answered 500, and then nothing has
    changed. *)
Theorem delete_all_or_nothing (rt : Runtime) (r : Resource) (seg : jsstring) (id : Z)
    (request : Request) (w : World) :
  method request = js "DELETE" ->
  pathname request = pathOf r (Some seg) ->
  isSegment seg = true ->
  parseInt seg = Some id ->
  id <> 0%Z ->
  exists response w',
    handleRequest rt request w = (Ok response, w')
    /\ ((response = createSuccessResponse (Message (deletedMessage r))
         /\ rowExists r id (db w') = false)
        \/ (response = createErrorResponse "Internal server error" 500 /\ w' = w)).
Proof.
  intros Hm Hpath Hseg Hparse Hid.
  rewrite (route_any rt r (Some seg) request w Hpath Hseg), Hm. cbn [idOf].
  rewrite Hparse.
  assert (Hz : truthyId (IdNum id) = Some id)
    by (cbn; now rewrite (proj2 (Z.eqb_neq id 0) Hid)).
  unfold catch.
  destruct (deleteStatement r id (db w)) as [[[] s']|] eqn:Hdel.
  - rewrite (delete_response rt r _ id request w s' Hz Hdel).
    eexists _, _. split; [reflexivity|]. left. split; [reflexivity|].
    exact (deleted_row_gone r id (db w) s' Hdel).
  - rewrite (delete_rejected rt r _ id request w Hz Hdel).
    eexists _, _. split; [reflexivity|]. right. auto.
Qed.

(** DELETE /api/posts/1, which exists after the ingestion. *)
Lemma delete_all_or_nothing_witness :
  let request := plainRequest "DELETE" "/api/posts/1" None in
  method request = js "DELETE"
  /\ pathname request = pathOf RPosts (Some (js "1"))
  /\ isSegment (js "1") = true
  /\ parseInt (js "1") = Some 1%Z
  /\ 1%Z <> 0%Z
  /\ exists response w',
       handleRequest Sample.runtime request afterIngestion = (Ok response, w')
       /\ ((response = createSuccessResponse (Message (deletedMessage RPosts))
            /\ rowExists RPosts 1 (db w') = false)
           \/ (response = createErrorResponse "Internal server error" 500
               /\ w' = afterIngestion)).
Proof.
  cbv zeta.
  assert (Hid : 1%Z <> 0%Z) by discriminate.
  refine (conj eq_refl (conj eq_refl (conj eq_refl (conj eq_refl (conj Hid _))))).
  exact (delete_all_or_nothing Sample.runtime RPosts (js "1") 1
           (plainRequest "DELETE" "/api/posts/1" None) afterIngestion
           eq_refl eq_refl eq_refl eq_refl Hid).
Defined.


(** ** The ingestion workflow *)

(** X22.  A malformed blogUrl, for which no blog is stored, makes the ingestion
    fail before it writes anything. *)
Theorem ingestion_malformed_url (rt : Runtime) (request : Request) (blogUrl : jsstring)
    (postTexts : list jsstring) (w : World) :
  isSimpleRequest request blogUrl postTexts ->
  blogUrl <> [] ->
  postTexts <> [] ->
  Sql.selectBlogByUrl blogUrl (db w) = None ->
  URL_hostname rt blogUrl = None ->
  handleRequest rt request w = (Ok (createErrorResponse "Failed to create posts" 500), w).
Proof.
  intros (Hm & Hp & data & Hbody & Hurl & Htexts) Hne Hposts Hnone Hhost.
  rewrite (route_simple rt request w Hm Hp). unfold catch, simplePost, json.
  rewrite Hbody, bind_ret, Hurl, Htexts.
  destruct blogUrl as [|c url]; [contradiction|]. cbn [truthyS].
  destruct postTexts as [|entry rest]; [contradiction|]. cbn [length Nat.eqb].
  assert (Hblog : findOrCreateBlog rt (c :: url) w = (Thrown, w)).
  { unfold findOrCreateBlog. run_step (query_run _ w _ Hnone).
    unfold hostnameOf. now rewrite Hhost. }
  now rewrite (bind_thrown _ _ _ _ Hblog).
Qed.

(** An ingestion for "not a url" into the empty database. *)
Lemma ingestion_malformed_url_witness :
  let request := simpleRequest (js "not a url") [js "Text."] in
  isSimpleRequest request (js "not a url") [js "Text."]
  /\ js "not a url" <> []
  /\ [js "Text."] <> []
  /\ Sql.selectBlogByUrl (js "not a url") (db (Sample.world emptyStore)) = None
  /\ URL_hostname Sample.runtime (js "not a url") = None
  /\ handleRequest Sample.runtime request (Sample.world emptyStore)
     = (Ok (createErrorResponse "Failed to create posts" 500), Sample.world emptyStore).
Proof.
  cbv zeta.
  assert (H1 : isSimpleRequest (simpleRequest (js "not a url") [js "Text."])
                 (js "not a url") [js "Text."])
    by (split; [reflexivity | split; [reflexivity | eexists; repeat split]]).
  assert (H2 : js "not a url" <> []) by discriminate.
  assert (H3 : [js "Text."] <> []) by discriminate.
  refine (conj H1 (conj H2 (conj H3 (conj eq_refl (conj eq_refl _))))).
  exact (ingestion_malformed_url Sample.runtime _ _ _ (Sample.world emptyStore)
           H1 H2 H3 eq_refl eq_refl).
Defined.

(** The loop creates one post per entry that is not blank, and returns
    each of them. *)
Lemma createPosts_rows (rt : Runtime) (blog : Blog.t) (author : Author.t)
    (category : Category.t) (postTexts : list jsstring) :
  forall i createdPosts w,
    Sql.hasId (Sql.blogIds (db w)) (Blog.BlogId blog) = true ->
    Sql.hasId (Sql.authorIds (db w)) (Author.AuthorId author) = true ->
    Sql.hasId (Sql.categoryIds (db w)) (Category.CategoryId category) = true ->
    exists returned w' newPosts,
      createPosts rt blog author category postTexts i createdPosts w
      = (Ok (createdPosts ++ returned), w')
      /\ db w' = Sql.withPosts (db w) (Posts (db w) ++ newPosts)
      /\ Forall (ingestedRow blog author category) newPosts
      /\ map (option_map fst) returned = map Some newPosts
      /\ length newPosts = length (nonBlank postTexts).
Proof.
  induction postTexts as [|entry rest IH]; intros i createdPosts w Hb Ha Hc.
  - exists [], w, []. cbn. rewrite !app_nil_r. repeat split; auto.
    now destruct (db w).
  - cbn [createPosts nonBlank filter]. destruct (isEmpty (trim entry)) eqn:Hblank.
    + cbn [negb]. exact (IH (S i) createdPosts w Hb Ha Hc).
    + cbn [negb].
      run_step (readClock_run rt w).
      run_step (getCurrentTimestamp_run rt _).
      set (row := simplePostRow rt blog author category i (trim entry) _ _).
      set (w2 := {| db := db _; reads := _ |}).
      assert (Hins : Sql.insertPost row (db w2) <> None).
      { unfold Sql.insertPost, Sql.postRefsOk. subst row w2. cbn [db simplePostRow
          Post.BlogId Post.AuthorId Post.CategoryId]. now rewrite Hb, Ha, Hc. }
      destruct (Sql.insertPost row (db w2)) as [[id s3]|] eqn:Eins; [clear Hins|contradiction].
      run_step (exec_run _ w2 id s3 Eins).
      set (w3 := {| db := s3; reads := _ |}).
      run_step (query_run _ w3 _ eq_refl).
      unfold Sql.insertPost in Eins. destruct (negb _); [discriminate|].
      injection Eins as <- <-. subst w2. cbn [db] in *.
      match goal with
      | |- context [createdPosts ++ [?v]] => set (view := v)
      end.
      destruct (IH (S i) (createdPosts ++ [view]) w3)
        as (returned & w' & newPosts & Hrun & Hdb & Hrows & Hret & Hlen);
        try assumption.
      exists (view :: returned), w'. eexists (_ :: newPosts).
      split; [rewrite Hrun; now rewrite <- app_assoc|].
      split; [rewrite Hdb; subst w3; cbn; rewrite <- app_assoc; reflexivity|].
      split; [constructor; [subst row; cbn; repeat split | exact Hrows]|].
      split; [|cbn [length]; fold (nonBlank rest); now rewrite Hlen].
      cbn [map]. rewrite Hret. f_equal.
      subst view w3. unfold Sql.selectPost, Sql.selectPostRow, Sql.postIds.
      cbn [db Posts Sql.withPosts]. rewrite find_appended by reflexivity. reflexivity.
Qed.

Lemma samePosts_refl (s : Store) : samePosts s s.
Proof. reflexivity. Qed.

Lemma samePosts_trans (s1 s2 s3 : Store) : samePosts s1 s2 -> samePosts s2 s3 -> samePosts s1 s3.
Proof. unfold samePosts. congruence. Qed.

Ltac keeps_posts :=
  let H := fresh "H" in
  intros ? ? ? H;
  unfold Sql.insertBlog, Sql.insertAuthor, Sql.insertCategory in H;
  repeat match type of H with
         | (if ?b then _ else _) = _ => destruct b
         end;
  try discriminate H; injection H as _ <-; reflexivity.

Lemma samePosts_resolve (rt : Runtime) (blogUrl : jsstring) (blog : Blog.t) :
  moves samePosts (findOrCreateBlog rt blogUrl)
  /\ moves samePosts (findOrCreateAuthor rt blog blogUrl)
  /\ moves samePosts (findOrCreateCategory blog).
Proof.
  unfold findOrCreateBlog, findOrCreateAuthor, findOrCreateCategory.
  repeat split; repeat moves_step samePosts_refl samePosts_trans keeps_posts.
Qed.

Lemma moves_run {A} (R : Store -> Store -> Prop) (m : M A) (w w' : World) (o : outcome A) :
  moves R m -> m w = (o, w') -> R (db w) (db w').
Proof. intros H E. specialize (H w). now rewrite E in H. Qed.

(** X23.  What a successful ingestion answers and stores: the response names the
    blog of the blogUrl, an author and a category of that blog, and counts
    and returns one post per entry that is not blank; these posts are the
    rows added to Posts, each in that blog, by that author, in that
    category, published at its creation time and with no views. *)
Theorem ingestion_result (rt : Runtime) (request : Request) (blogUrl : jsstring)
    (postTexts : list jsstring) (response : Response) (w w' : World) :
  isSimpleRequest request blogUrl postTexts ->
  handleRequest rt request w = (Ok response, w') ->
  status response = 200%Z ->
  exists blog author category posts newPosts,
    payload response
    = SimpleResult blog author category (length (nonBlank postTexts)) posts
    /\ Blog.Url blog = Some blogUrl
    /\ Author.BlogId author = Blog.BlogId blog
    /\ Category.BlogId category = Blog.BlogId blog
    /\ In blog (Blogs (db w')) /\ In author (Authors (db w'))
    /\ In category (Categories (db w'))
    /\ Posts (db w') = Posts (db w) ++ newPosts
    /\ Forall (ingestedRow blog author category) newPosts
    /\ map (option_map fst) posts = map Some newPosts
    /\ length newPosts = length (nonBlank postTexts).
Proof.
  intros (Hm & Hp & data & Hbody & Hurl & Htexts) Hrun Hstatus.
  rewrite (route_simple rt request w Hm Hp) in Hrun. unfold catch in Hrun.
  destruct (simplePost rt request w) as [[r|] w0] eqn:Hsimple;
    injection Hrun as <- <-; [|discriminate Hstatus].
  unfold simplePost, json in Hsimple. rewrite Hbody in Hsimple. cbv iota in Hsimple.
  rewrite bind_ret, Hurl, Htexts in Hsimple.
  destruct blogUrl as [|c url];
    [injection Hsimple as <- _; discriminate Hstatus|]. cbn [truthyS] in Hsimple.
  destruct (length postTexts =? 0)%nat;
    [injection Hsimple as <- _; discriminate Hstatus|].
  apply bind_inv in Hsimple as ([blog|] & wA & HA & Hsimple);
    [|injection Hsimple as <- _; discriminate Hstatus].
  apply bind_inv in Hsimple as ([author|] & wB & HB & Hsimple);
    [|injection Hsimple as <- _; discriminate Hstatus].
  apply bind_inv in Hsimple as ([category|] & wC & HC & Hsimple);
    [|injection Hsimple as <- _; discriminate Hstatus].
  apply bind_inv in Hsimple as (created & wD & HD & Hsimple).
  injection Hsimple as <- <-.
  destruct (samePosts_resolve rt (c :: url) blog) as (PA & PB & PC).
  apply (moves_run _ _ _ _ _ PA) in HA as PA'.
  apply (moves_run _ _ _ _ _ PB) in HB as PB'.
  apply (moves_run _ _ _ _ _ PC) in HC as PC'.
  unfold samePosts in *.
  apply findOrCreateBlog_result in HA.
  apply findOrCreateAuthor_result in HB as (HB & HB1).
  apply findOrCreateCategory_result in HC as (HC & HC1 & HC2).
  assert (Hblog : Sql.selectBlogByUrl (c :: url) (db wC) = Some blog)
    by (unfold Sql.selectBlogByUrl in *; now rewrite HC1, HB1).
  assert (Hauthor : Sql.selectAuthorOfBlog (Blog.BlogId blog) (db wC) = Some author)
    by (unfold Sql.selectAuthorOfBlog in *; now rewrite HC2).
  destruct (resolved_keys _ _ _ _ _ (conj Hblog (conj Hauthor HC))) as (Kb & Ka & Kc).
  destruct (createPosts_rows rt blog author category postTexts 0 [] wC Kb Ka Kc)
    as (returned & w'' & newPosts & Hrun' & Hdb & Hrows & Hret & Hlen).
  rewrite Hrun' in HD. injection HD as <- <-. cbn [app] in *.
  apply find_some in Hblog as [Bin Burl]. apply find_some in Hauthor as [Ain Ablog].
  apply find_some in HC as [Cin Cblog].
  exists blog, author, category, returned, newPosts.
  rewrite Hdb. cbn [Blogs Authors Categories Posts Sql.withPosts payload createSuccessResponse].
  repeat split; try assumption.
  - f_equal. rewrite <- Hlen, <- (length_map Some newPosts), <- Hret.
    symmetry. apply length_map.
  - unfold Sql.textEq in Burl. destruct (Blog.Url blog) as [u|]; [|discriminate].
    apply eqb_eq in Burl. now subst.
  - now apply Z.eqb_eq.
  - now apply Z.eqb_eq.
  - now rewrite PC', PB', PA'.
Qed.

(** The ingestion of one entry into the empty database. *)
Lemma ingestion_result_witness :
  let blogUrl := js "https://myblog.com" in
  let postTexts := [js "Hello world. More text here."] in
  let request := simpleRequest blogUrl postTexts in
  isSimpleRequest request blogUrl postTexts
  /\ handleRequest Sample.runtime request (Sample.world emptyStore)
     = (Ok ingestionResponse, afterIngestion)
  /\ status ingestionResponse = 200%Z
  /\ exists blog author category posts newPosts,
       payload ingestionResponse
       = SimpleResult blog author category (length (nonBlank postTexts)) posts
       /\ Blog.Url blog = Some blogUrl
       /\ Author.BlogId author = Blog.BlogId blog
       /\ Category.BlogId category = Blog.BlogId blog
       /\ In blog (Blogs (db afterIngestion)) /\ In author (Authors (db afterIngestion))
       /\ In category (Categories (db afterIngestion))
       /\ Posts (db afterIngestion) = Posts (db (Sample.world emptyStore)) ++ newPosts
       /\ Forall (ingestedRow blog author category) newPosts
       /\ map (option_map fst) posts = map Some newPosts
       /\ length newPosts = length (nonBlank postTexts).
Proof.
  cbv zeta.
  assert (H1 : isSimpleRequest
                 (simpleRequest (js "https://myblog.com") [js "Hello world. More text here."])
                 (js "https://myblog.com") [js "Hello world. More text here."])
    by (split; [reflexivity | split; [reflexivity | eexists; repeat split]]).
  assert (H2 : handleRequest Sample.runtime
                 (simpleRequest (js "https://myblog.com") [js "Hello world. More text here."])
                 (Sample.world emptyStore)
               = (Ok ingestionResponse, afterIngestion)) by (vm_compute; reflexivity).
  assert (H3 : status ingestionResponse = 200%Z) by (vm_compute; reflexivity).
  refine (conj H1 (conj H2 (conj H3 _))).
  exact (ingestion_result Sample.runtime _ _ _ _ _ _ H1 H2 H3).
Defined.

(** No author and no category belongs to the blog that a new rowid will
    name, when every reference is valid. *)
Lemma fresh_blog_is_empty (s : Store) :
  referencesOk s = true ->
  Sql.selectAuthorOfBlog (Sql.nextId (Sql.blogIds s)) s = None
  /\ Sql.selectCategoryOfBlog (Sql.nextId (Sql.blogIds s)) s = None.
Proof.
  intros H. apply referencesOk_spec in H as [Ha Hc _ _ _ _ _ _].
  unfold Sql.selectAuthorOfBlog, Sql.selectCategoryOfBlog. split.
  - destruct (find _ (Authors s)) as [a|] eqn:E; [|reflexivity].
    apply find_some in E as [Hin E]. apply Z.eqb_eq in E.
    apply Ha, hasId_In in Hin. now rewrite E, nextId_fresh in Hin.
  - destruct (find _ (Categories s)) as [c|] eqn:E; [|reflexivity].
    apply find_some in E as [Hin E]. apply Z.eqb_eq in E.
    apply Hc, hasId_In in Hin. now rewrite E, nextId_fresh in Hin.
Qed.

Lemma hasId_appended {A} (key : A -> Z) (l : list A) (r : A) :
  Sql.hasId (map key (l ++ [r])) (key r) = true.
Proof. apply hasId_In. rewrite map_app. apply in_or_app. right. now left. Qed.

(** X24.  The first ingestion for a blogUrl: when no blog has the Url, the URL
    parses, the slug derived from its hostname is free and every reference
    in the database is valid, the workflow creates the blog, its default
    author "Default Author" and its default category "General", then one
    post per entry that is not blank, and answers 200 with all of them. *)
Theorem first_ingestion (rt : Runtime) (request : Request) (blogUrl hostname : jsstring)
    (postTexts : list jsstring) (w : World) :
  isSimpleRequest request blogUrl postTexts ->
  blogUrl <> [] ->
  postTexts <> [] ->
  Sql.selectBlogByUrl blogUrl (db w) = None ->
  URL_hostname rt blogUrl = Some hostname ->
  Sql.slugTaken (Synth.blogSlug rt (Synth.blogName hostname)) None (db w) = false ->
  referencesOk (db w) = true ->
  let blog := autoBlog rt blogUrl hostname (Sql.nextId (Sql.blogIds (db w)))
                (toISOString rt (Date_now rt (reads w))) in
  let author := defaultAuthor hostname (Sql.nextId (Sql.authorIds (db w))) (Blog.BlogId blog)
                  (toISOString rt (Date_now rt (S (reads w)))) in
  let category := defaultCategory (Sql.nextId (Sql.categoryIds (db w))) (Blog.BlogId blog) in
  exists posts w',
    handleRequest rt request w
    = (Ok (createSuccessResponse
             (SimpleResult blog author category (length (nonBlank postTexts)) posts)), w')
    /\ Blogs (db w') = Blogs (db w) ++ [blog]
    /\ Authors (db w') = Authors (db w) ++ [author]
    /\ Categories (db w') = Categories (db w) ++ [category]
    /\ length (Posts (db w')) = (length (Posts (db w)) + length (nonBlank postTexts))%nat.
Proof.
  intros (Hm & Hp & data & Hbody & Hurl & Htexts) Hne Hposts Hnone Hhost Hslug Hrefs
    blog author category.
  destruct (fresh_blog_is_empty (db w) Hrefs) as [Hnoauthor Hnocategory].
  rewrite (route_simple rt request w Hm Hp). unfold catch, simplePost, json.
  rewrite Hbody, bind_ret, Hurl, Htexts.
  destruct blogUrl as [|c url]; [contradiction|]. cbn [truthyS].
  destruct postTexts as [|entry rest]; [contradiction|]. cbn [length Nat.eqb].
  set (postTexts := entry :: rest).
  (* the blog *)
  set (s1 := {| Blogs := Blogs (db w) ++ [blog]; Authors := Authors (db w);
                Categories := Categories (db w); Posts := Posts (db w); Tags := Tags (db w);
                PostTags := PostTags (db w); Comments := Comments (db w) |}).
  set (w1 := {| db := s1; reads := S (reads w) |}).
  assert (HA : findOrCreateBlog rt (c :: url) w = (Ok (Some blog), w1)).
  { unfold findOrCreateBlog. run_step (query_run _ w _ Hnone).
    unfold hostnameOf. rewrite Hhost, bind_ret.
    run_step (getCurrentTimestamp_run rt w).
    assert (Hins : Sql.insertBlog (Synth.blogTitle rt (Synth.blogName hostname))
                     (Synth.blogSlug rt (Synth.blogName hostname))
                     (Some (js "Auto-created blog for " ++ hostname)) (Some (c :: url))
                     (toISOString rt (Date_now rt (reads w))) (db w)
                   = Some (Sql.nextId (Sql.blogIds (db w)), s1))
      by (unfold Sql.insertBlog; now rewrite Hslug).
    run_step (exec_run _ {| db := db w; reads := S (reads w) |} _ _ Hins).
    unfold query, Sql.selectBlog, Sql.blogIds. cbn [db s1 Blogs reads].
    now rewrite find_appended. }
  run_step HA.
  (* the author *)
  set (s2 := Sql.withAuthors s1 (Authors s1 ++ [author])).
  set (w2 := {| db := s2; reads := S (S (reads w)) |}).
  assert (HB : findOrCreateAuthor rt blog (c :: url) w1 = (Ok (Some author), w2)).
  { unfold findOrCreateAuthor. run_step (query_run _ w1 _ Hnoauthor).
    unfold hostnameOf. rewrite Hhost, bind_ret.
    run_step (getCurrentTimestamp_run rt w1).
    assert (Hins : Sql.insertAuthor (Blog.BlogId blog) (js "Default Author")
                     (Some (js "author@" ++ hostname)) None
                     (Some (js "Auto-created default author"))
                     (toISOString rt (Date_now rt (reads w1))) (db w1)
                   = Some (Sql.nextId (Sql.authorIds (db w)), s2)).
    { unfold Sql.insertAuthor, Sql.blogIds. cbn [db w1 s1 Blogs].
      now rewrite (hasId_appended Blog.BlogId (Blogs (db w)) blog). }
    run_step (exec_run _ {| db := db w1; reads := S (reads w1) |} _ _ Hins).
    unfold query, Sql.selectAuthorRow, Sql.authorIds. cbn [db s2 s1 Sql.withAuthors Authors].
    now rewrite find_appended. }
  run_step HB.
  (* the category *)
  set (s3 := Sql.withCategories s2 (Categories s2 ++ [category])).
  set (w3 := {| db := s3; reads := S (S (reads w)) |}).
  assert (HC : findOrCreateCategory blog w2 = (Ok (Some category), w3)).
  { unfold findOrCreateCategory. run_step (query_run _ w2 _ Hnocategory).
    assert (Hins : Sql.insertCategory (Blog.BlogId blog) (js "General") (Some (js "general"))
                     (db w2)
                   = Some (Sql.nextId (Sql.categoryIds (db w)), s3)).
    { unfold Sql.insertCategory, Sql.blogIds. cbn [db w2 s2 s1 Sql.withAuthors Blogs].
      now rewrite (hasId_appended Blog.BlogId (Blogs (db w)) blog). }
    run_step (exec_run _ w2 _ _ Hins).
    unfold query, Sql.selectCategoryRow, Sql.categoryIds.
    cbn [db s3 s2 s1 Sql.withCategories Sql.withAuthors Categories].
    now rewrite find_appended. }
  run_step HC.
  (* the posts *)
  destruct (createPosts_rows rt blog author category postTexts 0 [] w3)
    as (returned & w' & newPosts & Hrun & Hdb & _ & _ & Hlen).
  - exact (hasId_appended Blog.BlogId (Blogs (db w)) blog).
  - exact (hasId_appended Author.AuthorId (Authors (db w)) author).
  - exact (hasId_appended Category.CategoryId (Categories (db w)) category).
  - run_step Hrun. cbn [app].
    assert (Hcount : length returned = length (nonBlank postTexts)).
    { destruct (createPosts_rows rt blog author category postTexts 0 [] w3
                  (hasId_appended Blog.BlogId (Blogs (db w)) blog)
                  (hasId_appended Author.AuthorId (Authors (db w)) author)
                  (hasId_appended Category.CategoryId (Categories (db w)) category))
        as (returned' & w'' & newPosts' & Hrun' & _ & _ & Hret & Hlen').
      rewrite Hrun in Hrun'. injection Hrun' as -> _.
      rewrite <- Hlen', <- (length_map Some newPosts'), <- Hret. symmetry. apply length_map. }
    exists returned, w'. rewrite Hcount, Hdb.
    split; [reflexivity|]. cbn. rewrite length_app, Hlen. auto.
Qed.

(** The first ingestion for https://myblog.com, into the empty database:
    blog 1 "Myblog", author 1, category 1 and one post. *)
Lemma first_ingestion_witness :
  let blogUrl := js "https://myblog.com" in
  let postTexts := [js "   "; js "Hello world. More text here."] in
  let request := simpleRequest blogUrl postTexts in
  let w := Sample.world emptyStore in
  let blog := autoBlog Sample.runtime blogUrl (js "myblog.com") 1
                (js "2023-11-14T22:13:20.000Z") in
  let author := defaultAuthor (js "myblog.com") 1 1 (js "2023-11-14T22:13:20.001Z") in
  let category := defaultCategory 1 1 in
  isSimpleRequest request blogUrl postTexts
  /\ blogUrl <> []
  /\ postTexts <> []
  /\ Sql.selectBlogByUrl blogUrl (db w) = None
  /\ URL_hostname Sample.runtime blogUrl = Some (js "myblog.com")
  /\ Sql.slugTaken (Synth.blogSlug Sample.runtime (Synth.blogName (js "myblog.com"))) None
       (db w) = false
  /\ referencesOk (db w) = true
  /\ exists posts w',
       handleRequest Sample.runtime request w
       = (Ok (createSuccessResponse (SimpleResult blog author category 1 posts)), w')
       /\ Blogs (db w') = Blogs (db w) ++ [blog]
       /\ Authors (db w') = Authors (db w) ++ [author]
       /\ Categories (db w') = Categories (db w) ++ [category]
       /\ length (Posts (db w')) = (length (Posts (db w)) + 1)%nat.
Proof.
  cbv zeta.
  assert (H1 : isSimpleRequest
                 (simpleRequest (js "https://myblog.com")
                    [js "   "; js "Hello world. More text here."])
                 (js "https://myblog.com") [js "   "; js "Hello world. More text here."])
    by (split; [reflexivity | split; [reflexivity | eexists; repeat split]]).
  assert (H2 : js "https://myblog.com" <> []) by discriminate.
  assert (H3 : [js "   "; js "Hello world. More text here."] <> []) by discriminate.
  refine (conj H1 (conj H2 (conj H3 (conj eq_refl (conj eq_refl (conj eq_refl
            (conj eq_refl _))))))).
  exact (first_ingestion Sample.runtime _ (js "https://myblog.com") (js "myblog.com")
           [js "   "; js "Hello world. More text here."] (Sample.world emptyStore)
           H1 H2 H3 eq_refl eq_refl eq_refl eq_refl).
Defined.

(** ** The posts of an ingestion, by position *)






(** ** The slugs of the posts of one request *)







(** ** Creating a blog *)

(** X25.  A POST to /api/blogs with a Name and a Slug reads the clock once; when
    a blog has that Slug the INSERT is rejected and the answer is 500 (not
    409, as for a tag name), with no row added; otherwise the blog is
    added under the next rowid, stamped with the time read, and the answer
    is 200 with the new blog, which a lookup by its id then finds. *)
Theorem blog_create (rt : Runtime) (seg : option jsstring) (request : Request)
    (data : Json.t) (name slug : jsstring) (w : World) :
  method request = js "POST" ->
  pathname request = pathOf RBlogs seg ->
  segmentOk seg = true ->
  body request = Some data ->
  truthyS (Json.Name data) = Some name ->
  truthyS (Json.Slug data) = Some slug ->
  let blog := blogOf data name slug (Sql.nextId (Sql.blogIds (db w)))
                (toISOString rt (Date_now rt (reads w))) in
  if Sql.slugTaken slug None (db w)
  then handleRequest rt request w
       = (Ok (createErrorResponse "Internal server error" 500),
          {| db := db w; reads := S (reads w) |})
  else exists w',
         handleRequest rt request w = (Ok (createSuccessResponse (ABlog blog)), w')
         /\ Blogs (db w') = Blogs (db w) ++ [blog]
         /\ Sql.selectBlog (Blog.BlogId blog) (db w') = Some blog
         /\ reads w' = S (reads w).
Proof.
  intros Hm Hpath Hseg Hbody Hname Hslug blog.
  rewrite (route_any rt RBlogs seg request w Hpath Hseg), Hm.
  cbn [handlerOf]. unfold handleBlogs, isMethod. literal_tests. cbv iota.
  unfold json, catch. rewrite Hbody, bind_ret, Hname, Hslug.
  run_step (getCurrentTimestamp_run rt w).
  set (w1 := {| db := db w; reads := S (reads w) |}).
  destruct (Sql.slugTaken slug None (db w)) eqn:Htaken.
  - assert (Hins : exec (Sql.insertBlog name slug (truthyS (Json.Description data))
                           (truthyS (Json.Url data))
                           (toISOString rt (Date_now rt (reads w)))) w1 = (Thrown, w1))
      by (unfold exec, Sql.insertBlog; cbn [db w1]; now rewrite Htaken).
    now rewrite (bind_thrown _ _ _ _ Hins).
  - assert (Hins : Sql.insertBlog name slug (truthyS (Json.Description data))
                     (truthyS (Json.Url data)) (toISOString rt (Date_now rt (reads w))) (db w1)
                   = Some (Sql.nextId (Sql.blogIds (db w)),
                           {| Blogs := Blogs (db w) ++ [blog]; Authors := Authors (db w);
                              Categories := Categories (db w); Posts := Posts (db w);
                              Tags := Tags (db w); PostTags := PostTags (db w);
                              Comments := Comments (db w) |}))
      by (unfold Sql.insertBlog; cbn [db w1]; now rewrite Htaken).
    run_step (exec_run _ w1 _ _ Hins).
    assert (Hfind : forall s, Blogs s = Blogs (db w) ++ [blog] ->
                              Sql.selectBlog (Sql.nextId (Sql.blogIds (db w))) s = Some blog).
    { intros s Hs. unfold Sql.selectBlog, Sql.blogIds. rewrite Hs.
      now apply find_appended. }
    match type of Hins with _ = Some (_, ?s) => set (s1 := s) in * end.
    eexists. unfold bind, query. cbn [db]. rewrite (Hfind s1 eq_refl). cbn [orNull].
    split; [reflexivity|]. cbn [db Blogs reads w1].
    split; [reflexivity|]. split; [exact (Hfind s1 eq_refl) | reflexivity].
Qed.

(** POST /api/blogs with a new slug, and again with the same slug. *)
Lemma blog_create_witness :
  let data := blogBody (js "Notes") (js "notes") in
  let request := plainRequest "POST" "/api/blogs" (Some data) in
  let blog := blogOf data (js "Notes") (js "notes") 2 (js "2023-11-14T22:13:20.004Z") in
  method request = js "POST"
  /\ pathname request = pathOf RBlogs None
  /\ body request = Some data
  /\ Sql.slugTaken (js "notes") None (db afterIngestion) = false
  /\ Sql.slugTaken (js "myblog") None (db afterIngestion) = true
  /\ (exists w',
        handleRequest Sample.runtime request afterIngestion
        = (Ok (createSuccessResponse (ABlog blog)), w')
        /\ Blogs (db w') = Blogs (db afterIngestion) ++ [blog]
        /\ Sql.selectBlog (Blog.BlogId blog) (db w') = Some blog
        /\ reads w' = S (reads afterIngestion))
  /\ handleRequest Sample.runtime
       (plainRequest "POST" "/api/blogs" (Some (blogBody (js "Other") (js "myblog"))))
       afterIngestion
     = (Ok (createErrorResponse "Internal server error" 500),
        {| db := db afterIngestion; reads := S (reads afterIngestion) |}).
Proof.
  cbv zeta.
  refine (conj eq_refl (conj eq_refl (conj eq_refl (conj eq_refl (conj eq_refl
            (conj _ _)))))).
  - exact (blog_create Sample.runtime None
             (plainRequest "POST" "/api/blogs" (Some (blogBody (js "Notes") (js "notes"))))
             (blogBody (js "Notes") (js "notes")) (js "Notes") (js "notes") afterIngestion
             eq_refl eq_refl eq_refl eq_refl eq_refl eq_refl).
  - exact (blog_create Sample.runtime None
             (plainRequest "POST" "/api/blogs" (Some (blogBody (js "Other") (js "myblog"))))
             (blogBody (js "Other") (js "myblog")) (js "Other") (js "myblog") afterIngestion
             eq_refl eq_refl eq_refl eq_refl eq_refl eq_refl).
Defined.

(** ** The size of a page *)

Lemma length_limitOffset {A} (limit offset : Z) (l : list A) :
  (0 <= limit)%Z -> (length (Sql.limitOffset limit offset l) <= Z.to_nat limit)%nat.
Proof.
  intros H. unfold Sql.limitOffset. destruct (limit <? 0)%Z eqn:E; [lia|].
  apply firstn_le_length.
Qed.

(** X26.  A GET of /api/posts or /api/comments lists at most [limit] rows, where
    [limit] is the query parameter of that name and 50 when there is
    none. *)
Theorem page_size_bound (rt : Runtime) (r : Resource) (request : Request) (limit : Z)
    (w : World) :
  r = RPosts \/ r = RComments ->
  method request = js "GET" ->
  pathname request = pathOf r None ->
  intParam request "limit" "50" = Some limit ->
  (0 <= limit)%Z ->
  exists response,
    handleRequest rt request w = (Ok response, w)
    /\ (listed (payload response) <= Z.to_nat limit)%nat.
Proof.
  intros Hr Hm Hpath Hlimit Hpos.
  rewrite (route_any rt r None request w Hpath eq_refl), Hm. unfold catch.
  rewrite (get_collection rt r request (idOf None) w eq_refl).
  destruct Hr as [-> | ->]; cbn [collectionOf]; rewrite Hlimit;
    unfold Sql.selectPosts, Sql.selectComments;
    destruct (intParam request "offset" "0") as [offset|]; cbn [option_map];
    eexists; (split; [reflexivity|]); cbn [payload createSuccessResponse createErrorResponse
                                              listed]; try lia;
    rewrite length_map; now apply length_limitOffset.
Qed.

(** GET /api/posts without a limit: at most 50 posts. *)
Lemma page_size_bound_witness :
  let request := plainRequest "GET" "/api/posts" None in
  (RPosts = RPosts \/ RPosts = RComments)
  /\ method request = js "GET"
  /\ pathname request = pathOf RPosts None
  /\ intParam request "limit" "50" = Some 50%Z
  /\ (0 <= 50)%Z
  /\ exists response,
       handleRequest Sample.runtime request afterIngestion = (Ok response, afterIngestion)
       /\ (listed (payload response) <= Z.to_nat 50)%nat.
Proof.
  cbv zeta.
  assert (Hpos : (0 <= 50)%Z) by lia.
  refine (conj (or_introl eq_refl) (conj eq_refl (conj eq_refl (conj eq_refl (conj Hpos _))))).
  exact (page_size_bound Sample.runtime RPosts (plainRequest "GET" "/api/posts" None) 50
           afterIngestion (or_introl eq_refl) eq_refl eq_refl eq_refl Hpos).
Defined.


(** ** Paths that the router does not know *)

(** X27.  A path whose first segment is not "api" is answered 200 with the text
    that points to /api, and a path /api/{resource} for a resource that
    the router does not know is answered 404; both for every method, and
    with nothing changed. *)
Theorem unknown_route (rt : Runtime) (request : Request) (w : World) :
  (isResource (nth_error (pathSegments request) 0) "api" = false ->
   handleRequest rt request w
   = (Ok {| status := 200; payload := Text "Blog API Server - Use /api/* endpoints" |}, w))
  /\ (forall resource,
        pathname request = js "/api/" ++ resource ->
        isSegment resource = true ->
        isKnown resource = false ->
        handleRequest rt request w = (Ok (createErrorResponse "Resource not found" 404), w)).
Proof.
  split.
  - intros H. unfold handleRequest. cbv zeta. now rewrite H.
  - intros resource Hpath Hseg Hknown.
    unfold handleRequest. rewrite (pathSegments_collection request resource Hpath Hseg).
    cbn [nth_error isResource]. literal_tests. cbv iota.
    unfold isKnown in Hknown. cbn [existsb] in Hknown.
    repeat match goal with
           | H : _ || _ = false |- _ => apply orb_false_iff in H as [? H]
           end.
    repeat match goal with
           | E : JS.eqb resource _ = false |- _ => rewrite E; clear E
           end.
    reflexivity.
Qed.

(** GET /health and PUT /api/users. *)
Lemma unknown_route_witness :
  isResource (nth_error (pathSegments (plainRequest "GET" "/health" None)) 0) "api" = false
  /\ isKnown (js "users") = false
  /\ handleRequest Sample.runtime (plainRequest "GET" "/health" None) afterIngestion
     = (Ok {| status := 200; payload := Text "Blog API Server - Use /api/* endpoints" |},
        afterIngestion)
  /\ handleRequest Sample.runtime (plainRequest "PUT" "/api/users" None) afterIngestion
     = (Ok (createErrorResponse "Resource not found" 404), afterIngestion).
Proof.
  refine (conj eq_refl (conj eq_refl (conj _ _))).
  - exact (proj1 (unknown_route Sample.runtime (plainRequest "GET" "/health" None)
                    afterIngestion) eq_refl).
  - exact (proj2 (unknown_route Sample.runtime (plainRequest "PUT" "/api/users" None)
                    afterIngestion) (js "users") eq_refl eq_refl eq_refl).
Defined.

(** ** Bodies that are rejected *)

Lemma checkPostRefs_missing (data : Json.t) (blogId : Z) (message : string) (w : World) :
  truthyZ (Json.BlogId data) = Some blogId ->
  missingParent RPosts data (db w) = Some message ->
  checkPostRefs data blogId w = (Ok (Some (createErrorResponse message 404)), w).
Proof.
  intros Hblog. cbn [missingParent]. rewrite Hblog. unfold checkPostRefs, bind, query.
  unfold Sql.selectBlog, Sql.selectAuthorRow, Sql.selectCategoryRow, Sql.blogIds,
    Sql.authorIds, Sql.categoryIds.
  destruct (Sql.hasId (map Blog.BlogId (Blogs (db w))) blogId) eqn:Eb.
  - destruct (find_present Blog.BlogId _ _ Eb) as [b ->].
    destruct (truthyZ (Json.AuthorId data)) as [a|].
    + destruct (Sql.hasId (map Author.AuthorId (Authors (db w))) a) eqn:Ea.
      * destruct (find_present Author.AuthorId _ _ Ea) as [ra ->]. cbn [isSome negb].
        destruct (truthyZ (Json.CategoryId data)) as [c|]; [|discriminate].
        destruct (Sql.hasId (map Category.CategoryId (Categories (db w))) c) eqn:Ec;
          [discriminate|].
        rewrite (find_absent Category.CategoryId _ _ Ec). intros H. now injection H as <-.
      * rewrite (find_absent Author.AuthorId _ _ Ea). intros H. now injection H as <-.
    + cbn [ret negb]. destruct (truthyZ (Json.CategoryId data)) as [c|]; [|discriminate].
      destruct (Sql.hasId (map Category.CategoryId (Categories (db w))) c) eqn:Ec;
        [discriminate|].
      rewrite (find_absent Category.CategoryId _ _ Ec). intros H. now injection H as <-.
  - rewrite (find_absent Blog.BlogId _ _ Eb). intros H. now injection H as <-.
Qed.

(** The checks of a handler on the body that it has read. *)
Ltac check_body :=
  unfold json, catch;
  match goal with Hbody : body _ = Some _ |- _ => rewrite Hbody end;
  rewrite bind_ret;
  split;
  [ intros Hreq; cbn [hasRequired] in Hreq;
    repeat match goal with
           | |- context [match truthyS ?x with _ => _ end] => destruct (truthyS x)
           | |- context [match truthyZ ?x with _ => _ end] => destruct (truthyZ x)
           end; solve [discriminate Hreq | reflexivity]
  | intros Hreq message Hmissing; cbn [hasRequired] in Hreq;
    repeat match goal with
           | |- context [match truthyS ?x with _ => _ end] =>
               let E := fresh "E" in destruct (truthyS x) eqn:E
           | |- context [match truthyZ ?x with _ => _ end] =>
               let E := fresh "E" in destruct (truthyZ x) eqn:E
           end; try discriminate Hreq;
    first
      [ discriminate Hmissing
      | match goal with
        | E : truthyZ (Json.BlogId _) = Some _ |- _ =>
            erewrite (bind_ok _ _ _ _ _ (checkPostRefs_missing _ _ _ _ E Hmissing))
        end; reflexivity
      | cbn [missingParent] in Hmissing;
        match goal with E : truthyZ _ = Some ?id |- _ => rewrite E in Hmissing end;
        match type of Hmissing with
        | (if ?b then _ else _) = _ =>
            let G := fresh "G" in destruct b eqn:G; [discriminate Hmissing|];
            injection Hmissing as <-;
            unfold bind, query, Sql.selectBlog, Sql.selectPostRow;
            first [ rewrite (find_absent Blog.BlogId _ _ G)
                  | rewrite (find_absent Post.PostId _ _ G) ];
            reflexivity
        end ] ].

(** X28.  A POST, or a PUT with an id, whose body lacks a required property is
    answered 400 with the message that names the properties; one whose
    body has them but refers to a blog, author, category or post that does
    not exist is answered 404 with the message that names the first such
    row.  Nothing is changed in either case. *)
Theorem invalid_body_rejected (rt : Runtime) (r : Resource) (seg : option jsstring)
    (request : Request) (data : Json.t) (w : World) :
  pathname request = pathOf r seg ->
  segmentOk seg = true ->
  body request = Some data ->
  method request = js "POST" \/ (method request = js "PUT" /\ truthyId (idOf seg) <> None) ->
  (hasRequired r data = false ->
   handleRequest rt request w = (Ok (createErrorResponse (requiredMessage r) 400), w))
  /\ (hasRequired r data = true ->
      forall message,
        missingParent r data (db w) = Some message ->
        handleRequest rt request w = (Ok (createErrorResponse message 404), w)).
Proof.
  intros Hpath Hseg Hbody Hm. rewrite (route_any rt r seg request w Hpath Hseg).
  destruct Hm as [-> | [-> Hid]].
  - destruct r; cbn [handlerOf requiredMessage];
      unfold handleBlogs, handleAuthors, handleCategories, handlePosts, handleTags,
        handleComments, isMethod; literal_tests; cbv iota; check_body.
  - destruct (truthyId (idOf seg)) as [z|] eqn:Ez; [clear Hid | contradiction].
    destruct r; cbn [handlerOf requiredMessage];
      unfold handleBlogs, handleAuthors, handleCategories, handlePosts, handleTags,
        handleComments, isMethod; literal_tests; cbv iota; rewrite Ez; check_body.
Qed.

(** POST /api/posts with the body {}, and with a body that names a blog
    that does not exist. *)
Lemma invalid_body_rejected_witness :
  let missing := postBody (js "Hello") (js "hello") 9 TagsUndefined in
  pathname (plainRequest "POST" "/api/posts" (Some Json.empty)) = pathOf RPosts None
  /\ hasRequired RPosts Json.empty = false
  /\ hasRequired RPosts missing = true
  /\ missingParent RPosts missing (db afterIngestion) = Some "Blog not found"%string
  /\ handleRequest Sample.runtime (plainRequest "POST" "/api/posts" (Some Json.empty))
       afterIngestion
     = (Ok (createErrorResponse "Title, Slug, and BlogId are required" 400), afterIngestion)
  /\ handleRequest Sample.runtime (plainRequest "POST" "/api/posts" (Some missing))
       afterIngestion
     = (Ok (createErrorResponse "Blog not found" 404), afterIngestion).
Proof.
  cbv zeta. refine (conj eq_refl (conj eq_refl (conj eq_refl (conj eq_refl (conj _ _))))).
  - exact (proj1 (invalid_body_rejected Sample.runtime RPosts None
                    (plainRequest "POST" "/api/posts" (Some Json.empty)) Json.empty
                    afterIngestion eq_refl eq_refl eq_refl (or_introl eq_refl)) eq_refl).
  - exact (proj2 (invalid_body_rejected Sample.runtime RPosts None
                    (plainRequest "POST" "/api/posts"
                       (Some (postBody (js "Hello") (js "hello") 9 TagsUndefined)))
                    (postBody (js "Hello") (js "hello") 9 TagsUndefined)
                    afterIngestion eq_refl eq_refl eq_refl (or_introl eq_refl))
             eq_refl "Blog not found"%string eq_refl).
Defined.

(** X29.  A body that cannot be read as JSON makes a POST, and a PUT with an id,
    fail with 500 and nothing changed: "Internal server error" on the six
    resources, "Failed to create posts" on /api/simple. *)
Theorem unreadable_body (rt : Runtime) (request : Request) (w : World) :
  body request = None ->
  (forall r seg,
     pathname request = pathOf r seg ->
     segmentOk seg = true ->
     method request = js "POST" \/ (method request = js "PUT" /\ truthyId (idOf seg) <> None) ->
     handleRequest rt request w = (Ok (createErrorResponse "Internal server error" 500), w))
  /\ (method request = js "POST" ->
      pathname request = js "/api/simple" ->
      handleRequest rt request w = (Ok (createErrorResponse "Failed to create posts" 500), w)).
Proof.
  intros Hbody. split.
  - intros r seg Hpath Hseg Hm. rewrite (route_any rt r seg request w Hpath Hseg).
    destruct Hm as [-> | [-> Hid]].
    + destruct r; cbn [handlerOf];
        unfold handleBlogs, handleAuthors, handleCategories, handlePosts, handleTags,
          handleComments, isMethod; literal_tests; cbv iota;
        unfold json, catch, bind; now rewrite Hbody.
    + destruct (truthyId (idOf seg)) as [z|] eqn:Ez; [clear Hid | contradiction].
      destruct r; cbn [handlerOf];
        unfold handleBlogs, handleAuthors, handleCategories, handlePosts, handleTags,
          handleComments, isMethod; literal_tests; cbv iota; rewrite Ez;
        unfold json, catch, bind; now rewrite Hbody.
  - intros Hm Hpath. rewrite (route_simple rt request w Hm Hpath).
    unfold catch, simplePost, json, bind. now rewrite Hbody.
Qed.

(** PUT /api/authors/1 and POST /api/simple without a readable body. *)
Lemma unreadable_body_witness :
  body (plainRequest "PUT" "/api/authors/1" None) = None
  /\ truthyId (idOf (Some (js "1"))) <> None
  /\ handleRequest Sample.runtime (plainRequest "PUT" "/api/authors/1" None) afterIngestion
     = (Ok (createErrorResponse "Internal server error" 500), afterIngestion)
  /\ handleRequest Sample.runtime (plainRequest "POST" "/api/simple" None) afterIngestion
     = (Ok (createErrorResponse "Failed to create posts" 500), afterIngestion).
Proof.
  assert (Hid : truthyId (idOf (Some (js "1"))) <> None) by discriminate.
  refine (conj eq_refl (conj Hid (conj _ _))).
  - exact (proj1 (unreadable_body Sample.runtime (plainRequest "PUT" "/api/authors/1" None)
                    afterIngestion eq_refl)
             RAuthors (Some (js "1")) eq_refl eq_refl (or_intror (conj eq_refl Hid))).
  - exact (proj2 (unreadable_body Sample.runtime (plainRequest "POST" "/api/simple" None)
                    afterIngestion eq_refl) eq_refl eq_refl).
Defined.

(** X30.  PUT tells a [tags] that is null from one that is absent (line 644
    tests [tags !== undefined]).  A PUT to /api/posts/{id} whose body
    passes the checks and carries [tags: null] is answered 500, reading the
    length of null, after the tags of the post have been unlinked: the
    links of the other posts are all that is left. *)
Theorem put_null_tags_unlinks (rt : Runtime) (seg : jsstring) (id : Z) (request : Request)
    (data : Json.t) (title slug : jsstring) (blogId : Z) (w : World) :
  method request = js "PUT" ->
  pathname request = pathOf RPosts (Some seg) ->
  isSegment seg = true ->
  parseInt seg = Some id ->
  id <> 0%Z ->
  body request = Some data ->
  truthyS (Json.Title data) = Some title ->
  truthyS (Json.Slug data) = Some slug ->
  truthyZ (Json.BlogId data) = Some blogId ->
  Sql.postRefsOk blogId (truthyZ (Json.AuthorId data)) (truthyZ (Json.CategoryId data)) (db w)
  = true ->
  Json.tags data = TagsNull ->
  exists w',
    handleRequest rt request w = (Ok (createErrorResponse "Internal server error" 500), w')
    /\ PostTags (db w') = filter (fun pt => negb (fst pt =? id)%Z) (PostTags (db w)).
Proof.
  intros Hm Hpath Hseg Hparse Hid Hbody Htitle Hslug Hblog Hrefs Htags.
  rewrite (route_any rt RPosts (Some seg) request w Hpath Hseg), Hm.
  cbn [handlerOf idOf]. rewrite Hparse.
  unfold handlePosts, isMethod. literal_tests. cbv iota.
  cbn [truthyId]. rewrite (proj2 (Z.eqb_neq id 0) Hid).
  unfold json, catch. rewrite Hbody, bind_ret, Htitle, Hslug, Hblog.
  run_step (checkPostRefs_ok data blogId w Hrefs).
  run_step (getCurrentTimestamp_run rt w).
  set (w1 := {| db := db w; reads := S (reads w) |}).
  destruct (publishedAtOf_db rt data w1) as (publishedAt & n & Hpub).
  run_step Hpub. cbn [db w1].
  set (row := postColumns data title slug blogId publishedAt [] _).
  destruct (updatePost_ok id row (db w) Hrefs) as (s2 & Hup & Hids & HT & HL).
  set (w2 := {| db := db w; reads := n |}).
  run_step (exec_run _ w2 _ _ Hup). rewrite Htags.
  set (w3 := {| db := s2; reads := reads w2 |}).
  assert (Hdel : Sql.deletePostTags id (db w3)
                 = Some (tt, Sql.withPostTags s2
                               (filter (fun pt => negb (fst pt =? id)%Z) (PostTags s2))))
    by reflexivity.
  match goal with
  | |- context [bind (bind ?m ?k) ?k'] =>
      assert (Hlinks : bind m k w3
                       = (Thrown, {| db := Sql.withPostTags s2
                                       (filter (fun pt => negb (fst pt =? id)%Z) (PostTags s2));
                                     reads := reads w2 |}))
  end.
  { run_step (exec_run _ w3 _ _ Hdel). reflexivity. }
  rewrite (bind_thrown _ _ _ _ Hlinks).
  eexists. split; [reflexivity|]. cbn [db PostTags Sql.withPostTags]. now rewrite HL.
Qed.

(** PUT /api/posts/1 with [tags: null], the post 1 having the tag 1: the
    link is gone afterwards. *)
Lemma put_null_tags_unlinks_witness :
  let data := postBody (js "Hello") (js "hello") 1 TagsNull in
  let request := plainRequest "PUT" "/api/posts/1" (Some data) in
  method request = js "PUT"
  /\ pathname request = pathOf RPosts (Some (js "1"))
  /\ isSegment (js "1") = true
  /\ parseInt (js "1") = Some 1%Z
  /\ 1%Z <> 0%Z
  /\ body request = Some data
  /\ Sql.postRefsOk 1 (truthyZ (Json.AuthorId data)) (truthyZ (Json.CategoryId data))
       (db afterLink) = true
  /\ PostTags (db afterLink) = [(1%Z, 1%Z)]
  /\ exists w',
       handleRequest Sample.runtime request afterLink
       = (Ok (createErrorResponse "Internal server error" 500), w')
       /\ PostTags (db w') = [].
Proof.
  cbv zeta.
  assert (Hid : 1%Z <> 0%Z) by discriminate.
  refine (conj eq_refl (conj eq_refl (conj eq_refl (conj eq_refl (conj Hid
            (conj eq_refl (conj eq_refl (conj eq_refl _)))))))).
  exact (put_null_tags_unlinks Sample.runtime (js "1") 1
           (plainRequest "PUT" "/api/posts/1"
              (Some (postBody (js "Hello") (js "hello") 1 TagsNull)))
           (postBody (js "Hello") (js "hello") 1 TagsNull) (js "Hello") (js "hello") 1
           afterLink
           eq_refl eq_refl eq_refl eq_refl Hid eq_refl eq_refl eq_refl eq_refl eq_refl
           eq_refl).
Defined.
